(** * Warranty-Deck: the receipt parser of [lib/ocr.js]

    A shallow embedding of [parseReceiptData] and of the extractors it is
    made of, with the properties of the repository's specification that
    concern it.

    Conventions of the embedding.
    - A JavaScript string is the list of its UTF-16 code units ([N]).
    - A regular expression literal is a value of [regex]; the matcher [m] is
      the backtracking matcher of ECMAScript for the constructs the parser's
      patterns use.
    - A JavaScript number is [NaN] or its exact rational value [Num q]; the
      numbers of the parser are decimal literals read by [parseFloat], one
      quotient of two of them, and small integers.  Rounding to binary64 is
      not modelled.
    - The clock and the time zone of the host are the explicit argument
      [Host] of [parseReceiptData]. *)

From Stdlib Require Import List Bool Arith NArith ZArith QArith Lia.
From Stdlib Require Import Strings.String Strings.Ascii Numbers.DecimalString.
Import ListNotations.

Close Scope Q_scope.
Open Scope nat_scope.
Open Scope bool_scope.

(** ** Strings as lists of code units *)

Abbreviation char := N (only parsing).
Abbreviation str := (list N) (only parsing).

(** An ASCII literal of the source as a list of code units. *)
Definition lit (s : string) : str := map N_of_ascii (list_ascii_of_string s).

Definition isDigit (c : char) : bool := (48 <=? c)%N && (c <=? 57)%N.
Definition isUpper (c : char) : bool := (65 <=? c)%N && (c <=? 90)%N.
Definition isLower (c : char) : bool := (97 <=? c)%N && (c <=? 122)%N.

(** [\s] of a regular expression and the characters [trim] removes: the
    WhiteSpace and LineTerminator code points of ECMAScript. *)
Definition isSpace (c : char) : bool :=
  ((9 <=? c)%N && (c <=? 13)%N) || (c =? 32)%N || (c =? 160)%N
  || (c =? 5760)%N || ((8192 <=? c)%N && (c <=? 8202)%N)
  || (c =? 8232)%N || (c =? 8233)%N || (c =? 8239)%N || (c =? 8287)%N
  || (c =? 12288)%N || (c =? 65279)%N.

Definition str_eqb (a b : str) : bool :=
  if list_eq_dec N.eq_dec a b then true else false.

Fixpoint startsWith (p s : str) : bool :=
  match p, s with
  | [], _ => true
  | x :: p', y :: s' => (x =? y)%N && startsWith p' s'
  | _ :: _, [] => false
  end.

(** [s.includes(p)] *)
Fixpoint includes (p s : str) : bool :=
  startsWith p s || match s with [] => false | _ :: s' => includes p s' end.

Fixpoint dropWhile (f : char -> bool) (s : str) : str :=
  match s with
  | [] => []
  | x :: s' => if f x then dropWhile f s' else s
  end.

Definition trim (s : str) : str :=
  rev (dropWhile isSpace (rev (dropWhile isSpace s))).

(** [s.split(sep)] for a separator of one code unit; [cur] is the piece
    being read, reversed. *)
Fixpoint split_char (sep : char) (s : str) (cur : str) : list str :=
  match s with
  | [] => [rev cur]
  | x :: s' =>
      if (x =? sep)%N then rev cur :: split_char sep s' []
      else split_char sep s' (x :: cur)
  end.

(** [toLowerCase].  Upper-case ASCII letters, KELVIN SIGN (to [k]) and
    LATIN CAPITAL LETTER I WITH DOT ABOVE (to [i] and a combining dot) are the
    only code points whose image holds an ASCII letter; every other code unit
    above ASCII has an image above ASCII and is left in place here, since the
    parser only looks for ASCII text in what it lowers. *)
Definition lower1 (c : char) : str :=
  if isUpper c then [(c + 32)%N]
  else if (c =? 8490)%N then [107%N]
  else if (c =? 304)%N then [105%N; 775%N]
  else [c].

Definition toLowerCase (s : str) : str := flat_map lower1 s.

(** [toUpperCase], applied by the parser to its own lower-case keywords only. *)
Definition upper1 (c : char) : char := if isLower c then (c - 32)%N else c.
Definition toUpperCase (s : str) : str := map upper1 s.

(** [arr.join(sep)] *)
Fixpoint join (sep : str) (l : list str) : str :=
  match l with
  | [] => []
  | [x] => x
  | x :: l' => x ++ sep ++ join sep l'
  end.

(** ** Regular expressions *)

(** The constructs of the patterns in [lib/ocr.js].  Every quantifier of the
    source applies to a single character class ([Rep]) or is a [?] ([Opt]);
    no capture group stands under a quantifier. *)
Inductive regex : Type :=
| Cls (p : char -> bool)                          (* one code unit in a class *)
| Eps
| Cat (a b : regex)
| Alt (a b : regex)                               (* a|b *)
| Opt (a : regex)                                 (* a? *)
| Rep (p : char -> bool) (lo : nat) (hi : option nat)   (* [p]{lo,hi}, greedy *)
| Grp (n : nat) (a : regex)                       (* capture group number n *)
| Bol                                             (* ^ *)
| Eol.                                            (* $ *)

Definition caps := list (nat * str).

Fixpoint getcap (n : nat) (c : caps) : option str :=
  match c with
  | [] => None
  | (k, v) :: c' => if Nat.eqb k n then Some v else getcap n c'
  end.

(** A continuation receives the index reached, the text left and the
    captures; a match is the end index and the captures. *)
Definition cont := nat -> str -> caps -> option (nat * caps).

Definition accept : cont := fun i _ c => Some (i, c).

Definition hi_zero (hi : option nat) : bool :=
  match hi with Some 0 => true | _ => false end.

(** Greedy repetition of a character class: take one more code unit when
    allowed and the rest of the pattern then matches, otherwise stop here
    when [lo] repetitions are done. *)
Fixpoint rep (p : char -> bool) (lo : nat) (hi : option nat) (k : cont)
  (i : nat) (s : str) (c : caps) {struct s} : option (nat * caps) :=
  let stop := if Nat.eqb lo 0 then k i s c else None in
  match s with
  | x :: s' =>
      if p x && negb (hi_zero hi) then
        match rep p (pred lo) (option_map pred hi) k (S i) s' c with
        | Some r => Some r
        | None => stop
        end
      else stop
  | [] => stop
  end.

Fixpoint m (r : regex) (k : cont) (i : nat) (s : str) (c : caps)
  {struct r} : option (nat * caps) :=
  match r with
  | Cls p =>
      match s with
      | x :: s' => if p x then k (S i) s' c else None
      | [] => None
      end
  | Eps => k i s c
  | Cat a b => m a (fun i' s' c' => m b k i' s' c') i s c
  | Alt a b =>
      match m a k i s c with
      | Some r => Some r
      | None => m b k i s c
      end
  | Opt a =>
      match m a (fun i' s' c' => if Nat.eqb i' i then None else k i' s' c') i s c with
      | Some r => Some r
      | None => k i s c
      end
  | Rep p lo hi => rep p lo hi k i s c
  | Grp n a => m a (fun i' s' c' => k i' s' ((n, firstn (i' - i) s) :: c')) i s c
  | Bol => if Nat.eqb i 0 then k i s c else None
  | Eol => match s with [] => k i s c | _ :: _ => None end
  end.

(** The result of [exec]: [m_text] is [match[0]], [m_caps] the groups. *)
Record match_result : Type := MatchResult {
  m_index : nat;
  m_text : str;
  m_caps : caps
}.

Definition group (n : nat) (r : match_result) : str :=
  match getcap n (m_caps r) with Some v => v | None => [] end.

(** Leftmost match: the pattern is tried at every index from [i] on. *)
Fixpoint search_from (r : regex) (i : nat) (s : str) : option match_result :=
  match m r accept i s [] with
  | Some (e, c) => Some (MatchResult i (firstn (e - i) s) c)
  | None =>
      match s with
      | [] => None
      | _ :: s' => search_from r (S i) s'
      end
  end.

(** [s.match(r)] for a pattern without the [g] flag. *)
Definition re_match (r : regex) (s : str) : option match_result :=
  search_from r 0 s.

(** [r.test(s)] *)
Definition re_test (r : regex) (s : str) : bool :=
  match re_match r s with Some _ => true | None => false end.

(** [s.match(r)] for a pattern with the [g] flag (the list is empty where
    JavaScript has [null]).  [skip] counts the code units of the last match
    still to be passed over. *)
Fixpoint match_all_from (r : regex) (i : nat) (s : str) (skip : nat) : list str :=
  match s with
  | [] =>
      match m r accept i [] [] with
      | Some _ => [[]]
      | None => []
      end
  | _ :: s' =>
      match skip with
      | S n => match_all_from r (S i) s' n
      | 0 =>
          match m r accept i s [] with
          | Some (e, _) => firstn (e - i) s :: match_all_from r (S i) s' (e - i - 1)
          | None => match_all_from r (S i) s' 0
          end
      end
  end.

Definition match_all (r : regex) (s : str) : list str := match_all_from r 0 s 0.

(** [s.split(r)] for a pattern without capture groups; [cur] is the piece
    being read, reversed. *)
Fixpoint split_from (r : regex) (i : nat) (s : str) (skip : nat) (cur : str)
  : list str :=
  match s with
  | [] => [rev cur]
  | x :: s' =>
      match skip with
      | S n => split_from r (S i) s' n cur
      | 0 =>
          match m r accept i s [] with
          | Some (e, _) =>
              if Nat.eqb e i then
                match cur with
                | [] => split_from r (S i) s' 0 [x]
                | _ :: _ => rev cur :: split_from r (S i) s' 0 [x]
                end
              else rev cur :: split_from r (S i) s' (e - i - 1) []
          | None => split_from r (S i) s' 0 (x :: cur)
          end
      end
  end.

Definition re_split (r : regex) (s : str) : list str :=
  match s with
  | [] => match m r accept 0 [] [] with Some _ => [] | None => [[]] end
  | _ :: _ => split_from r 0 s 0 []
  end.

(** *** Pattern syntax *)

Definition oneOf (a : string) : char -> bool :=
  fun c => existsb (N.eqb c) (lit a).

Definition lowerA (c : char) : char := if isUpper c then (c + 32)%N else c.

(** A literal ASCII character and a class of ASCII characters under the [i]
    flag: two code units match when their canonical (upper-case) forms are
    equal, and no code unit above ASCII has an ASCII canonical form. *)
Definition ci (c : char) : char -> bool :=
  fun x => (upper1 x =? upper1 c)%N.

Definition icase (p : char -> bool) : char -> bool :=
  fun x => p x || p (upper1 x) || p (lowerA x).

Fixpoint Str_of (f : char -> char -> bool) (l : str) : regex :=
  match l with
  | [] => Eps
  | [x] => Cls (f x)
  | x :: l' => Cat (Cls (f x)) (Str_of f l')
  end.

Definition Str (a : string) : regex := Str_of N.eqb (lit a).
Definition StrI (a : string) : regex := Str_of ci (lit a).

Fixpoint Alts (l : list regex) : regex :=
  match l with
  | [] => Eps
  | [x] => x
  | x :: l' => Alt x (Alts l')
  end.

Fixpoint Cats (l : list regex) : regex :=
  match l with
  | [] => Eps
  | [x] => x
  | x :: l' => Cat x (Cats l')
  end.


(** ** Numbers *)

Inductive num : Type :=
| NaN
| Num (q : Q).

Definition num_eqb (a b : num) : bool :=
  match a, b with
  | Num x, Num y => Qeq_bool x y
  | _, _ => false
  end.

(** [a > b] *)
Definition num_gtb (a b : num) : bool :=
  match a, b with
  | Num x, Num y => negb (Qle_bool x y)
  | _, _ => false
  end.

(** [a / b]; the parser divides only by a quantity it has tested positive. *)
Definition num_div (a b : num) : num :=
  match a, b with
  | Num x, Num y => if Qeq_bool y 0 then NaN else Num (Qred (x / y))
  | _, _ => NaN
  end.

(** [Math.max] of two arguments. *)
Definition num_max (a b : num) : num :=
  match a, b with
  | Num x, Num y => if Qle_bool x y then Num y else Num x
  | _, _ => NaN
  end.

(** [x || 0] for a number that may be [null]: [null], [NaN] and [0] are
    falsy. *)
Definition orZero (x : option num) : num :=
  match x with
  | Some (Num q) => if Qeq_bool q 0 then Num 0 else Num q
  | _ => Num 0
  end.

Fixpoint takeWhile (f : char -> bool) (s : str) : str :=
  match s with
  | [] => []
  | x :: s' => if f x then x :: takeWhile f s' else []
  end.

Definition digits_val (s : str) : N :=
  fold_left (fun acc c => (acc * 10 + (c - 48))%N) s 0%N.

(** A sign at the head of a numeric text: whether it is [-], and the rest. *)
Definition sign_of (s : str) : bool * str :=
  match s with
  | x :: r =>
      if (x =? 45)%N then (true, r)
      else if (x =? 43)%N then (false, r)
      else (false, s)
  | [] => (false, s)
  end.

(** The digits after a decimal point at the head of [s]. *)
Definition fraction_of (s : str) : str :=
  match s with
  | x :: r => if (x =? 46)%N then takeWhile isDigit r else []
  | [] => []
  end.

(** [parseFloat]: blanks, a sign, then the longest decimal prefix.  Exponents
    and [Infinity] are left out: every argument the parser passes is a capture
    made of digits and dots. *)
Definition parseFloat (s : str) : num :=
  let '(neg, s1) := sign_of (dropWhile isSpace s) in
  let ip := takeWhile isDigit s1 in
  let fp := fraction_of (dropWhile isDigit s1) in
  match ip ++ fp with
  | [] => NaN
  | _ :: _ =>
      let v := Z.of_N (digits_val (ip ++ fp)) in
      Num (Qred ((if neg then (- v)%Z else v) # Z.to_pos (10 ^ Z.of_nat (List.length fp))))
  end.

(** [parseInt] in base ten; [None] is [NaN].  No argument of the parser can
    hold the [x] of a hexadecimal prefix. *)
Definition parseInt (s : str) : option Z :=
  let '(neg, s1) := sign_of (dropWhile isSpace s) in
  match takeWhile isDigit s1 with
  | [] => None
  | ds => let v := Z.of_N (digits_val ds) in Some (if neg then (- v)%Z else v)
  end.

(** [isNaN(s)] for a text that is a run of digits or a run of letters (the
    second group of the date patterns): [Number(s)] is a number exactly when
    [s] is made of digits. *)
Definition isNaN_text (s : str) : bool := negb (forallb isDigit s).

(** Decimal text of an integer, as in a template literal. *)
Definition str_of_N (n : N) : str := lit (NilZero.string_of_uint (N.to_uint n)).

Definition str_of_Z (z : Z) : str :=
  if (z <? 0)%Z then lit "-" ++ str_of_N (Z.to_N (- z)) else str_of_N (Z.to_N z).

Definition pad (w : nat) (n : N) : str :=
  let d := str_of_N n in repeat 48%N (w - List.length d) ++ d.

(** ** Dates *)

Module JsDate.

Local Open Scope Z_scope.

Definition msPerDay : Z := 86400000.

(** Day number (days since 1970-01-01) of a Gregorian date, month in 1..12. *)
Definition days_from_civil (y mo d : Z) : Z :=
  let y' := if mo <=? 2 then y - 1 else y in
  let era := y' / 400 in
  let yoe := y' - era * 400 in
  let mp := if 2 <? mo then mo - 3 else mo + 9 in
  let doy := (153 * mp + 2) / 5 + d - 1 in
  let doe := yoe * 365 + yoe / 4 - yoe / 100 + doy in
  era * 146097 + doe - 719468.

(** Gregorian date of a day number: year, month in 1..12, day. *)
Definition civil_from_days (z : Z) : Z * Z * Z :=
  let z' := z + 719468 in
  let era := z' / 146097 in
  let doe := z' - era * 146097 in
  let yoe := (doe - doe / 1460 + doe / 36524 - doe / 146096) / 365 in
  let doy := doe - (365 * yoe + yoe / 4 - yoe / 100) in
  let mp := (5 * doy + 2) / 153 in
  let d := doy - (153 * mp + 2) / 5 + 1 in
  let mo := if mp <? 10 then mp + 3 else mp - 9 in
  let y := yoe + era * 400 in
  (if mo <=? 2 then y + 1 else y, mo, d).

(** [MakeDay(year, month, date)]: months past December and days past the end
    of the month carry over. *)
Definition MakeDay (year month date : Z) : Z :=
  let ym := year + month / 12 in
  let mn := month mod 12 in
  days_from_civil ym (mn + 1) 1 + date - 1.

Definition TimeClip (t : Z) : option Z :=
  if 8640000000000000 <? Z.abs t then None else Some t.

(** [new Date(y, m, d)]: local midnight of the date, as a UTC time value;
    [None] is the invalid date.  [tza t] is the offset of local time from
    UTC, in milliseconds, at local time [t]. *)
Definition make (tza : Z -> Z) (y mo d : option Z) : option Z :=
  match y, mo, d with
  | Some y, Some mo, Some d =>
      let yr := if (0 <=? y) && (y <=? 99) then 1900 + y else y in
      let t := MakeDay yr mo d * msPerDay in
      TimeClip (t - tza t)
  | _, _, _ => None
  end.

(** [date.toISOString().split('T')[0]] of a valid time value. *)
Definition isoDate (t : Z) : str :=
  let '(y, mo, d) := civil_from_days (t / msPerDay) in
  let ys :=
    if (0 <=? y) && (y <=? 9999) then pad 4 (Z.to_N y)
    else (if y <? 0 then lit "-" else lit "+") ++ pad 6 (Z.to_N (Z.abs y)) in
  ys ++ lit "-" ++ pad 2 (Z.to_N mo) ++ lit "-" ++ pad 2 (Z.to_N d).

End JsDate.

(** What a call reads from its host: the clock at [new Date()] (line 62) and
    at [Date.now()] (line 65), in milliseconds since the epoch, and the
    offset of the local time zone. *)
Record Host : Type := {
  clock_date : Z;
  clock_now : Z;
  LocalTZA : Z -> Z
}.

(** A host in the UTC zone whose clock reads [t] at both places. *)
Definition utc_host (t : Z) : Host :=
  {| clock_date := t; clock_now := t; LocalTZA := fun _ => 0%Z |}.

(** ** The parser ([lib/ocr.js]) *)

Record LineItem : Type := {
  description : str;
  quantity : num;
  unit_price : option num;
  total_price : num;
  serial_no : nat
}.

Record ParsedReceipt : Type := {
  store_name : str;
  store_address : option str;
  store_website : option str;
  purchase_date : str;
  total_amount : num;
  tax_amount : num;
  receipt_number : str;
  payment_method : option str;
  currency : str;
  items : list LineItem;
  raw_text : str
}.

(** [ocrText.split('\n').map(line => line.trim()).filter(line => line.length > 0)] *)
Definition normalize (ocrText : str) : list str :=
  filter (fun line => 0 <? List.length line) (map trim (split_char 10%N ocrText [])).

(** *** extractStoreInfo *)

Record StoreInfo : Type := {
  si_store_name : option str;
  si_address : option str;
  si_website : option str
}.

Definition storeKeywords : list str :=
  map lit ["store"; "mart"; "shop"; "supermarket"; "electronics"; "retail"; "market"]%string.

(** [/www\.|\.com|\.org|\.net|https?:\/\//i] *)
Definition url_re : regex :=
  Alts [StrI "www."; StrI ".com"; StrI ".org"; StrI ".net";
        Cats [StrI "http"; Opt (Cls (ci 115%N)); StrI "://"]].

(** [/[A-Z]/g] *)
Definition upper_re : regex := Cls isUpper.

(** [upperRatio > 0.5] *)
Definition upperRatio (line : str) : Q :=
  Z.of_nat (List.length (match_all upper_re line))
  # Pos.of_nat (Nat.max (List.length line) 1).

Definition hasKeyword (line : str) : bool :=
  existsb (fun kw => includes kw (toLowerCase line)) storeKeywords.

(** The variables of the loop: [storeName], [addressParts], [website]. *)
Definition store_state : Type := option str * list str * option str.

Definition store_step (st : store_state) (line : str) : store_state :=
  let '(storeName, addressParts, website) := st in
  match line with
  | [] => st
  | _ :: _ =>
      if re_test url_re line then (storeName, addressParts, Some line)
      else if (negb (Qle_bool (upperRatio line) (1 # 2)) || hasKeyword line)
              && match storeName with None => true | Some _ => false end
      then (Some line, addressParts, website)
      else if match storeName with Some _ => true | None => false end
              && (List.length addressParts <? 3)
      then (storeName, addressParts ++ [line], website)
      else st
  end.

Definition extractStoreInfo (lines : list str) : StoreInfo :=
  let '(storeName, addressParts, website) :=
    fold_left store_step (firstn 10 lines) (None, [], None) in
  {| si_store_name := storeName;
     si_address :=
       match addressParts with
       | [] => None
       | _ :: _ => Some (join (lit ", ") addressParts)
       end;
     si_website := website |}.

(** *** extractReceiptNumber *)

Definition alnum (c : char) : bool := isUpper c || isDigit c.
Definition alnum_dash (c : char) : bool := isUpper c || isDigit c || oneOf "-" c.

(** [/(?:receipt|invoice|bill|txn|trans|order)\s*(?:no\.?|num(?:ber)?|id)?\s*[:#\-]?\s*([A-Z0-9][A-Z0-9\-]+)/i] *)
Definition receipt_re : regex :=
  Cats [Alts [StrI "receipt"; StrI "invoice"; StrI "bill"; StrI "txn";
              StrI "trans"; StrI "order"];
        Rep isSpace 0 None;
        Opt (Alts [Cat (StrI "no") (Opt (Cls (oneOf ".")));
                   Cat (StrI "num") (Opt (StrI "ber"));
                   StrI "id"]);
        Rep isSpace 0 None;
        Opt (Cls (oneOf ":#-"));
        Rep isSpace 0 None;
        Grp 1 (Cat (Cls (icase alnum)) (Rep (icase alnum_dash) 1 None))].

Definition extractReceiptNumber (text : str) : option str :=
  match re_match receipt_re text with
  | Some mt => Some (group 1 mt)
  | None => None
  end.

(** *** parseDate *)

Definition sep_cls : char -> bool := oneOf "/-".

(** [/(\d{1,2})[/\-](\d{1,2})[/\-](\d{2,4})/] *)
Definition date_re1 : regex :=
  Cats [Grp 1 (Rep isDigit 1 (Some 2)); Cls sep_cls;
        Grp 2 (Rep isDigit 1 (Some 2)); Cls sep_cls;
        Grp 3 (Rep isDigit 2 (Some 4))].

(** [/(\d{4})[/\-](\d{1,2})[/\-](\d{1,2})/] *)
Definition date_re2 : regex :=
  Cats [Grp 1 (Rep isDigit 4 (Some 4)); Cls sep_cls;
        Grp 2 (Rep isDigit 1 (Some 2)); Cls sep_cls;
        Grp 3 (Rep isDigit 1 (Some 2))].

Definition monthNames : list str :=
  map lit ["Jan"; "Feb"; "Mar"; "Apr"; "May"; "Jun";
           "Jul"; "Aug"; "Sep"; "Oct"; "Nov"; "Dec"]%string.

(** [/(\d{1,2})\s+(Jan|Feb|Mar|Apr|May|Jun|Jul|Aug|Sep|Oct|Nov|Dec)[a-z]*\s+(\d{2,4})/i] *)
Definition date_re3 : regex :=
  Cats [Grp 1 (Rep isDigit 1 (Some 2)); Rep isSpace 1 None;
        Grp 2 (Alts [StrI "Jan"; StrI "Feb"; StrI "Mar"; StrI "Apr";
                     StrI "May"; StrI "Jun"; StrI "Jul"; StrI "Aug";
                     StrI "Sep"; StrI "Oct"; StrI "Nov"; StrI "Dec"]);
        Rep (icase isLower) 0 None; Rep isSpace 1 None;
        Grp 3 (Rep isDigit 2 (Some 4))].

Definition date_patterns : list regex := [date_re1; date_re2; date_re3].

(** [arr.findIndex(f)], [-1] when no element passes. *)
Fixpoint findIndex (f : str -> bool) (l : list str) (i : Z) : Z :=
  match l with
  | [] => (-1)%Z
  | x :: l' => if f x then i else findIndex f l' (i + 1)%Z
  end.

Definition zadd (a : option Z) (b : Z) : option Z := option_map (fun x => (x + b)%Z) a.

Definition lt100 (a : option Z) : bool :=
  match a with Some x => (x <? 100)%Z | None => false end.

(** The body of the loop of [parseDate] for one match: the date it returns,
    or [None] when it goes on to the next pattern. *)
Definition date_of_match (h : Host) (mt : match_result) : option str :=
  let date :=
    if negb (Nat.eqb (List.length (group 2 mt)) 0) && isNaN_text (group 2 mt) then
      let month :=
        findIndex (fun mn => str_eqb (toLowerCase (firstn 3 (group 2 mt))) (toLowerCase mn))
                  monthNames 0%Z in
      let day := parseInt (group 1 mt) in
      let year := parseInt (group 3 mt) in
      let year := if lt100 year then zadd year 2000 else year in
      JsDate.make (LocalTZA h) year (Some month) day
    else if startsWith (lit "20") (m_text mt) || Nat.eqb (List.length (group 1 mt)) 4 then
      JsDate.make (LocalTZA h)
        (parseInt (group 1 mt)) (zadd (parseInt (group 2 mt)) (-1)) (parseInt (group 3 mt))
    else
      JsDate.make (LocalTZA h)
        (zadd (parseInt (group 3 mt)) (if lt100 (parseInt (group 3 mt)) then 2000 else 0))
        (zadd (parseInt (group 1 mt)) (-1)) (parseInt (group 2 mt)) in
  option_map JsDate.isoDate date.

Fixpoint parseDate_loop (h : Host) (patterns : list regex) (text : str) : option str :=
  match patterns with
  | [] => None
  | pattern :: rest =>
      match re_match pattern text with
      | Some mt =>
          match date_of_match h mt with
          | Some d => Some d
          | None => parseDate_loop h rest text
          end
      | None => parseDate_loop h rest text
      end
  end.

Definition parseDate (h : Host) (text : str) : option str :=
  parseDate_loop h date_patterns text.

(** *** extractTotals *)

Definition digit_or_comma (c : char) : bool := isDigit c || oneOf "," c.

(** [/[\d,]+\.\d{2}/] *)
Definition money : regex :=
  Cats [Rep digit_or_comma 1 None; Cls (oneOf "."); Rep isDigit 2 (Some 2)].

(** [parseFloat(a.replace(/,/g, ''))] *)
Definition parseAmount (a : str) : num :=
  parseFloat (filter (fun c => negb (oneOf "," c)) a).

(** [arr[arr.length - 1]] of an array that may be empty. *)
Definition last_of (l : list num) : option num :=
  match rev l with
  | [] => None
  | x :: _ => Some x
  end.

Definition tax_re : regex := Alts [Str "tax"; Str "vat"; Str "gst"].
Definition total_re : regex := Str "total".
Definition sub_re : regex := Str "sub".
Definition grand_re : regex := Alts [Str "grand"; Str "amount"].

(** The variables of the loop: [taxAmount] and [totalsCandidates]. *)
Definition totals_state : Type := option num * list num.

Definition totals_step (st : totals_state) (line : str) : totals_state :=
  let '(taxAmount, totalsCandidates) := st in
  let lineLower := toLowerCase line in
  let parsedAmounts := map parseAmount (match_all money line) in
  if re_test tax_re lineLower then
    match last_of parsedAmounts with
    | Some a => (Some a, totalsCandidates)
    | None => st
    end
  else if re_test total_re lineLower && negb (re_test sub_re lineLower) then
    match last_of parsedAmounts with
    | Some a => (taxAmount, totalsCandidates ++ [a])
    | None => st
    end
  else if re_test grand_re lineLower then
    match last_of parsedAmounts with
    | Some a => (taxAmount, totalsCandidates ++ [a])
    | None => st
    end
  else st.

(** [lines.slice(-15)] *)
Definition bottomLines (lines : list str) : list str :=
  skipn (List.length lines - 15) lines.

(** [Math.max(...arr)] of a non-empty array. *)
Definition Math_max (x : num) (l : list num) : num := fold_left num_max l x.

Record Totals : Type := {
  t_total_amount : option num;
  t_tax_amount : option num
}.

Definition extractTotals (lines : list str) : Totals :=
  let '(taxAmount, totalsCandidates) :=
    fold_left totals_step (bottomLines lines) (None, []) in
  {| t_total_amount :=
       match totalsCandidates with
       | [] => None
       | x :: l => Some (Math_max x l)
       end;
     t_tax_amount := taxAmount |}.

(** *** extractPaymentMethod *)

Definition methods : list str :=
  map lit ["visa"; "mastercard"; "amex"; "rupay"; "upi"; "cash"; "debit";
           "credit"; "card"]%string.

(** [/\*{4,}\d{4}/] *)
Definition card_re : regex := Cat (Rep (oneOf "*") 4 None) (Rep isDigit 4 (Some 4)).

Fixpoint payment_loop (text textLower : str) (ms : list str) : option str :=
  match ms with
  | [] => None
  | method :: rest =>
      if includes method textLower then
        match re_match card_re text with
        | Some cardMatch => Some (toUpperCase method ++ lit " " ++ m_text cardMatch)
        | None => Some (toUpperCase method)
        end
      else payment_loop text textLower rest
  end.

Definition extractPaymentMethod (text : str) : option str :=
  payment_loop text (toLowerCase text) methods.

(** *** inferCurrency *)

(** The table [symbols], in the order of its entries: dollar, euro, pound,
    rupee, yen and peso signs. *)
Definition symbols : list (str * str) :=
  [([36%N], lit "USD"); ([8364%N], lit "EUR"); ([163%N], lit "GBP");
   ([8377%N], lit "INR"); ([165%N], lit "JPY"); ([8369%N], lit "PHP")].

Fixpoint currency_loop (text : str) (l : list (str * str)) : option str :=
  match l with
  | [] => None
  | (symbol, code) :: rest =>
      if includes symbol text then Some code else currency_loop text rest
  end.

Definition inferCurrency (text : str) : option str := currency_loop text symbols.

(** *** parseItems *)

Definition totalsKeywords : list str :=
  map lit ["subtotal"; "total"; "grand"; "tax"; "vat"; "gst"]%string.

Definition isTotalsLine (line : str) : bool :=
  existsb (fun kw => includes kw (toLowerCase line)) totalsKeywords.

(** The index of the first line with a totals keyword, or the number of
    lines. *)
Fixpoint itemsEnd (lines : list str) : nat :=
  match lines with
  | [] => 0
  | line :: rest => if isTotalsLine line then 0 else S (itemsEnd rest)
  end.

(** [/([\d,]+\.\d{2})\s*$/] *)
Definition price_re : regex := Cats [Grp 1 money; Rep isSpace 0 None; Eol].

(** [/\s{2,}/] and [/\s+/] *)
Definition gap_re : regex := Rep isSpace 2 None.
Definition blank_re : regex := Rep isSpace 1 None.

(** The quantity pattern of line 292: group 1 is [\d+\.?\d*], followed by
    [x?], under the [i] flag. *)
Definition qty_re : regex :=
  Cat (Grp 1 (Cats [Rep isDigit 1 None; Opt (Cls (oneOf ".")); Rep isDigit 0 None]))
      (Opt (Cls (ci 120%N))).

(** [/^[\d,]+\.\d{2}$/] *)
Definition amount_re : regex := Cats [Bol; money; Eol].

(** The variables of the inner loop: [qty] and [unitPrice]. *)
Definition part_step (totalPrice : num) (st : num * option num) (part : str)
  : num * option num :=
  let '(qty, unitPrice) := st in
  match re_match qty_re part with
  | Some qtyMatch => (parseFloat (group 1 qtyMatch), unitPrice)
  | None =>
      if re_test amount_re part then
        let val := parseAmount part in
        match unitPrice with
        | None => if negb (num_eqb val totalPrice) then (qty, Some val) else st
        | Some _ => st
        end
      else st
  end.

(** [parts] of a line: its columns, or its words when it has one column. *)
Definition parts_of (line : str) : list str :=
  let parts := re_split gap_re line in
  if List.length parts <? 2 then re_split blank_re line else parts.

(** The body of the outer loop for one line, [n] items being there already:
    the item it pushes, or [None] when the line has no price at its end. *)
Definition item_of_line (n : nat) (line : str) : option LineItem :=
  match re_match price_re line with
  | None => None
  | Some priceMatch =>
      let totalPrice := parseAmount (group 1 priceMatch) in
      let parts := parts_of line in
      let description := match parts with p :: _ => p | [] => [] end in
      let '(qty, unitPrice) :=
        fold_left (part_step totalPrice) (tl parts) (Num 1, None) in
      let unitPrice :=
        match unitPrice with
        | None => if num_gtb qty (Num 0) then Some (num_div totalPrice qty) else None
        | Some _ => unitPrice
        end in
      Some {| description := description;
              quantity := qty;
              unit_price := unitPrice;
              total_price := totalPrice;
              serial_no := n + 1 |}
  end.

Definition items_step (items : list LineItem) (line : str) : list LineItem :=
  match item_of_line (List.length items) line with
  | Some it => items ++ [it]
  | None => items
  end.

Definition parseItems (lines : list str) : list LineItem :=
  fold_left items_step (firstn (itemsEnd lines) lines) [].

(** *** parseReceiptData *)

Definition orElse {A : Type} (x : option A) (d : A) : A :=
  match x with Some v => v | None => d end.

(** [x || d] for a string that may be [null]: the empty string is falsy. *)
Definition orText (x : option str) (d : str) : str :=
  match x with
  | Some ((_ :: _) as v) => v
  | _ => d
  end.

Definition parseReceiptData (h : Host) (ocrText : str) : ParsedReceipt :=
  let lines := normalize ocrText in
  let storeInfo := extractStoreInfo lines in
  let receiptNumber := extractReceiptNumber ocrText in
  let purchaseDate := parseDate h ocrText in
  let totals := extractTotals lines in
  let paymentMethod := extractPaymentMethod ocrText in
  let currency := orText (inferCurrency ocrText) (lit "USD") in
  let items := parseItems lines in
  {| store_name := orText (si_store_name storeInfo) (lit "Unknown Store");
     store_address := si_address storeInfo;
     store_website := si_website storeInfo;
     purchase_date := orText purchaseDate (JsDate.isoDate (clock_date h));
     total_amount := orZero (t_total_amount totals);
     tax_amount := orZero (t_tax_amount totals);
     receipt_number := orText receiptNumber (lit "REC-" ++ str_of_Z (clock_now h));
     payment_method := paymentMethod;
     currency := currency;
     items := items;
     raw_text := ocrText |}.


(** * Vocabulary of the properties

    Predicates on patterns and texts, the declarative readings of the
    extractors that the theorems compare the code with, and the inputs of
    the scenarios. *)

(** ** Patterns *)

(** Every class of the pattern lies within [A]. *)
Fixpoint alphabet (A : char -> Prop) (r : regex) : Prop :=
  match r with
  | Cls p => forall x, p x = true -> A x
  | Rep p _ _ => forall x, p x = true -> A x
  | Cat a b => alphabet A a /\ alphabet A b
  | Alt a b => alphabet A a /\ alphabet A b
  | Opt a => alphabet A a
  | Grp _ a => alphabet A a
  | Eps | Bol | Eol => True
  end.

(** The pattern has no capture group. *)
Fixpoint groupfree (r : regex) : Prop :=
  match r with
  | Grp _ _ => False
  | Cat a b => groupfree a /\ groupfree b
  | Alt a b => groupfree a /\ groupfree b
  | Opt a => groupfree a
  | Cls _ | Rep _ _ _ | Eps | Bol | Eol => True
  end.

(** [r] cannot match without reading a code unit of [P]. *)
Fixpoint needs (P : char -> Prop) (r : regex) : Prop :=
  match r with
  | Cls p => forall x, p x = true -> P x
  | Rep p lo _ => 0 < lo /\ forall x, p x = true -> P x
  | Cat a b => needs P a \/ needs P b
  | Alt a b => needs P a /\ needs P b
  | Grp _ a => needs P a
  | Opt _ | Eps | Bol | Eol => False
  end.

(** The text holds no code unit of [P]. *)
Definition without (P : char -> Prop) (s : str) : Prop := Forall (fun x => ~ P x) s.

(** The continuation fails on every text without [P]. *)
Definition fails (P : char -> Prop) (k : cont) : Prop :=
  forall i s c, without P s -> k i s c = None.

(** The continuation succeeds on every text. *)
Definition total (k : cont) : Prop := forall i s c, k i s c <> None.

(** [x !== null] *)
Definition isSome {A : Type} (x : option A) : bool :=
  match x with Some _ => true | None => false end.

(** A code unit that is not a blank. *)
Definition visible (x : char) : Prop := isSpace x = false.

(** ** Defaults *)

(** What [parseReceiptData] returns when every extractor finds nothing. *)
Definition default_receipt (h : Host) (ocrText : str) : ParsedReceipt :=
  {| store_name := lit "Unknown Store";
     store_address := None;
     store_website := None;
     purchase_date := JsDate.isoDate (clock_date h);
     total_amount := Num 0;
     tax_amount := Num 0;
     receipt_number := lit "REC-" ++ str_of_Z (clock_now h);
     payment_method := None;
     currency := lit "USD";
     items := [];
     raw_text := ocrText |}.

(** ** Numbers *)

(** A number that is not [NaN] and not negative. *)
Definition nonneg (n : num) : Prop := exists q, n = Num q /\ (0 <= q)%Q.

(** [r] matches at every place where the rest of the pattern does. *)
Definition always (r : regex) : Prop := forall k, total k -> total (m r k).

(** The part of the quantity pattern after the first run of digits. *)
Definition qty_tail : regex := Cat (Opt (Cls (oneOf "."))) (Rep isDigit 0 None).
Definition qty_x : regex := Opt (Cls (ci 120%N)).

(** The last element of a list, if any. *)
Definition last_opt {A : Type} (l : list A) : option A :=
  match rev l with
  | [] => None
  | x :: _ => Some x
  end.

(** ** The store's website *)

(** The URL lines among the first ten lines. *)
Definition url_lines (lines : list str) : list str :=
  filter (re_test url_re) (firstn 10 lines).

(** The claim as the specification words it: the first URL line. *)
Definition claimed_website (lines : list str) : option str :=
  hd_error (url_lines lines).

(** Two URL lines. *)
Definition two_urls : str := lit "www.a.com" ++ [10%N] ++ lit "www.b.com".

(** The tail of [receipt_re]: the group that holds the number. *)
Definition receipt_id : regex := Grp 1 (Cat (Cls (icase alnum)) (Rep (icase alnum_dash) 1 None)).

(** ** Totals and tax *)

(** An amount: the canonical form of a fraction that is not negative. *)
Definition amount_val (n : num) : Prop :=
  exists z p, (0 <= z)%Z /\ n = Num (Qred (z # p)).

(** The last money token of a line, as a number. *)
Definition last_money (line : str) : option num :=
  last_opt (map parseAmount (match_all money line)).

(** [line] holds the word [w], whatever the case of its letters. *)
Definition contains (w : string) (line : str) : bool :=
  includes (lit w) (toLowerCase line).

(** A tax line. *)
Definition is_tax_line (line : str) : bool :=
  contains "tax" line || contains "vat" line || contains "gst" line.

(** A totals line in the words of the specification. *)
Definition claimed_total_line (line : str) : bool :=
  (contains "total" line && negb (contains "sub" line))
  || contains "grand" line || contains "amount" line.

(** A totals line of the code: a line with a tax word is a tax line only. *)
Definition is_total_line (line : str) : bool :=
  negb (is_tax_line line) && claimed_total_line line.

(** The candidates of the lines that [sel] selects, in document order: the
    last money token of each such line that has one. *)
Definition candidates (sel : str -> bool) (lines : list str) : list num :=
  flat_map (fun line =>
              if sel line then
                match last_money line with Some a => [a] | None => [] end
              else []) lines.

Definition claimed_totals_candidates : list str -> list num := candidates claimed_total_line.
Definition totals_candidates : list str -> list num := candidates is_total_line.
Definition tax_candidates : list str -> list num := candidates is_tax_line.

(** [total_amount] in the words of the specification: the maximum of the
    candidates of its totals lines, 0 when there is none. *)
Definition claimed_total_amount (lines : list str) : num :=
  match claimed_totals_candidates lines with
  | [] => Num 0
  | x :: l => Math_max x l
  end.

(** [a <= b] for numbers. *)
Definition num_le (a b : num) : Prop :=
  match a, b with
  | Num x, Num y => (x <= y)%Q
  | _, _ => False
  end.

(** A line with "total" and a tax word. *)
Definition tax_total_line : str := lit "Total tax 5.00".

(** The totals scenario of the specification. *)
Definition totals_scenario : str :=
  lit "Subtotal 60.00" ++ [10%N] ++ lit "Tax (10%) 6.00" ++ [10%N] ++ lit "Total 66.00".

(** ** Dates *)

(** A run of [lo] to [hi] digits. *)
Definition digits_run (lo hi : nat) (g : str) : Prop :=
  forallb isDigit g = true /\ lo <= List.length g <= hi.

(** A code unit that a match of the first date pattern can hold. *)
Definition digit_or_sep (x : char) : bool := isDigit x || sep_cls x.

(** A host whose zone is less than a day away from UTC. *)
Definition sane (h : Host) : Prop :=
  forall t, (- JsDate.msPerDay < LocalTZA h t < JsDate.msPerDay)%Z.

(** Local midnight of day [d] of month [mo] (from 0) of year [y], as a UTC
    time value. *)
Definition local_midnight (h : Host) (y mo d : Z) : Z :=
  let t := (JsDate.MakeDay y mo d * JsDate.msPerDay)%Z in (t - LocalTZA h t)%Z.

(** The date scenario of the specification. *)
Definition date_scenario : str := lit "Date: 15/01/2024".

(** The reading of the first pattern in the words of claim C6: with a year
    token of four digits that begins with "20" the middle token is the
    month, otherwise the first token is. *)
Definition claimed_date (h : Host) (mt : match_result) : option str :=
  let a := parseInt (group 1 mt) in
  let b := parseInt (group 2 mt) in
  let y := parseInt (group 3 mt) in
  let y := zadd y (if lt100 y then 2000 else 0) in
  option_map JsDate.isoDate
    (if Nat.eqb (List.length (group 3 mt)) 4 && startsWith (lit "20") (group 3 mt)
     then JsDate.make (LocalTZA h) y (zadd b (-1)) a
     else JsDate.make (LocalTZA h) y (zadd a (-1)) b).

(** Local midnight of 1 March 2025, in milliseconds. *)
Definition march_1_2025 : Z := 1740787200000.

(** The year a year token stands for: a year below 100 is raised by 2000. *)
Definition full_year (y : Z) : Z := if (y <? 100)%Z then (y + 2000)%Z else y.

Definition leap_year (y : Z) : bool :=
  ((y mod 4 =? 0) && (negb (y mod 100 =? 0) || (y mod 400 =? 0)))%Z.

Definition days_in_month (y mo : Z) : Z :=
  if (mo =? 2)%Z then (if leap_year y then 29 else 28)%Z
  else if ((mo =? 4) || (mo =? 6) || (mo =? 9) || (mo =? 11))%Z then 30%Z
  else 31%Z.

(** Day [d] of month [mo] (from 1) of year [y] is a date of the calendar. *)
Definition calendar_date (y mo d : Z) : bool :=
  ((1 <=? mo) && (mo <=? 12) && (1 <=? d) && (d <=? days_in_month y mo))%Z.

(** YYYY-MM-DD of a date of the calendar, for a year from 0 to 9999. *)
Definition iso_text (y mo d : Z) : str :=
  pad 4 (Z.to_N y) ++ lit "-" ++ pad 2 (Z.to_N mo) ++ lit "-" ++ pad 2 (Z.to_N d).

(** A host whose zone is not ahead of UTC, and less than a day behind. *)
Definition not_ahead (h : Host) : Prop :=
  forall t, (- JsDate.msPerDay < LocalTZA h t <= 0)%Z.

(** The check that the day number of a date gives the date back, over the
    dates of a list of years. *)
Definition date_eqb (a b : Z * Z * Z) : bool :=
  let '(y1, m1, d1) := a in
  let '(y2, m2, d2) := b in
  ((y1 =? y2) && (m1 =? m2) && (d1 =? d2))%Z.

Definition date_check (y mo d : Z) : bool :=
  implb (calendar_date y mo d)
        (date_eqb (JsDate.civil_from_days (JsDate.days_from_civil y mo d)) (y, mo, d)).

Definition zrange (lo n : nat) : list Z := map Z.of_nat (seq lo n).

Definition all3 (f : Z -> Z -> Z -> bool) (l1 l2 l3 : list Z) : bool :=
  forallb (fun a => forallb (fun b => forallb (f a b) l3) l2) l1.

(** ** Normalized lines *)

(** The text begins with a code unit that is not a blank. *)
Definition head_visible (s : str) : Prop :=
  match s with
  | x :: _ => isSpace x = false
  | [] => False
  end.

(** A line as [normalize] leaves it: not empty, no blank at either end, no
    line feed. *)
Definition trimmed (line : str) : Prop :=
  head_visible line /\ head_visible (rev line) /\ ~ In 10%N line.

(** ** The store's name and address *)

(** A line the loop of [extractStoreInfo] does not skip: it is not empty and
    does not match the URL pattern. *)
Definition store_keeps (line : str) : bool :=
  negb (Nat.eqb (List.length line) 0) && negb (re_test url_re line).

(** The lines of the first ten that the loop does not skip. *)
Definition store_lines (lines : list str) : list str :=
  filter store_keeps (firstn 10 lines).

(** [upperRatio > 0.5 || hasKeyword] *)
Definition looks_like_name (line : str) : bool :=
  negb (Qle_bool (upperRatio line) (1 # 2)) || hasKeyword line.

(** The lines that follow the first line that looks like a name. *)
Fixpoint after_name (ls : list str) : list str :=
  match ls with
  | [] => []
  | line :: rest => if looks_like_name line then rest else after_name rest
  end.

(** ** Receipt numbers *)

(** An ASCII letter, a digit or a hyphen. *)
Definition id_char (x : char) : bool :=
  isUpper x || isLower x || isDigit x || (x =? 45)%N.

(** ** Payment methods *)

(** The first keyword of [methods], in the order of the list, that the
    lowered text holds. *)
Definition first_method (text : str) : option str :=
  find (fun method => includes method (toLowerCase text)) methods.

(** A masked card number: four asterisks or more, then four digits. *)
Definition masked_card (token : str) : Prop :=
  exists stars ds,
    token = stars ++ ds /\ 4 <= List.length stars /\
    forallb (N.eqb 42) stars = true /\
    List.length ds = 4 /\ forallb isDigit ds = true.

(** ** Items and their lines *)

(** The line ends with a price: [line.match(/([\d,]+\.\d{2})\s*$/)] is not
    [null]. *)
Definition priced (line : str) : bool := isSome (re_match price_re line).

(** The lines before the first one with a totals keyword. *)
Definition items_region (lines : list str) : list str :=
  firstn (itemsEnd lines) lines.

(** A money token: digits and commas, at least one, a point, two digits. *)
Definition money_token (token : str) : Prop :=
  exists w d1 d2,
    token = w ++ [46%N; d1; d2] /\ w <> [] /\ forallb digit_or_comma w = true /\
    isDigit d1 = true /\ isDigit d2 = true.

(** The text before a token ends with no digit and no comma: a token that
    follows it reaches as far back as a run of digits and commas can. *)
Definition cut_before_token (front : str) : Prop :=
  match rev front with
  | x :: _ => digit_or_comma x = false
  | [] => True
  end.

(** What an item owes to the line it comes from: its description is the
    first column of the line, a head of the line that is not empty, and its
    total price is the value of the money token that ends the line, taken
    with all the digits and commas before its point. *)
Definition item_of (it : LineItem) (line : str) : Prop :=
  description it = hd [] (parts_of line) /\
  description it <> [] /\
  (exists rest, line = description it ++ rest) /\
  exists front token,
    line = front ++ token /\ money_token token /\ cut_before_token front /\
    total_price it = parseAmount token.

(** ** Dates with the year first and dates with a month name *)

(** The second group of [date_re3]: the alternatives of the month names. *)
Definition month_re : regex :=
  Alts [StrI "Jan"; StrI "Feb"; StrI "Mar"; StrI "Apr";
        StrI "May"; StrI "Jun"; StrI "Jul"; StrI "Aug";
        StrI "Sep"; StrI "Oct"; StrI "Nov"; StrI "Dec"].

(** The year the [Date] constructor takes for [y]: 0 to 99 stand for 1900
    to 1999. *)
Definition date_year (y : Z) : Z :=
  if ((0 <=? y) && (y <=? 99))%Z then (1900 + y)%Z else y.

(** ** Texts without digits *)

(** A digit. *)
Definition digit (x : char) : Prop := isDigit x = true.

(** ** Keywords before a receipt number *)

(** The words one of which [receipt_re] reads before a number. *)
Definition receiptKeywords : list string :=
  ["receipt"; "invoice"; "bill"; "txn"; "trans"; "order"]%string.

(** An ASCII letter. *)
Definition isLetter (x : char) : bool := isUpper x || isLower x.

(** The code units of [w] match the letters of [l] under the [i] flag. *)
Definition ci_word (l w : str) : Prop := Forall2 (fun a x => ci a x = true) l w.

(** ** The column a quantity is read from *)

(** A blank. *)
Definition blank (x : char) : Prop := isSpace x = true.

(** The quantity [item_of_line] gives to an item of this line: 1 for a line
    of one column, and otherwise the number the quantity pattern finds in
    the last column. *)
Definition quantity_of_line (line : str) (q : num) : Prop :=
  match tl (parts_of line) with
  | [] => q = Num 1
  | (_ :: _) as columns =>
      exists qtyMatch,
        re_match qty_re (last columns []) = Some qtyMatch /\
        q = parseFloat (group 1 qtyMatch)
  end.

(** * Properties *)

(** ** Characters *)

Ltac prop_of_bool :=
  repeat (rewrite ?orb_true_iff, ?andb_true_iff, ?orb_false_iff, ?andb_false_iff,
            ?negb_true_iff, ?negb_false_iff,
            ?N.eqb_eq, ?N.eqb_neq, ?N.leb_le, ?N.leb_gt, ?N.ltb_lt, ?N.ltb_ge in *).

Ltac char_lia :=
  unfold isDigit, isUpper, isLower, isSpace in *; prop_of_bool; lia.

Lemma isDigit_not_space x : isDigit x = true -> isSpace x = false.
Proof. intros H. destruct (isSpace x) eqn:E; [exfalso; char_lia | reflexivity]. Qed.

Lemma upper1_cases x :
  (isLower x = true /\ upper1 x = (x - 32)%N) \/ (isLower x = false /\ upper1 x = x).
Proof. unfold upper1. destruct (isLower x); auto. Qed.

(** A letter under the [i] flag matches its two cases only. *)
Lemma ci_letter c x :
  isLower c = true -> ci c x = true -> x = c \/ x = (c - 32)%N.
Proof.
  unfold ci. intros Hc H. apply N.eqb_eq in H.
  unfold upper1 in H. rewrite Hc in H.
  destruct (isLower x) eqn:E; [left | right]; char_lia.
Qed.

Lemma lower1_space x : isSpace x = true -> lower1 x = [x].
Proof.
  intros H. unfold lower1.
  destruct (isUpper x) eqn:E1; [exfalso; char_lia |].
  destruct (x =? 8490)%N eqn:E2; [exfalso; char_lia |].
  destruct (x =? 304)%N eqn:E3; [exfalso; char_lia | reflexivity].
Qed.

(** ** The matcher *)

Lemma rep_inv p lo hi k i s c r :
  rep p lo hi k i s c = Some r ->
  exists n, lo <= n /\ (forall h, hi = Some h -> n <= h) /\ n <= List.length s /\
            forallb p (firstn n s) = true /\ k (i + n) (skipn n s) c = Some r.
Proof.
  revert lo hi i. induction s as [|x s IH]; intros lo hi i H; simpl in H.
  - destruct (Nat.eqb lo 0) eqn:E; [|discriminate].
    apply Nat.eqb_eq in E. exists 0. rewrite Nat.add_0_r. simpl.
    repeat split; auto; lia.
  - assert (Hstop : (if Nat.eqb lo 0 then k i (x :: s) c else None) = Some r ->
              exists n, lo <= n /\ (forall h, hi = Some h -> n <= h) /\
                n <= List.length (x :: s) /\ forallb p (firstn n (x :: s)) = true /\
                k (i + n) (skipn n (x :: s)) c = Some r).
    { intros H0. destruct (Nat.eqb lo 0) eqn:E; [|discriminate].
      apply Nat.eqb_eq in E. exists 0. rewrite Nat.add_0_r. simpl.
      repeat split; auto; lia. }
    destruct (p x && negb (hi_zero hi)) eqn:Ec; [|auto].
    destruct (rep p (pred lo) (option_map pred hi) k (S i) s c) eqn:Er; [|auto].
    injection H as <-. apply andb_true_iff in Ec. destruct Ec as [Hp Hz].
    apply IH in Er. destruct Er as (n & Hlo & Hhi & Hlen & Hall & Hk).
    exists (S n). simpl. rewrite Hp, Hall. rewrite Nat.add_succ_r.
    repeat split; auto; try lia.
    intros h ->. destruct h as [|h]; [discriminate|].
    specialize (Hhi h eq_refl). lia.
Qed.

Lemma forallb_Forall (p : char -> bool) (A : char -> Prop) l :
  (forall x, p x = true -> A x) -> forallb p l = true -> Forall A l.
Proof.
  intros HA H. rewrite forallb_forall in H. apply Forall_forall. auto.
Qed.

(** A match of [r] followed by [k] reads a word [w] over the alphabet of
    [r] and then calls [k] on what is left, with the captures it was given
    when [r] has no group. *)
Lemma m_sound (A : char -> Prop) r :
  alphabet A r ->
  forall k i s c res, m r k i s c = Some res ->
  exists w s' c', s = w ++ s' /\ Forall A w /\ (groupfree r -> c' = c) /\
                  k (i + List.length w) s' c' = Some res.
Proof.
  induction r as [p| |a IHa b IHb|a IHa b IHb|a IHa|p lo hi|n a IHa| |];
    simpl; intros HA k i s c res H.
  - destruct s as [|x s]; [discriminate|].
    destruct (p x) eqn:E; [|discriminate].
    exists [x], s, c. simpl. rewrite Nat.add_1_r. auto.
  - exists [], s, c. simpl. rewrite Nat.add_0_r. auto.
  - destruct HA as [Ha Hb].
    apply (IHa Ha) in H. destruct H as (w1 & s1 & c1 & -> & F1 & G1 & H).
    apply (IHb Hb) in H. destruct H as (w2 & s2 & c2 & -> & F2 & G2 & H).
    exists (w1 ++ w2), s2, c2. rewrite <- app_assoc, length_app, Nat.add_assoc.
    split; [reflexivity|]. split; [apply Forall_app; auto|].
    split; [|exact H]. intros [Ga Gb]. rewrite G2, G1; auto.
  - destruct HA as [Ha Hb].
    destruct (m a k i s c) eqn:E.
    + injection H as <-. apply (IHa Ha) in E.
      destruct E as (w & s' & c' & -> & F & G & E).
      exists w, s', c'. intuition.
    + apply (IHb Hb) in H. destruct H as (w & s' & c' & -> & F & G & H).
      exists w, s', c'. intuition.
  - destruct (m a (fun i' s' c' => if Nat.eqb i' i then None else k i' s' c') i s c) eqn:E.
    + injection H as <-. apply (IHa HA) in E.
      destruct E as (w & s' & c' & -> & F & G & E).
      destruct (Nat.eqb (i + List.length w) i); [discriminate|].
      exists w, s', c'. auto.
    + exists [], s, c. simpl. rewrite Nat.add_0_r. auto.
  - apply rep_inv in H. destruct H as (n & _ & _ & Hlen & Hall & Hk).
    exists (firstn n s), (skipn n s), c.
    rewrite firstn_skipn. split; [reflexivity|].
    split; [eapply forallb_Forall; eauto|]. split; [reflexivity|].
    rewrite length_firstn, Nat.min_l by lia. exact Hk.
  - apply (IHa HA) in H. destruct H as (w & s' & c' & -> & F & G & H).
    eexists w, s', _. split; [reflexivity|]. split; [exact F|].
    split; [intros []|exact H].
  - destruct (Nat.eqb i 0); [|discriminate].
    exists [], s, c. simpl. rewrite Nat.add_0_r. auto.
  - destruct s; [|discriminate].
    exists [], [], c. simpl. rewrite Nat.add_0_r. auto.
Qed.

Section Fail.

Variable P : char -> Prop.

Lemma rep_fail p lo hi k i s c :
  without P s ->
  (0 < lo /\ (forall x, p x = true -> P x)) \/ fails P k ->
  rep p lo hi k i s c = None.
Proof.
  intros Hs Hk. revert lo hi i Hk.
  induction Hs as [|x s Hx Hs IH]; intros lo hi i Hk; simpl.
  - destruct (Nat.eqb lo 0) eqn:E; [|reflexivity].
    apply Nat.eqb_eq in E. destruct Hk as [[H _]|H]; [lia|].
    apply H. constructor.
  - assert (Hstop : (if Nat.eqb lo 0 then k i (x :: s) c else None) = None).
    { destruct (Nat.eqb lo 0) eqn:E; [|reflexivity].
      apply Nat.eqb_eq in E. destruct Hk as [[H _]|H]; [lia|].
      apply H. constructor; auto. }
    destruct (p x && negb (hi_zero hi)) eqn:Ec; [|exact Hstop].
    destruct Hk as [[_ H]|H].
    + apply andb_true_iff in Ec. destruct Ec as [Hp _]. elim Hx. auto.
    + rewrite IH by auto. exact Hstop.
Qed.

Lemma m_fail r :
  forall k i s c, without P s -> needs P r \/ fails P k -> m r k i s c = None.
Proof.
  induction r as [p| |a IHa b IHb|a IHa b IHb|a IHa|p lo hi|n a IHa| |];
    simpl; intros k i s c Hs Hk.
  - destruct s as [|x s]; [reflexivity|].
    destruct (p x) eqn:E; [|reflexivity].
    apply Forall_cons_iff in Hs. destruct Hs as [Hx Hs].
    destruct Hk as [H|H]; [elim (Hx (H x E)) | apply H; assumption].
  - destruct Hk as [[]|H]. apply H; assumption.
  - destruct Hk as [[H|H]|H].
    + apply IHa; auto.
    + apply IHa; auto. right. intros i' s' c' Hs'. apply IHb; auto.
    + apply IHa; auto. right. intros i' s' c' Hs'. apply IHb; auto.
  - destruct Hk as [[Ha Hb]|H].
    + rewrite IHa by auto. apply IHb; auto.
    + rewrite IHa by auto. apply IHb; auto.
  - destruct Hk as [[]|H].
    rewrite IHa; auto.
    right. intros i' s' c' Hs'. destruct (Nat.eqb i' i); auto.
  - apply rep_fail; auto.
  - apply IHa; auto. destruct Hk as [H|H]; auto.
    right. intros i' s' c' Hs'. apply H; assumption.
  - destruct Hk as [[]|H]. destruct (Nat.eqb i 0); auto.
  - destruct Hk as [[]|H]. destruct s; auto.
Qed.

Lemma search_fail r s :
  needs P r -> without P s -> forall i, search_from r i s = None.
Proof.
  intros Hr Hs. induction Hs as [|x s Hx Hs IH]; intros i; simpl.
  - rewrite m_fail; auto. constructor.
  - rewrite m_fail; auto. constructor; auto.
Qed.

Lemma startsWith_head x p s :
  startsWith (x :: p) s = true -> exists s', s = x :: s'.
Proof.
  destruct s as [|y s]; simpl; [discriminate|].
  intros H. apply andb_true_iff in H. destruct H as [H _].
  apply N.eqb_eq in H. subst. eauto.
Qed.

Lemma includes_fail x p s :
  P x -> without P s -> includes (x :: p) s = false.
Proof.
  intros Hx Hs. induction Hs as [|y s Hy Hs IH].
  - reflexivity.
  - cbn [includes]. rewrite IH, orb_false_r.
    destruct (startsWith (x :: p) (y :: s)) eqn:E; [|reflexivity].
    apply startsWith_head in E. destruct E as [s' E]. injection E as -> _.
    contradiction.
Qed.

End Fail.

(** ** Patterns that always succeed *)

Lemma accept_total : total accept.
Proof. intros i s c. discriminate. Qed.

Lemma rep_total0 p hi k : total k -> total (rep p 0 hi k).
Proof.
  intros Hk i s c. destruct s as [|x s]; simpl.
  - apply Hk.
  - destruct (p x && negb (hi_zero hi)); [|apply Hk].
    destruct (rep p 0 (option_map pred hi) k (S i) s c); [discriminate | apply Hk].
Qed.

Lemma rep_total1 p k x i s c :
  total k -> p x = true -> rep p 1 None k i (x :: s) c <> None.
Proof.
  intros Hk Hp. simpl. rewrite Hp. simpl.
  pose proof (rep_total0 p None k Hk (S i) s c) as H.
  destruct (rep p 0 None k (S i) s c); [discriminate | contradiction].
Qed.

Lemma opt_total a k : total k -> total (m (Opt a) k).
Proof.
  intros Hk i s c. simpl.
  destruct (m a _ i s c); [discriminate | apply Hk].
Qed.

(** ** Literal patterns and [includes] *)

Lemma m_Str l k i s c :
  m (Str_of N.eqb l) k i s c =
  if startsWith l s then k (i + List.length l) (skipn (List.length l) s) c else None.
Proof.
  revert i s. induction l as [|x l IH]; intros i s.
  - simpl. rewrite Nat.add_0_r. reflexivity.
  - destruct l as [|y l].
    + simpl. destruct s as [|z s]; [reflexivity|].
      rewrite N.eqb_sym. destruct (z =? x)%N; simpl.
      * rewrite Nat.add_1_r. reflexivity.
      * reflexivity.
    + change (Str_of N.eqb (x :: y :: l)) with (Cat (Cls (N.eqb x)) (Str_of N.eqb (y :: l))).
      cbn [m]. destruct s as [|z s]; [reflexivity|].
      cbn [startsWith]. destruct (x =? z)%N; cbn [andb]; [|reflexivity].
      rewrite IH. change (List.length (x :: y :: l)) with (S (List.length (y :: l))).
      rewrite Nat.add_succ_r. reflexivity.
Qed.

Lemma test_from_Str l s : forall i,
  isSome (search_from (Str_of N.eqb l) i s) = includes l s.
Proof.
  induction s as [|x s IH]; intros i.
  - simpl. rewrite m_Str. unfold accept.
    destruct (startsWith l []); reflexivity.
  - cbn [search_from includes]. rewrite m_Str. unfold accept.
    destruct (startsWith l (x :: s)); [reflexivity|]. apply IH.
Qed.

Lemma test_from_Alt a b s : forall i,
  isSome (search_from (Alt a b) i s) =
  isSome (search_from a i s) || isSome (search_from b i s).
Proof.
  induction s as [|x s IH]; intros i.
  - simpl. destruct (m a accept i [] []) as [[e c]|]; [reflexivity|].
    destruct (m b accept i [] []) as [[e c]|]; reflexivity.
  - cbn [search_from m].
    destruct (m a accept i (x :: s) []) as [[e c]|]; [reflexivity|].
    destruct (m b accept i (x :: s) []) as [[e c]|].
    + simpl. rewrite orb_true_r. reflexivity.
    + apply IH.
Qed.

Lemma re_test_isSome r s : re_test r s = isSome (search_from r 0 s).
Proof. reflexivity. Qed.

Lemma re_test_Str a s : re_test (Str a) s = includes (lit a) s.
Proof. rewrite re_test_isSome. apply test_from_Str. Qed.

Lemma re_test_Alt a b s : re_test (Alt a b) s = re_test a s || re_test b s.
Proof. rewrite !re_test_isSome. apply test_from_Alt. Qed.

(** ** Blank input *)

Lemma blank_without s : forallb isSpace s = true -> without visible s.
Proof.
  intros H. rewrite forallb_forall in H. apply Forall_forall.
  intros x Hx. unfold visible. rewrite (H x Hx). discriminate.
Qed.

Lemma ci_visible c : isLower c = true -> isSpace c = false ->
  isSpace (c - 32)%N = false -> forall x, ci c x = true -> visible x.
Proof.
  intros Hc H1 H2 x Hx. apply ci_letter in Hx; [|assumption].
  destruct Hx as [-> | ->]; assumption.
Qed.

Lemma isDigit_visible x : isDigit x = true -> visible x.
Proof. apply isDigit_not_space. Qed.

Lemma needs_receipt_re : needs visible receipt_re.
Proof.
  cbn. left. 
  repeat split; left; apply ci_visible; reflexivity.
Qed.

Lemma needs_date_re1 P : (forall x, isDigit x = true -> P x) -> needs P date_re1.
Proof. intros H. cbn. left. split; [lia | exact H]. Qed.

Lemma needs_date_re2 P : (forall x, isDigit x = true -> P x) -> needs P date_re2.
Proof. intros H. cbn. left. split; [lia | exact H]. Qed.

Lemma needs_date_re3 P : (forall x, isDigit x = true -> P x) -> needs P date_re3.
Proof. intros H. cbn. left. split; [lia | exact H]. Qed.

Lemma parseDate_fail P h text :
  (forall x, isDigit x = true -> P x) -> without P text -> parseDate h text = None.
Proof.
  intros HP Hs. unfold parseDate, date_patterns, parseDate_loop, re_match.
  rewrite (search_fail P _ _ (needs_date_re1 P HP) Hs).
  rewrite (search_fail P _ _ (needs_date_re2 P HP) Hs).
  rewrite (search_fail P _ _ (needs_date_re3 P HP) Hs).
  reflexivity.
Qed.

Lemma toLowerCase_blank s : forallb isSpace s = true -> toLowerCase s = s.
Proof.
  induction s as [|x s IH]; simpl; [reflexivity|].
  intros H. apply andb_true_iff in H. destruct H as [Hx Hs].
  rewrite (lower1_space x Hx), IH by assumption. reflexivity.
Qed.

Lemma dropWhile_all f s : forallb f s = true -> dropWhile f s = [].
Proof.
  induction s as [|x s IH]; simpl; [reflexivity|].
  intros H. apply andb_true_iff in H. destruct H as [Hx Hs].
  rewrite Hx. auto.
Qed.

Lemma trim_blank s : forallb isSpace s = true -> trim s = [].
Proof. intros H. unfold trim. rewrite (dropWhile_all _ _ H). reflexivity. Qed.

Lemma forallb_rev (f : char -> bool) s : forallb f (rev s) = forallb f s.
Proof.
  induction s as [|x s IH]; simpl; [reflexivity|].
  rewrite forallb_app, IH. simpl. rewrite andb_true_r. apply andb_comm.
Qed.

Lemma split_char_blank sep s : forall cur,
  forallb isSpace s = true -> forallb isSpace cur = true ->
  Forall (fun piece => forallb isSpace piece = true) (split_char sep s cur).
Proof.
  induction s as [|x s IH]; simpl; intros cur Hs Hc.
  - constructor; [|constructor]. rewrite forallb_rev. exact Hc.
  - apply andb_true_iff in Hs. destruct Hs as [Hx Hs].
    destruct (x =? sep)%N.
    + constructor; [rewrite forallb_rev; exact Hc | apply IH; auto].
    + apply IH; auto. simpl. rewrite Hx, Hc. reflexivity.
Qed.

Lemma normalize_blank text : forallb isSpace text = true -> normalize text = [].
Proof.
  intros H. unfold normalize.
  pose proof (split_char_blank 10%N text [] H eq_refl) as F.
  induction F as [|piece l Hp F IH]; simpl; [reflexivity|].
  rewrite (trim_blank _ Hp). simpl. exact IH.
Qed.

Lemma extractReceiptNumber_blank text :
  forallb isSpace text = true -> extractReceiptNumber text = None.
Proof.
  intros H. unfold extractReceiptNumber, re_match.
  rewrite (search_fail visible receipt_re text needs_receipt_re (blank_without _ H)). reflexivity.
Qed.

Lemma extractPaymentMethod_blank text :
  forallb isSpace text = true -> extractPaymentMethod text = None.
Proof.
  intros H. unfold extractPaymentMethod. rewrite (toLowerCase_blank _ H).
  pose proof (blank_without _ H) as W.
  unfold methods. cbn [map payment_loop lit list_ascii_of_string].
  repeat (rewrite (includes_fail visible) by (exact W || reflexivity)).
  reflexivity.
Qed.

Lemma inferCurrency_blank text :
  forallb isSpace text = true -> inferCurrency text = None.
Proof.
  intros H. pose proof (blank_without _ H) as W.
  unfold inferCurrency, symbols. cbn [currency_loop].
  repeat (rewrite (includes_fail visible) by (exact W || reflexivity)).
  reflexivity.
Qed.

Lemma orText_nonempty x d : d <> [] -> orText x d <> [].
Proof. intros H. destruct x as [[|y v]|]; simpl; auto. discriminate. Qed.

Lemma isoDate_nonempty t : JsDate.isoDate t <> [].
Proof.
  unfold JsDate.isoDate. destruct (JsDate.civil_from_days _) as [[y mo] d].
  intros H. apply (f_equal (@List.length _)) in H.
  rewrite !length_app in H. simpl in H. lia.
Qed.

(** C1: [parseReceiptData] is a total function of the text (no step of it can
    fail), its result keeps the input as [raw_text] and has a non-empty
    [store_name], [purchase_date], [receipt_number] and [currency]; on the
    empty string and on a text of blanks only it returns the defaults:
    "Unknown Store", the date of the clock, 0 for both amounts, "REC-" and
    the clock, "USD", no items, and nothing for the optional fields. *)
Theorem parseReceiptData_defaults (h : Host) (ocrText : str) :
  let r := parseReceiptData h ocrText in
  raw_text r = ocrText /\
  store_name r <> [] /\ purchase_date r <> [] /\
  receipt_number r <> [] /\ currency r <> [] /\
  (forallb isSpace ocrText = true -> r = default_receipt h ocrText).
Proof.
  cbn zeta. split; [reflexivity|].
  split; [apply orText_nonempty; discriminate|].
  split; [apply orText_nonempty, isoDate_nonempty|].
  split; [apply orText_nonempty; discriminate|].
  split; [apply orText_nonempty; discriminate|].
  intros H. unfold parseReceiptData, default_receipt.
  rewrite (normalize_blank _ H), (extractReceiptNumber_blank _ H),
    (extractPaymentMethod_blank _ H), (inferCurrency_blank _ H),
    (parseDate_fail visible h ocrText isDigit_visible (blank_without _ H)).
  reflexivity.
Qed.

(** The defaults on a text of two spaces. *)
Lemma parseReceiptData_defaults_witness :
  forallb isSpace (lit "  ") = true /\
  parseReceiptData (utc_host 0) (lit "  ") = default_receipt (utc_host 0) (lit "  ").
Proof.
  split; [reflexivity|].
  apply (proj2 (proj2 (proj2 (proj2 (proj2
           (parseReceiptData_defaults (utc_host 0) (lit "  "))))))).
  reflexivity.
Defined.

(** ** Line items *)

Lemma items_step_serial items line :
  map serial_no items = seq 1 (List.length items) ->
  map serial_no (items_step items line)
  = seq 1 (List.length (items_step items line)).
Proof.
  intros H. unfold items_step, item_of_line.
  destruct (re_match price_re line) as [priceMatch|]; [|exact H].
  destruct (fold_left _ _ _) as [qty unitPrice].
  rewrite map_app, length_app, H. simpl.
  rewrite seq_app. simpl. rewrite Nat.add_1_r. reflexivity.
Qed.

Lemma fold_items_serial lines : forall items,
  map serial_no items = seq 1 (List.length items) ->
  map serial_no (fold_left items_step lines items)
  = seq 1 (List.length (fold_left items_step lines items)).
Proof.
  induction lines as [|line lines IH]; intros items H; simpl; [exact H|].
  apply IH, items_step_serial, H.
Qed.

(** C7: the [serial_no] fields of the items [parseReceiptData] emits are
    1, 2, ..., N in emission order, N being the number of items. *)
Theorem serial_no_dense (h : Host) (ocrText : str) :
  map serial_no (items (parseReceiptData h ocrText))
  = seq 1 (List.length (items (parseReceiptData h ocrText))).
Proof.
  unfold parseReceiptData, parseItems. cbn [items].
  apply fold_items_serial. reflexivity.
Qed.

(** C4: on the input "ITEM 2  2x    50.00" the code emits one item whose
    quantity is 50 and whose unit price is 1, where the claim has 2 and 25:
    the last column, "50.00", matches the quantity pattern too and
    overwrites the quantity 2 read from "2x". *)
Theorem item_scenario_quantity (h : Host) :
  items (parseReceiptData h (lit "ITEM 2  2x    50.00"))
  = [{| description := lit "ITEM 2";
        quantity := Num 50;
        unit_price := Some (Num 1);
        total_price := Num 50;
        serial_no := 1 |}].
Proof. vm_compute. reflexivity. Qed.

(** ** Numbers read by [parseFloat] *)

Lemma Qred_nonneg (z : Z) (p : positive) : (0 <= z)%Z -> (0 <= Qred (z # p))%Q.
Proof.
  intros H. rewrite Qred_correct. unfold Qle. simpl. lia.
Qed.

Lemma dropWhile_head f x s : f x = false -> dropWhile f (x :: s) = x :: s.
Proof. intros H. simpl. rewrite H. reflexivity. Qed.

Lemma parseFloat_digit d s : isDigit d = true -> nonneg (parseFloat (d :: s)).
Proof.
  intros Hd. unfold parseFloat.
  rewrite (dropWhile_head isSpace d s (isDigit_not_space d Hd)).
  unfold sign_of.
  destruct (d =? 45)%N eqn:E1; [exfalso; char_lia|].
  destruct (d =? 43)%N eqn:E2; [exfalso; char_lia|].
  cbn [takeWhile]. rewrite Hd. cbn [app].
  eexists. split; [reflexivity|]. apply Qred_nonneg. lia.
Qed.

(** ** Where a search matches *)

Lemma search_from_inv r s : forall i mt,
  search_from r i s = Some mt ->
  exists s1 s2 e c,
    s = s1 ++ s2 /\ m r accept (i + List.length s1) s2 [] = Some (e, c) /\
    mt = MatchResult (i + List.length s1) (firstn (e - (i + List.length s1)) s2) c.
Proof.
  induction s as [|x s IH]; intros i mt H; cbn [search_from] in H.
  - destruct (m r accept i [] []) as [[e c]|] eqn:E; [|discriminate].
    injection H as <-. exists [], [], e, c. simpl. rewrite Nat.add_0_r. auto.
  - destruct (m r accept i (x :: s) []) as [[e c]|] eqn:E.
    + injection H as <-. exists [], (x :: s), e, c. simpl. rewrite Nat.add_0_r. auto.
    + apply IH in H. destruct H as (s1 & s2 & e & c & -> & Hm & ->).
      exists (x :: s1), s2, e, c. simpl. rewrite Nat.add_succ_r. auto.
Qed.

(** ** The quantity pattern *)

Lemma always_Opt a : always (Opt a).
Proof. intros k Hk. apply opt_total, Hk. Qed.

Lemma always_Rep0 p hi : always (Rep p 0 hi).
Proof. intros k Hk. apply rep_total0, Hk. Qed.

Lemma always_Cat a b : always a -> always b -> always (Cat a b).
Proof. intros Ha Hb k Hk i s c. simpl. apply Ha. intros i' s' c'. apply Hb, Hk. Qed.

Lemma qty_re_unfold i s :
  m qty_re accept i s [] =
  rep isDigit 1 None
    (fun i1 s1 c1 =>
       m qty_tail
         (fun i2 s2 c2 => m qty_x accept i2 s2 ((1, firstn (i2 - i) s) :: c2))
         i1 s1 c1)
    i s [].
Proof. reflexivity. Qed.

Lemma qty_at_digit x s i :
  isDigit x = true -> m qty_re accept i (x :: s) [] <> None.
Proof.
  intros Hx. rewrite qty_re_unfold. apply rep_total1; [|exact Hx].
  intros i1 s1 c1. apply always_Cat; [apply always_Opt | apply always_Rep0 |].
  intros i2 s2 c2. apply always_Opt, accept_total.
Qed.

Lemma qty_search s : forall i,
  existsb isDigit s = true -> search_from qty_re i s <> None.
Proof.
  induction s as [|x s IH]; intros i H; [discriminate|].
  cbn [search_from].
  destruct (m qty_re accept i (x :: s) []) as [[e c]|] eqn:E; [discriminate|].
  apply IH. simpl in H. destruct (isDigit x) eqn:Ex; [|exact H].
  elim (qty_at_digit x s i Ex E).
Qed.

(** The distinct-unit-price branch of [part_step] is dead: a part the
    quantity pattern does not match holds no digit, and is no amount. *)
Lemma amount_needs_qty part :
  re_match qty_re part = None -> re_test amount_re part = false.
Proof.
  intros H. unfold re_test, re_match in *.
  destruct (existsb isDigit part) eqn:E.
  - elim (qty_search part 0 E H).
  - rewrite (search_fail (fun x => isDigit x = true) amount_re part); [reflexivity| |].
    + cbn. right. left. right. right. split; [lia | auto].
    + apply Forall_forall. intros x Hx Hd.
      assert (existsb isDigit part = true) by (apply existsb_exists; eauto).
      congruence.
Qed.

Lemma qty_group s i mt :
  search_from qty_re i s = Some mt ->
  exists d rest, group 1 mt = d :: rest /\ isDigit d = true.
Proof.
  intros H. apply search_from_inv in H.
  destruct H as (s1 & s2 & e & c & _ & Hm & ->).
  set (j := i + List.length s1) in *. clearbody j.
  rewrite qty_re_unfold in Hm. apply rep_inv in Hm.
  destruct Hm as (n & Hn & _ & Hlen & Hall & Hk).
  apply (m_sound (fun _ => True)) in Hk; [|cbn; auto].
  destruct Hk as (w & s' & c' & Hs & _ & Hc & Hk).
  rewrite Hc in Hk by (cbn; auto).
  apply (m_sound (fun _ => True)) in Hk; [|cbn; auto].
  destruct Hk as (w2 & s'' & c'' & _ & _ & Hc2 & Hk).
  rewrite Hc2 in Hk by (cbn; auto). unfold accept in Hk. injection Hk as <- <-.
  unfold group. cbn [m_caps getcap Nat.eqb].
  replace (j + n + List.length w - j) with (S (pred n + List.length w)) by lia.
  destruct s2 as [|d s2]; [simpl in Hlen; lia|].
  exists d, (firstn (pred n + List.length w) s2). split; [reflexivity|].
  destruct n as [|n]; [lia|]. simpl in Hall.
  apply andb_true_iff in Hall. tauto.
Qed.

(** ** What [item_of_line] emits *)

Lemma part_step_spec totalPrice qty part :
  nonneg qty ->
  exists qty', part_step totalPrice (qty, None) part = (qty', None) /\ nonneg qty'.
Proof.
  intros Hq. unfold part_step.
  destruct (re_match qty_re part) as [mt|] eqn:E.
  - eexists. split; [reflexivity|].
    apply qty_group in E. destruct E as (d & rest & -> & Hd).
    apply parseFloat_digit, Hd.
  - rewrite (amount_needs_qty part E). eauto.
Qed.

Lemma fold_part_step totalPrice parts : forall qty,
  nonneg qty ->
  exists qty', fold_left (part_step totalPrice) parts (qty, None) = (qty', None)
               /\ nonneg qty'.
Proof.
  induction parts as [|part parts IH]; intros qty Hq; cbn [fold_left]; [eauto|].
  destruct (part_step_spec totalPrice qty part Hq) as (qty' & -> & Hq').
  apply IH, Hq'.
Qed.

Lemma nonneg_one : nonneg (Num 1).
Proof. exists 1%Q. split; [reflexivity | discriminate]. Qed.

Lemma item_of_line_unit_price n line it :
  item_of_line n line = Some it ->
  nonneg (quantity it) /\
  unit_price it =
    if num_gtb (quantity it) (Num 0)
    then Some (num_div (total_price it) (quantity it)) else None.
Proof.
  unfold item_of_line. destruct (re_match price_re line) as [pm|]; [|discriminate].
  destruct (fold_part_step (parseAmount (group 1 pm)) (tl (parts_of line)) (Num 1) nonneg_one)
    as (qty & -> & Hq).
  intros H. injection H as <-. cbn [quantity unit_price total_price]. auto.
Qed.

Lemma fold_items_In lines : forall items it,
  In it (fold_left items_step lines items) ->
  In it items \/ exists n line, item_of_line n line = Some it.
Proof.
  induction lines as [|line lines IH]; intros items it H; simpl in H; [auto|].
  apply IH in H. destruct H as [H|H]; [|auto].
  unfold items_step in H.
  destruct (item_of_line (List.length items) line) as [it'|] eqn:E; [|auto].
  apply in_app_or in H. destruct H as [H|[<-|[]]]; eauto.
Qed.

(** C10: no part of a line reaches the branch that reads a unit price from a
    money token (a part the quantity pattern rejects is no amount), so every
    emitted item has a quantity [q] that is a number, not negative, and its
    [unit_price] is [total_price / q] when [q] is not zero and [null] when
    [q] is zero. *)
Theorem unit_price_derived :
  (forall part, re_match qty_re part = None -> re_test amount_re part = false) /\
  (forall h ocrText it,
     In it (items (parseReceiptData h ocrText)) ->
     exists q, quantity it = Num q /\
       (~ (q == 0)%Q -> unit_price it = Some (num_div (total_price it) (Num q))) /\
       ((q == 0)%Q -> unit_price it = None)).
Proof.
  split; [exact amount_needs_qty|].
  intros h ocrText it H. unfold parseReceiptData, parseItems in H. cbn [items] in H.
  apply fold_items_In in H. destruct H as [[]|(n & line & H)].
  apply item_of_line_unit_price in H. destruct H as [(q & Hq & Hpos) Hu].
  exists q. split; [exact Hq|]. rewrite Hq in Hu. cbn [num_gtb] in Hu.
  split; intros Hz.
  - destruct (Qle_bool q 0) eqn:E; [|exact Hu].
    apply Qle_bool_iff in E. elim Hz. apply Qle_antisym; assumption.
  - destruct (Qle_bool q 0) eqn:E; [exact Hu|].
    assert (Qle_bool q 0 = true) by (apply Qle_bool_iff; rewrite Hz; apply Qle_refl).
    congruence.
Qed.

(** The word "each" is no amount, and the item of "ITEM 2  2x    50.00"
    has its unit price from its quantity. *)
Lemma unit_price_derived_witness :
  re_test amount_re (lit "each") = false /\
  exists q,
    Num 50 = Num q /\
    (~ (q == 0)%Q ->
     Some (Num 1) = Some (num_div (Num 50) (Num q))) /\
    ((q == 0)%Q -> Some (Num 1) = None).
Proof.
  split.
  - apply (proj1 unit_price_derived). reflexivity.
  - apply (proj2 unit_price_derived (utc_host 0) (lit "ITEM 2  2x    50.00")
             {| description := lit "ITEM 2"; quantity := Num 50;
                unit_price := Some (Num 1); total_price := Num 50;
                serial_no := 1 |}).
    vm_compute. left. reflexivity.
Defined.

(** ** The store's website *)

Lemma last_opt_app {A : Type} (l : list A) (x : A) : last_opt (l ++ [x]) = Some x.
Proof. unfold last_opt. rewrite rev_app_distr. reflexivity. Qed.

Lemma last_opt_cons {A : Type} (x : A) (l : list A) :
  last_opt (x :: l) = match last_opt l with Some y => Some y | None => Some x end.
Proof.
  unfold last_opt. simpl. destruct (rev l) as [|y r]; reflexivity.
Qed.

Lemma fold_store_website l : forall sn ap w,
  snd (fold_left store_step l (sn, ap, w))
  = match last_opt (filter (re_test url_re) l) with
    | Some x => Some x
    | None => w
    end.
Proof.
  induction l as [|line l IH]; intros sn ap w; [reflexivity|].
  cbn [fold_left filter]. unfold store_step at 2.
  destruct line as [|x line].
  - change (re_test url_re []) with false. cbv iota. apply IH.
  - destruct (re_test url_re (x :: line)) eqn:E.
    + rewrite IH, last_opt_cons. destruct (last_opt _); reflexivity.
    + destruct ((negb (Qle_bool (upperRatio (x :: line)) (1 # 2)) || hasKeyword (x :: line))
                && match sn with None => true | Some _ => false end);
        [apply IH|].
      destruct (match sn with Some _ => true | None => false end && (List.length ap <? 3));
        apply IH.
Qed.

(** C9, as stated, fails: of two URL lines the parser keeps the second. *)
Lemma store_website_not_first :
  url_lines (normalize two_urls) = [lit "www.a.com"; lit "www.b.com"] /\
  store_website (parseReceiptData (utc_host 0) two_urls) = Some (lit "www.b.com") /\
  store_website (parseReceiptData (utc_host 0) two_urls)
  <> claimed_website (normalize two_urls).
Proof.
  split; [vm_compute; reflexivity|].
  split; [vm_compute; reflexivity|].
  vm_compute. discriminate.
Qed.

(** C9, amended: [store_website] is the last line among the first ten
    normalized lines that matches the URL pattern, and [null] when there is
    none. *)
Theorem store_website_last (h : Host) (ocrText : str) :
  store_website (parseReceiptData h ocrText)
  = last_opt (url_lines (normalize ocrText)).
Proof.
  unfold parseReceiptData. cbn [store_website]. unfold extractStoreInfo, url_lines.
  pose proof (fold_store_website (firstn 10 (normalize ocrText)) None [] None) as H.
  destruct (fold_left store_step _ _) as [[sn ap] w]. cbn [si_website].
  simpl in H. rewrite H. destruct (last_opt _); reflexivity.
Qed.

(** ** Dependence on the clock *)

Lemma make_ext tza1 tza2 y mo d :
  (forall t, tza1 t = tza2 t) -> JsDate.make tza1 y mo d = JsDate.make tza2 y mo d.
Proof.
  intros H. unfold JsDate.make. destruct y, mo, d; try reflexivity.
  rewrite H. reflexivity.
Qed.

Lemma date_of_match_ext h1 h2 mt :
  (forall t, LocalTZA h1 t = LocalTZA h2 t) ->
  date_of_match h1 mt = date_of_match h2 mt.
Proof.
  intros H. unfold date_of_match.
  rewrite !(make_ext (LocalTZA h1) (LocalTZA h2)) by exact H. reflexivity.
Qed.

Lemma parseDate_ext h1 h2 text :
  (forall t, LocalTZA h1 t = LocalTZA h2 t) -> parseDate h1 text = parseDate h2 text.
Proof.
  intros H. unfold parseDate. induction date_patterns as [|p ps IH]; simpl; [reflexivity|].
  destruct (re_match p text) as [mt|]; [|exact IH].
  rewrite (date_of_match_ext h1 h2 mt H), IH. reflexivity.
Qed.

Lemma parseDate_nonempty h text d : parseDate h text = Some d -> d <> [].
Proof.
  unfold parseDate. induction date_patterns as [|p ps IH]; simpl; [discriminate|].
  destruct (re_match p text) as [mt|]; [|exact IH].
  destruct (date_of_match h mt) as [d'|] eqn:E; [|exact IH].
  intros H. injection H as <-. unfold date_of_match in E.
  destruct (if _ : bool then _ else _) as [t|]; [|discriminate].
  injection E as <-. apply isoDate_nonempty.
Qed.

Lemma m_Cat_sound a b k i s c res :
  groupfree a -> m (Cat a b) k i s c = Some res ->
  exists w s', s = w ++ s' /\ m b k (i + List.length w) s' c = Some res.
Proof.
  intros G H. cbn [m] in H.
  apply (m_sound (fun _ => True)) in H.
  - destruct H as (w & s' & c' & -> & _ & Hc & H). rewrite (Hc G) in H. eauto.
  - clear. induction a; cbn; auto.
Qed.

Lemma receipt_id_group j s res :
  m receipt_id accept j s [] = Some res ->
  exists x rest, getcap 1 (snd res) = Some (x :: rest).
Proof.
  cbn [receipt_id m]. destruct s as [|x s]; [discriminate|].
  destruct (icase alnum x); [|discriminate].
  intros H. apply rep_inv in H. destruct H as (n & _ & _ & _ & _ & H).
  cbv beta in H. replace (S j + n - j) with (S n) in H by lia.
  injection H as <-. simpl. eauto.
Qed.

Lemma extractReceiptNumber_nonempty text n :
  extractReceiptNumber text = Some n -> n <> [].
Proof.
  unfold extractReceiptNumber, re_match.
  destruct (search_from receipt_re 0 text) as [mt|] eqn:E; [|discriminate].
  intros H. injection H as <-.
  apply search_from_inv in E. destruct E as (s1 & s2 & e & c & _ & Hm & ->).
  unfold receipt_re in Hm. cbn [Cats] in Hm.
  do 6 (apply m_Cat_sound in Hm; [|cbn; tauto]; destruct Hm as (? & ? & _ & Hm)).
  apply receipt_id_group in Hm. destruct Hm as (y & rest & Hm).
  unfold group. cbn [m_caps]. simpl in Hm. rewrite Hm. discriminate.
Qed.

(** C5, as stated, fails: the two calls read the clock, and a call made one
    millisecond later returns another [receipt_number], a call made one day
    later another [purchase_date]. *)
Lemma parse_depends_on_clock :
  parseReceiptData (utc_host 0) [] <> parseReceiptData (utc_host 1) [] /\
  purchase_date (parseReceiptData (utc_host 0) [])
  <> purchase_date (parseReceiptData (utc_host 86400000) []).
Proof. split; vm_compute; discriminate. Qed.

(** C5, amended: two calls on the same text in the same time zone agree on
    every field other than [purchase_date] and [receipt_number] whatever the
    clock reads; they agree on [purchase_date] when the text holds a date or
    the clock reads the same at [new Date()], and on [receipt_number] when
    the text holds a number or the clock reads the same at [Date.now()]. *)
Theorem parse_pure_up_to_clock (h1 h2 : Host) (ocrText : str) :
  (forall t, LocalTZA h1 t = LocalTZA h2 t) ->
  let r1 := parseReceiptData h1 ocrText in
  let r2 := parseReceiptData h2 ocrText in
  store_name r1 = store_name r2 /\ store_address r1 = store_address r2 /\
  store_website r1 = store_website r2 /\ total_amount r1 = total_amount r2 /\
  tax_amount r1 = tax_amount r2 /\ payment_method r1 = payment_method r2 /\
  currency r1 = currency r2 /\ items r1 = items r2 /\ raw_text r1 = raw_text r2 /\
  (parseDate h1 ocrText <> None \/ clock_date h1 = clock_date h2 ->
   purchase_date r1 = purchase_date r2) /\
  (extractReceiptNumber ocrText <> None \/ clock_now h1 = clock_now h2 ->
   receipt_number r1 = receipt_number r2).
Proof.
  intros Htz. cbn zeta. unfold parseReceiptData.
  cbn [store_name store_address store_website total_amount tax_amount
       payment_method currency items raw_text purchase_date receipt_number].
  repeat (split; [reflexivity|]).
  rewrite (parseDate_ext h1 h2 ocrText Htz). split.
  - intros [H|H]; [|rewrite H; reflexivity].
    destruct (parseDate h2 ocrText) as [d|] eqn:E; [|congruence].
    apply parseDate_nonempty in E. destruct d; [congruence | reflexivity].
  - intros [H|H]; [|rewrite H; reflexivity].
    destruct (extractReceiptNumber ocrText) as [n|] eqn:E; [|congruence].
    apply extractReceiptNumber_nonempty in E. destruct n; [congruence | reflexivity].
Qed.

(** A receipt number found in the text does not change with the clock. *)
Lemma parse_pure_up_to_clock_witness :
  receipt_number (parseReceiptData (utc_host 0) (lit "Invoice #A17"))
  = receipt_number (parseReceiptData (utc_host 1) (lit "Invoice #A17")).
Proof.
  apply (parse_pure_up_to_clock (utc_host 0) (utc_host 1) (lit "Invoice #A17")
           (fun t => eq_refl)).
  left. vm_compute. discriminate.
Defined.

(** ** Money tokens *)

Lemma match_all_In r tok s : forall i skip,
  In tok (match_all_from r i s skip) ->
  exists j s2 e c, m r accept j s2 [] = Some (e, c) /\ tok = firstn (e - j) s2.
Proof.
  induction s as [|x s IH]; intros i skip H; cbn [match_all_from] in H.
  - destruct (m r accept i [] []) as [[e c]|] eqn:E; [|destruct H].
    destruct H as [<-|[]]. exists i, [], e, c. split; [exact E|].
    rewrite firstn_nil. reflexivity.
  - destruct skip as [|n]; [|eauto].
    destruct (m r accept i (x :: s) []) as [[e c]|] eqn:E; [|eauto].
    destruct H as [<-|H]; [|eauto].
    exists i, (x :: s), e, c. auto.
Qed.

Lemma oneOf_dot x : oneOf "." x = true -> x = 46%N.
Proof.
  unfold oneOf. simpl. rewrite orb_false_r. intros H. apply N.eqb_eq in H. exact H.
Qed.

Lemma firstn_all2 (s : str) n :
  2 <= n -> n <= 2 -> n <= List.length s ->
  exists d1 d2 s3, s = d1 :: d2 :: s3 /\ firstn n s = [d1; d2].
Proof.
  intros H1 H2 H3. assert (n = 2) by lia. subst n.
  destruct s as [|d1 [|d2 s3]]; simpl in H3; try lia. eauto.
Qed.

(** A match of the money pattern: digits and commas, a point, two digits. *)
Lemma money_shape i s e c :
  m money accept i s [] = Some (e, c) ->
  exists w d1 d2,
    firstn (e - i) s = w ++ [46%N; d1; d2] /\
    forallb digit_or_comma w = true /\ isDigit d1 = true /\ isDigit d2 = true.
Proof.
  unfold money. cbn [Cats m]. intros H.
  apply rep_inv in H. destruct H as (n1 & _ & _ & Hl1 & Hall1 & H).
  destruct (skipn n1 s) as [|x s2] eqn:Es; [discriminate|].
  destruct (oneOf "." x) eqn:Ex; [|discriminate]. apply oneOf_dot in Ex. subst x.
  apply rep_inv in H. destruct H as (n2 & Hlo & Hhi & Hl2 & Hall2 & H).
  specialize (Hhi 2 eq_refl).
  destruct (firstn_all2 s2 n2 Hlo Hhi Hl2) as (d1 & d2 & s3 & -> & Hf).
  rewrite Hf in Hall2. simpl in Hall2. rewrite andb_true_r in Hall2.
  apply andb_true_iff in Hall2. destruct Hall2 as [Hd1 Hd2].
  unfold accept in H. injection H as <- <-.
  exists (firstn n1 s), d1, d2. split; [|auto].
  assert (Hs : s = firstn n1 s ++ 46%N :: d1 :: d2 :: s3)
    by (pose proof (firstn_skipn n1 s) as Hx; rewrite Es in Hx; symmetry; exact Hx).
  assert (Hw : List.length (firstn n1 s) = n1) by (rewrite length_firstn; lia).
  simpl in Hl2. remember (firstn n1 s) as w eqn:Ew. clear Ew. rewrite Hs.
  replace (S (i + n1 + n2) - i) with (List.length w + 3) by lia.
  rewrite firstn_app_2. reflexivity.
Qed.

Lemma amount_val_nonneg n : amount_val n -> nonneg n.
Proof.
  intros (z & p & Hz & ->). eexists. split; [reflexivity|]. apply Qred_nonneg, Hz.
Qed.

Lemma digit_or_comma_cases x :
  digit_or_comma x = true -> isDigit x = true \/ x = 44%N.
Proof.
  unfold digit_or_comma, oneOf. simpl. rewrite orb_false_r.
  intros H. apply orb_true_iff in H. destruct H as [H|H]; [auto|].
  apply N.eqb_eq in H. auto.
Qed.

Lemma no_comma_digit x : isDigit x = true -> negb (oneOf "," x) = true.
Proof.
  intros H. unfold oneOf. simpl. rewrite orb_false_r.
  destruct (x =? 44)%N eqn:E; [exfalso; char_lia | reflexivity].
Qed.

Lemma filter_digits w :
  forallb digit_or_comma w = true ->
  forallb isDigit (filter (fun c => negb (oneOf "," c)) w) = true.
Proof.
  induction w as [|x w IH]; simpl; [reflexivity|].
  intros H. apply andb_true_iff in H. destruct H as [Hx Hw].
  destruct (digit_or_comma_cases x Hx) as [Hd| ->].
  - rewrite (no_comma_digit x Hd). simpl. rewrite Hd. auto.
  - simpl. auto.
Qed.

Lemma takeWhile_digits ds x rest :
  forallb isDigit ds = true -> isDigit x = false ->
  takeWhile isDigit (ds ++ x :: rest) = ds /\
  dropWhile isDigit (ds ++ x :: rest) = x :: rest.
Proof.
  intros H Hx. induction ds as [|d ds IH]; simpl.
  - rewrite Hx. auto.
  - simpl in H. apply andb_true_iff in H. destruct H as [Hd Hds].
    rewrite Hd. destruct (IH Hds) as [-> ->]. auto.
Qed.

Lemma parseFloat_decimal ds d1 d2 :
  forallb isDigit ds = true -> isDigit d1 = true -> isDigit d2 = true ->
  amount_val (parseFloat (ds ++ [46%N; d1; d2])).
Proof.
  intros Hds H1 H2. unfold parseFloat.
  assert (Hsp : dropWhile isSpace (ds ++ [46%N; d1; d2]) = ds ++ [46%N; d1; d2]).
  { destruct ds as [|d ds]; [reflexivity|]. simpl in Hds.
    apply andb_true_iff in Hds. destruct Hds as [Hd _].
    apply dropWhile_head, isDigit_not_space, Hd. }
  rewrite Hsp.
  assert (Hsg : sign_of (ds ++ [46%N; d1; d2]) = (false, ds ++ [46%N; d1; d2])).
  { destruct ds as [|d ds]; [reflexivity|]. simpl in Hds.
    apply andb_true_iff in Hds. destruct Hds as [Hd _]. cbn [app sign_of].
    destruct (d =? 45)%N eqn:E1; [exfalso; char_lia|].
    destruct (d =? 43)%N eqn:E2; [exfalso; char_lia|]. reflexivity. }
  rewrite Hsg. cbv beta iota zeta.
  destruct (takeWhile_digits ds 46%N [d1; d2] Hds eq_refl) as [E1 E2].
  rewrite E1, E2.
  cbn [fraction_of takeWhile N.eqb Pos.eqb]. rewrite H1, H2.
  destruct (ds ++ [d1; d2]) eqn:E; [destruct ds; discriminate|]. rewrite <- E.
  eexists _, _. split; [|reflexivity]. lia.
Qed.

Lemma parseAmount_money i s e c :
  m money accept i s [] = Some (e, c) -> amount_val (parseAmount (firstn (e - i) s)).
Proof.
  intros H. apply money_shape in H. destruct H as (w & d1 & d2 & -> & Hw & H1 & H2).
  unfold parseAmount. rewrite filter_app. cbn [filter].
  rewrite (no_comma_digit d1 H1), (no_comma_digit d2 H2).
  change (negb (oneOf "," 46%N)) with true. cbv iota.
  apply parseFloat_decimal; auto. apply filter_digits, Hw.
Qed.

Lemma last_opt_In {A : Type} (l : list A) x : last_opt l = Some x -> In x l.
Proof.
  unfold last_opt. destruct (rev l) as [|y r] eqn:E; [discriminate|].
  intros H. injection H as ->. apply in_rev. rewrite E. left. reflexivity.
Qed.

Lemma last_money_amount line a : last_money line = Some a -> amount_val a.
Proof.
  intros H. apply last_opt_In, in_map_iff in H. destruct H as (tok & <- & H).
  apply match_all_In in H. destruct H as (j & s2 & e & c & Hm & ->).
  eapply parseAmount_money, Hm.
Qed.

(** ** Totals and tax *)

Lemma last_opt_app2 {A : Type} (l1 l2 : list A) :
  last_opt (l1 ++ l2) = match last_opt l2 with Some x => Some x | None => last_opt l1 end.
Proof.
  unfold last_opt. rewrite rev_app_distr.
  destruct (rev l2) as [|x r]; reflexivity.
Qed.

Lemma tax_re_test line : re_test tax_re (toLowerCase line) = is_tax_line line.
Proof.
  unfold tax_re, is_tax_line, contains. cbn [Alts].
  rewrite !re_test_Alt, !re_test_Str, orb_assoc. reflexivity.
Qed.

Lemma total_re_test line :
  re_test total_re (toLowerCase line) && negb (re_test sub_re (toLowerCase line))
  || re_test grand_re (toLowerCase line) = claimed_total_line line.
Proof.
  unfold total_re, sub_re, grand_re, claimed_total_line, contains. cbn [Alts].
  rewrite !re_test_Alt, !re_test_Str, orb_assoc. reflexivity.
Qed.

Lemma totals_step_spec tax cands line :
  totals_step (tax, cands) line
  = (match last_opt (tax_candidates [line]) with Some t => Some t | None => tax end,
     cands ++ totals_candidates [line]).
Proof.
  unfold totals_step, tax_candidates, totals_candidates, candidates, is_total_line.
  cbn [flat_map]. rewrite !app_nil_r.
  change (last_of (map parseAmount (match_all money line))) with (last_money line).
  change (last_opt (map parseAmount (match_all money line))) with (last_money line).
  rewrite tax_re_test. rewrite <- total_re_test.
  destruct (is_tax_line line); cbn [negb andb].
  - rewrite app_nil_r. destruct (last_money line); reflexivity.
  - destruct (re_test total_re (toLowerCase line) && negb (re_test sub_re (toLowerCase line)));
      cbn [orb].
    + destruct (last_money line); [reflexivity | rewrite app_nil_r; reflexivity].
    + destruct (re_test grand_re (toLowerCase line)).
      * destruct (last_money line); [reflexivity | rewrite app_nil_r; reflexivity].
      * rewrite app_nil_r. reflexivity.
Qed.

Lemma candidates_cons sel line lines :
  candidates sel (line :: lines) = candidates sel [line] ++ candidates sel lines.
Proof. unfold candidates. cbn [flat_map]. rewrite app_nil_r. reflexivity. Qed.

Lemma fold_totals_step lines : forall tax cands,
  fold_left totals_step lines (tax, cands)
  = (match last_opt (tax_candidates lines) with Some t => Some t | None => tax end,
     cands ++ totals_candidates lines).
Proof.
  induction lines as [|line lines IH]; intros tax cands.
  - simpl. rewrite app_nil_r. reflexivity.
  - cbn [fold_left]. rewrite totals_step_spec, IH.
    unfold tax_candidates, totals_candidates.
    rewrite (candidates_cons is_tax_line line lines),
            (candidates_cons is_total_line line lines).
    rewrite last_opt_app2, app_assoc.
    destruct (last_opt (candidates is_tax_line lines)); reflexivity.
Qed.

Lemma candidates_amount sel lines : Forall amount_val (candidates sel lines).
Proof.
  unfold candidates. apply Forall_flat_map, Forall_forall. intros line _.
  destruct (sel line); [|constructor].
  destruct (last_money line) as [a|] eqn:E; [|constructor].
  constructor; [|constructor]. eapply last_money_amount, E.
Qed.

(** [extractTotals] in terms of the candidates of the bottom lines. *)
Lemma extractTotals_spec lines :
  extractTotals lines
  = {| t_total_amount :=
         match totals_candidates (bottomLines lines) with
         | [] => None
         | x :: l => Some (Math_max x l)
         end;
       t_tax_amount := last_opt (tax_candidates (bottomLines lines)) |}.
Proof.
  unfold extractTotals. rewrite fold_totals_step. cbn [app].
  destruct (last_opt (tax_candidates (bottomLines lines))); reflexivity.
Qed.

Lemma num_max_spec x y :
  amount_val x -> amount_val y ->
  (num_max x y = x \/ num_max x y = y) /\ num_le x (num_max x y) /\ num_le y (num_max x y).
Proof.
  intros (z1 & p1 & _ & ->) (z2 & p2 & _ & ->). cbn [num_max].
  destruct (Qle_bool (Qred (z1 # p1)) (Qred (z2 # p2))) eqn:E; cbn [num_le].
  - apply Qle_bool_iff in E. split; [auto|]. split; [exact E | apply Qle_refl].
  - split; [auto|]. split; [apply Qle_refl|].
    apply Qlt_le_weak, Qnot_le_lt. intros H. apply Qle_bool_iff in H. congruence.
Qed.

Lemma num_le_trans a b c : num_le a b -> num_le b c -> num_le a c.
Proof.
  destruct a, b, c; cbn; try tauto. apply Qle_trans.
Qed.

Lemma Math_max_spec l : forall x,
  Forall amount_val (x :: l) ->
  In (Math_max x l) (x :: l) /\ forall y, In y (x :: l) -> num_le y (Math_max x l).
Proof.
  unfold Math_max. induction l as [|y l IH]; intros x F.
  - simpl. split; [auto|]. intros y [<-|[]].
    apply Forall_inv in F. destruct F as (z & p & _ & ->). apply Qle_refl.
  - cbn [fold_left].
    pose proof (Forall_inv F) as Fx. pose proof (Forall_inv (Forall_inv_tail F)) as Fy.
    pose proof (Forall_inv_tail (Forall_inv_tail F)) as Fl.
    destruct (num_max_spec x y Fx Fy) as (Hc & Hx & Hy).
    assert (Fm : Forall amount_val (num_max x y :: l)).
    { constructor; [|exact Fl]. destruct Hc as [-> | ->]; assumption. }
    destruct (IH _ Fm) as [Hin Hle]. split.
    + destruct Hin as [Hin|Hin]; [|right; right; exact Hin].
      rewrite <- Hin. destruct Hc as [-> | ->]; [left | right; left]; reflexivity.
    + intros v [<-|[<-|Hv]].
      * eapply num_le_trans; [exact Hx | apply Hle; left; reflexivity].
      * eapply num_le_trans; [exact Hy | apply Hle; left; reflexivity].
      * apply Hle. right. exact Hv.
Qed.

Lemma orZero_amount a : amount_val a -> orZero (Some a) = a.
Proof.
  intros (z & p & _ & ->). cbn [orZero].
  destruct (Qeq_bool (Qred (z # p)) 0) eqn:E; [|reflexivity].
  apply Qeq_bool_iff in E. rewrite Qred_correct in E.
  f_equal. symmetry. apply (Qred_complete (z # p) 0 E).
Qed.

Lemma total_amount_spec h ocrText :
  total_amount (parseReceiptData h ocrText)
  = match totals_candidates (bottomLines (normalize ocrText)) with
    | [] => Num 0
    | x :: l => Math_max x l
    end.
Proof.
  unfold parseReceiptData. cbn [total_amount]. rewrite extractTotals_spec.
  cbn [t_total_amount].
  pose proof (candidates_amount is_total_line (bottomLines (normalize ocrText))) as F.
  fold totals_candidates in F.
  destruct (totals_candidates (bottomLines (normalize ocrText))) as [|x l];
    [reflexivity|].
  apply orZero_amount.
  destruct (Math_max_spec l x F) as [Hin _].
  rewrite Forall_forall in F. apply F, Hin.
Qed.

Lemma tax_amount_spec h ocrText :
  tax_amount (parseReceiptData h ocrText)
  = match last_opt (tax_candidates (bottomLines (normalize ocrText))) with
    | Some t => t
    | None => Num 0
    end.
Proof.
  unfold parseReceiptData. cbn [tax_amount]. rewrite extractTotals_spec.
  cbn [t_tax_amount].
  pose proof (candidates_amount is_tax_line (bottomLines (normalize ocrText))) as F.
  fold tax_candidates in F.
  destruct (last_opt (tax_candidates (bottomLines (normalize ocrText)))) as [t|] eqn:E;
    [|reflexivity].
  apply orZero_amount. rewrite Forall_forall in F. apply F, last_opt_In, E.
Qed.

(** C2, as stated, fails: a line with "total" and a tax word is a totals
    candidate in the words of the claim, and the code reads it as tax only. *)
Lemma total_line_with_tax_word :
  claimed_totals_candidates (bottomLines (normalize tax_total_line)) = [Num 5] /\
  total_amount (parseReceiptData (utc_host 0) tax_total_line) = Num 0 /\
  tax_amount (parseReceiptData (utc_host 0) tax_total_line) = Num 5 /\
  total_amount (parseReceiptData (utc_host 0) tax_total_line)
  <> claimed_total_amount (bottomLines (normalize tax_total_line)).
Proof.
  repeat split; try (vm_compute; reflexivity).
  vm_compute. discriminate.
Qed.

(** C2, amended: among the last 15 normalized lines, a line with "tax",
    "vat" or "gst" is a tax line, whatever else it holds; any other line
    with "total" and not "sub", or with "grand" or "amount", is a totals
    line; the candidate of a line is its last money token.  [total_amount]
    is the maximum of the totals candidates (one of them, and not below any
    of them), or 0 when there is none; [tax_amount] is the candidate of the
    last tax line that has a money token, or 0.  The lines "Subtotal 60.00",
    "Tax (10%) 6.00", "Total 66.00" give tax 6.00 and total 66.00. *)
Theorem totals_max_tax_last (h : Host) (ocrText : str) :
  let ls := bottomLines (normalize ocrText) in
  let r := parseReceiptData h ocrText in
  (totals_candidates ls = [] -> total_amount r = Num 0) /\
  (totals_candidates ls <> [] ->
   In (total_amount r) (totals_candidates ls) /\
   forall v, In v (totals_candidates ls) -> num_le v (total_amount r)) /\
  tax_amount r = match last_opt (tax_candidates ls) with
                 | Some t => t
                 | None => Num 0
                 end /\
  total_amount (parseReceiptData h totals_scenario) = Num 66 /\
  tax_amount (parseReceiptData h totals_scenario) = Num 6.
Proof.
  cbn zeta. rewrite total_amount_spec.
  split; [intros ->; reflexivity|]. split.
  - pose proof (candidates_amount is_total_line (bottomLines (normalize ocrText))) as F.
    fold totals_candidates in F.
    destruct (totals_candidates (bottomLines (normalize ocrText))) as [|x l];
      [congruence|].
    intros _. apply Math_max_spec, F.
  - split; [apply tax_amount_spec|]. split; vm_compute; reflexivity.
Qed.

(** The total of the totals scenario is one of its candidates. *)
Lemma totals_max_tax_last_witness :
  totals_candidates (bottomLines (normalize totals_scenario)) <> [] /\
  In (total_amount (parseReceiptData (utc_host 0) totals_scenario))
     (totals_candidates (bottomLines (normalize totals_scenario))).
Proof.
  assert (H : totals_candidates (bottomLines (normalize totals_scenario)) <> [])
    by (vm_compute; discriminate).
  split; [exact H|].
  apply (proj1 (proj2 (totals_max_tax_last (utc_host 0) totals_scenario))), H.
Defined.

(** C8: [total_amount] and [tax_amount] are numbers that are not negative,
    and each is exactly 0 when the last 15 normalized lines give no candidate
    for it. *)
Theorem amounts_nonneg (h : Host) (ocrText : str) :
  let ls := bottomLines (normalize ocrText) in
  let r := parseReceiptData h ocrText in
  nonneg (total_amount r) /\ nonneg (tax_amount r) /\
  (totals_candidates ls = [] -> total_amount r = Num 0) /\
  (tax_candidates ls = [] -> tax_amount r = Num 0).
Proof.
  cbn zeta. rewrite total_amount_spec, tax_amount_spec.
  pose proof (candidates_amount is_total_line (bottomLines (normalize ocrText))) as Ft.
  pose proof (candidates_amount is_tax_line (bottomLines (normalize ocrText))) as Fx.
  fold totals_candidates in Ft. fold tax_candidates in Fx.
  assert (Hz : nonneg (Num 0)) by (exists 0%Q; split; [reflexivity | discriminate]).
  repeat split.
  - destruct (totals_candidates (bottomLines (normalize ocrText))) as [|x l]; [exact Hz|].
    apply amount_val_nonneg. destruct (Math_max_spec l x Ft) as [Hin _].
    rewrite Forall_forall in Ft. apply Ft, Hin.
  - destruct (last_opt (tax_candidates (bottomLines (normalize ocrText)))) as [t|] eqn:E;
      [|exact Hz].
    apply amount_val_nonneg. rewrite Forall_forall in Fx. apply Fx, last_opt_In, E.
  - intros ->. reflexivity.
  - intros ->. reflexivity.
Qed.

(** A text without figures has both amounts at 0. *)
Lemma amounts_nonneg_witness :
  total_amount (parseReceiptData (utc_host 0) (lit "no figures here")) = Num 0 /\
  tax_amount (parseReceiptData (utc_host 0) (lit "no figures here")) = Num 0.
Proof.
  split.
  - apply (proj1 (proj2 (proj2 (amounts_nonneg (utc_host 0) (lit "no figures here"))))).
    vm_compute. reflexivity.
  - apply (proj2 (proj2 (proj2 (amounts_nonneg (utc_host 0) (lit "no figures here"))))).
    vm_compute. reflexivity.
Defined.

(** ** Dates *)

Lemma date_re1_unfold j s :
  m date_re1 accept j s [] =
  rep isDigit 1 (Some 2)
    (fun i1 s1 c1 =>
       m (Cls sep_cls)
         (fun i2 s2 c2 =>
            rep isDigit 1 (Some 2)
              (fun i3 s3 c3 =>
                 m (Cls sep_cls)
                   (fun i4 s4 c4 =>
                      rep isDigit 2 (Some 4)
                        (fun i5 s5 c5 => accept i5 s5 ((3, firstn (i5 - i4) s4) :: c5))
                        i4 s4 c4)
                   i3 s3 ((2, firstn (i3 - i2) s2) :: c3))
              i2 s2 c2)
         i1 s1 ((1, firstn (i1 - j) s) :: c1))
    j s [].
Proof. reflexivity. Qed.

Lemma m_Cls_inv p k i s c res :
  m (Cls p) k i s c = Some res ->
  exists x s', s = x :: s' /\ p x = true /\ k (S i) s' c = Some res.
Proof.
  simpl. destruct s as [|x s']; [discriminate|].
  destruct (p x) eqn:E; [|discriminate]. eauto.
Qed.

Lemma rep_digits lo hi k i s c res :
  rep isDigit lo (Some hi) k i s c = Some res ->
  exists n, digits_run lo hi (firstn n s) /\ k (i + n) (skipn n s) c = Some res.
Proof.
  intros H. apply rep_inv in H. destruct H as (n & Hlo & Hhi & Hlen & Hall & Hk).
  specialize (Hhi hi eq_refl). exists n. split; [|exact Hk].
  split; [exact Hall|]. rewrite length_firstn. lia.
Qed.

(** The groups of a match of the first date pattern. *)
Lemma date_re1_shape j s e c :
  m date_re1 accept j s [] = Some (e, c) ->
  exists g1 g2 g3,
    c = [(3, g3); (2, g2); (1, g1)] /\
    digits_run 1 2 g1 /\ digits_run 1 2 g2 /\ digits_run 2 4 g3.
Proof.
  rewrite date_re1_unfold. intros H.
  apply rep_digits in H. destruct H as (n1 & R1 & H).
  apply m_Cls_inv in H. destruct H as (x1 & s2 & _ & _ & H).
  apply rep_digits in H. destruct H as (n2 & R2 & H).
  apply m_Cls_inv in H. destruct H as (x2 & s4 & _ & _ & H).
  apply rep_digits in H. destruct H as (n3 & R3 & H).
  unfold accept in H. injection H as <- <-.
  eexists _, _, _. split; [reflexivity|].
  split; [|split].
  - replace (j + n1 - j) with n1 by lia. exact R1.
  - match goal with |- context [firstn ?a _] => replace a with n2 by lia end. exact R2.
  - match goal with |- context [firstn ?a _] => replace a with n3 by lia end. exact R3.
Qed.

Lemma takeWhile_all f s : forallb f s = true -> takeWhile f s = s.
Proof.
  induction s as [|x s IH]; simpl; [reflexivity|].
  intros H. apply andb_true_iff in H. destruct H as [Hx Hs].
  rewrite Hx, IH by assumption. reflexivity.
Qed.

Lemma fold_digits_bound ds : forall acc,
  forallb isDigit ds = true ->
  (fold_left (fun acc c => acc * 10 + (c - 48)) ds acc + 1
   <= (acc + 1) * 10 ^ N.of_nat (List.length ds))%N.
Proof.
  induction ds as [|d ds IH]; intros acc H.
  - simpl. lia.
  - cbn [fold_left List.length]. simpl in H.
    apply andb_true_iff in H. destruct H as [Hd Hds].
    specialize (IH (acc * 10 + (d - 48))%N Hds).
    rewrite Nat2N.inj_succ, N.pow_succ_r'.
    assert (d - 48 <= 9)%N by char_lia. nia.
Qed.

Lemma digits_val_bound ds :
  forallb isDigit ds = true -> (digits_val ds < 10 ^ N.of_nat (List.length ds))%N.
Proof.
  intros H. pose proof (fold_digits_bound ds 0%N H) as B. unfold digits_val. lia.
Qed.

(** [parseInt] of a run of digits is a number below the power of ten of
    its length. *)
Lemma parseInt_run lo hi g :
  0 < lo -> digits_run lo hi g ->
  exists v, parseInt g = Some v /\ (0 <= v < 10 ^ Z.of_nat hi)%Z.
Proof.
  intros Hlo [Hd [Hl Hh]]. unfold parseInt.
  destruct g as [|d g]; [simpl in Hl; lia|].
  pose proof Hd as Hd'. simpl in Hd'. apply andb_true_iff in Hd'. destruct Hd' as [Hx _].
  rewrite (dropWhile_head isSpace d g (isDigit_not_space d Hx)).
  unfold sign_of.
  destruct (d =? 45)%N eqn:E1; [exfalso; char_lia|].
  destruct (d =? 43)%N eqn:E2; [exfalso; char_lia|].
  rewrite (takeWhile_all isDigit (d :: g) Hd).
  eexists. split; [reflexivity|].
  pose proof (digits_val_bound (d :: g) Hd) as B.
  assert (10 ^ N.of_nat (List.length (d :: g)) <= 10 ^ N.of_nat hi)%N
    by (apply N.pow_le_mono_r; lia).
  assert (Hc : Z.of_N (10 ^ N.of_nat hi) = (10 ^ Z.of_nat hi)%Z)
    by (rewrite N2Z.inj_pow, nat_N_Z; reflexivity).
  lia.
Qed.

Lemma MakeDay_bound y mo d :
  (100 <= y <= 12000 -> -1 <= mo <= 100 -> 0 <= d <= 100 ->
   -1000000 <= JsDate.MakeDay y mo d <= 4000000)%Z.
Proof.
  intros Hy Hm Hd. unfold JsDate.MakeDay, JsDate.days_from_civil. cbv zeta.
  assert (Hmn : (0 <= mo mod 12 < 12)%Z) by (apply Z.mod_pos_bound; lia).
  assert (Hq : (-1 <= mo / 12 <= 8)%Z).
  { Z.div_mod_to_equations. lia. }
  assert (Hym : (99 <= y + mo / 12 <= 12008)%Z) by lia.
  generalize dependent (y + mo / 12)%Z. generalize dependent (mo mod 12)%Z.
  intros mn Hmn ym Hym.
  destruct (mn + 1 <=? 2)%Z; destruct (2 <? mn + 1)%Z;
    Z.div_mod_to_equations; lia.
Qed.

Lemma make_valid h y mo d :
  sane h ->
  (100 <= y <= 12000 -> -1 <= mo <= 100 -> 0 <= d <= 100 ->
   JsDate.make (LocalTZA h) (Some y) (Some mo) (Some d)
   = Some (local_midnight h y mo d))%Z.
Proof.
  intros Hs Hy Hm Hd. unfold JsDate.make, local_midnight.
  replace ((0 <=? y) && (y <=? 99))%Z with false
    by (symmetry; apply andb_false_iff; right; apply Z.leb_gt; lia).
  pose proof (MakeDay_bound y mo d Hy Hm Hd) as B.
  pose proof (Hs (JsDate.MakeDay y mo d * JsDate.msPerDay)%Z) as T.
  unfold JsDate.TimeClip. unfold JsDate.msPerDay in *.
  destruct (8640000000000000 <? Z.abs _)%Z eqn:E; [|reflexivity].
  apply Z.ltb_lt in E. lia.
Qed.

(** *** The first date pattern on "15/01/2024" *)

Lemma date_scenario_match J post :
  m date_re1 accept J (lit "15/01/2024" ++ post) []
  = Some (10 + J, [(3, lit "2024"); (2, lit "01"); (1, lit "15")]).
Proof.
  assert (E1 : S (S J) - J = 2) by lia.
  assert (E2 : S (S (S (S (S J)))) - S (S (S J)) = 2) by lia.
  assert (E3 : S (S (S (S (S (S (S (S (S (S J))))))))) - S (S (S (S (S (S J))))) = 4)
    by lia.
  rewrite date_re1_unfold. unfold accept.
  destruct post as [|x post]; [|destruct (isDigit x) eqn:E];
    with_strategy opaque [Nat.sub Nat.add] cbn; rewrite ?E; cbn [andb negb];
    rewrite E1, E2, E3; reflexivity.
Qed.

Lemma date_re1_no_digit x s i :
  isDigit x = false -> m date_re1 accept i (x :: s) [] = None.
Proof.
  intros H. rewrite date_re1_unfold. simpl. rewrite H. reflexivity.
Qed.

Lemma search_date_skip pre rest : forall i,
  forallb (fun c => negb (isDigit c)) pre = true ->
  search_from date_re1 i (pre ++ rest) = search_from date_re1 (List.length pre + i) rest.
Proof.
  induction pre as [|x pre IH]; intros i H; [reflexivity|].
  simpl in H. apply andb_true_iff in H. destruct H as [Hx Hp].
  apply negb_true_iff in Hx.
  cbn [app search_from]. rewrite (date_re1_no_digit x (pre ++ rest) i Hx).
  rewrite IH by assumption. cbn [List.length]. f_equal. lia.
Qed.

Lemma search_from_hit r i s e c :
  m r accept i s [] = Some (e, c) ->
  search_from r i s = Some (MatchResult i (firstn (e - i) s) c).
Proof. intros H. destruct s; cbn [search_from]; rewrite H; reflexivity. Qed.

(** *** Text after a place where the first pattern has no match *)

Lemma rep_digits_text lo hi k i s c res :
  rep isDigit lo (Some hi) k i s c = Some res ->
  exists g rest, s = g ++ rest /\ digits_run lo hi g /\
                 k (i + List.length g) rest c = Some res.
Proof.
  intros H. apply rep_inv in H. destruct H as (n & Hlo & Hhi & Hlen & Hall & Hk).
  specialize (Hhi hi eq_refl).
  assert (Hn : List.length (firstn n s) = n) by (rewrite length_firstn; lia).
  exists (firstn n s), (skipn n s). rewrite firstn_skipn, Hn.
  split; [reflexivity|]. split; [|exact Hk]. split; [exact Hall | lia].
Qed.

(** The text of a match of the first date pattern. *)
Lemma date_re1_text j s e c :
  m date_re1 accept j s [] = Some (e, c) ->
  exists g1 x1 g2 x2 g3 rest,
    s = g1 ++ x1 :: g2 ++ x2 :: g3 ++ rest /\
    digits_run 1 2 g1 /\ sep_cls x1 = true /\
    digits_run 1 2 g2 /\ sep_cls x2 = true /\ digits_run 2 4 g3.
Proof.
  rewrite date_re1_unfold. intros H.
  apply rep_digits_text in H. destruct H as (g1 & r1 & -> & R1 & H).
  apply m_Cls_inv in H. destruct H as (x1 & s2 & -> & S1 & H).
  apply rep_digits_text in H. destruct H as (g2 & r2 & -> & R2 & H).
  apply m_Cls_inv in H. destruct H as (x2 & s4 & -> & S2 & H).
  apply rep_digits_text in H. destruct H as (g3 & r3 & -> & R3 & H).
  exists g1, x1, g2, x2, g3, r3. auto 10.
Qed.

Lemma rep_complete p k c : forall n lo hi i s,
  lo <= n -> (forall h, hi = Some h -> n <= h) -> n <= List.length s ->
  forallb p (firstn n s) = true ->
  k (i + n) (skipn n s) c <> None ->
  rep p lo hi k i s c <> None.
Proof.
  induction n as [|n IH]; intros lo hi i s Hlo Hhi Hlen Hall Hk.
  - assert (lo = 0) by lia. subst lo. rewrite Nat.add_0_r in Hk. simpl in Hk.
    destruct s as [|x s]; simpl; [exact Hk|].
    destruct (p x && negb (hi_zero hi)); [|exact Hk].
    destruct (rep p 0 (option_map pred hi) k (S i) s c); [discriminate | exact Hk].
  - destruct s as [|x s]; [simpl in Hlen; lia|].
    simpl in Hall. apply andb_true_iff in Hall. destruct Hall as [Hx Hall].
    assert (Hz : hi_zero hi = false).
    { destruct hi as [[|h]|]; try reflexivity. specialize (Hhi 0 eq_refl). lia. }
    simpl. rewrite Hx, Hz. simpl.
    assert (Hr : rep p (pred lo) (option_map pred hi) k (S i) s c <> None).
    { apply (IH (pred lo) (option_map pred hi) (S i) s); try (simpl in Hlen; lia); auto.
      - intros h Hh. destruct hi as [h'|]; [|discriminate]. injection Hh as <-.
        specialize (Hhi h' eq_refl). lia.
      - rewrite Nat.add_succ_r in Hk. exact Hk. }
    destruct (rep p (pred lo) (option_map pred hi) k (S i) s c); [discriminate|].
    contradiction.
Qed.

Lemma rep_digits_complete lo hi k i g rest c :
  digits_run lo hi g ->
  k (i + List.length g) rest c <> None ->
  rep isDigit lo (Some hi) k i (g ++ rest) c <> None.
Proof.
  intros [Hd [Hl Hh]] Hk.
  apply (rep_complete isDigit k c (List.length g)).
  - exact Hl.
  - intros h E. injection E as <-. exact Hh.
  - rewrite length_app. lia.
  - rewrite firstn_app, Nat.sub_diag, firstn_all, app_nil_r. exact Hd.
  - rewrite skipn_app, Nat.sub_diag, skipn_all. exact Hk.
Qed.

(** The first date pattern matches every text that begins with two runs of
    one or two digits and a run of two to four digits, with separators
    between them. *)
Lemma date_re1_complete j g1 x1 g2 x2 g3 rest :
  digits_run 1 2 g1 -> sep_cls x1 = true ->
  digits_run 1 2 g2 -> sep_cls x2 = true -> digits_run 2 4 g3 ->
  m date_re1 accept j (g1 ++ x1 :: g2 ++ x2 :: g3 ++ rest) [] <> None.
Proof.
  intros R1 S1 R2 S2 R3. rewrite date_re1_unfold.
  apply rep_digits_complete; [exact R1|]. cbn [m]. rewrite S1.
  apply rep_digits_complete; [exact R2|]. cbn [m]. rewrite S2.
  apply rep_digits_complete; [exact R3|]. discriminate.
Qed.

Lemma prefix_within (w : str) : forall u x v rest,
  forallb digit_or_sep w = true -> digit_or_sep x = false ->
  u ++ x :: v = w ++ rest -> exists u', u = w ++ u'.
Proof.
  induction w as [|a w IH]; intros u x v rest Hw Hx E; [exists u; reflexivity|].
  simpl in Hw. apply andb_true_iff in Hw. destruct Hw as [Ha Hw].
  destruct u as [|b u]; simpl in E; injection E as E1 E2.
  - subst. congruence.
  - subst b. destruct (IH u x v rest Hw Hx E2) as [u' ->]. exists u'. reflexivity.
Qed.

Lemma digits_run_sep lo hi g : digits_run lo hi g -> forallb digit_or_sep g = true.
Proof.
  intros [H _]. rewrite forallb_forall in *. intros x Hx.
  unfold digit_or_sep. rewrite (H x Hx). reflexivity.
Qed.

(** A match of the first date pattern ends before the first code unit that
    is neither a digit nor a separator: if [u] has no match at its head,
    [u] followed by such a code unit has none either. *)
Lemma date_re1_extend i u x v :
  digit_or_sep x = false ->
  m date_re1 accept i u [] = None ->
  m date_re1 accept i (u ++ x :: v) [] = None.
Proof.
  intros Hx Hu.
  destruct (m date_re1 accept i (u ++ x :: v) []) as [[e c]|] eqn:E; [|reflexivity].
  exfalso. apply date_re1_text in E.
  destruct E as (g1 & x1 & g2 & x2 & g3 & rest & E & R1 & S1 & R2 & S2 & R3).
  assert (Hw : forallb digit_or_sep (g1 ++ x1 :: g2 ++ x2 :: g3) = true).
  { rewrite forallb_app. cbn [forallb]. rewrite forallb_app. cbn [forallb].
    rewrite (digits_run_sep _ _ _ R1), (digits_run_sep _ _ _ R2),
      (digits_run_sep _ _ _ R3).
    unfold digit_or_sep. rewrite S1, S2, !orb_true_r. reflexivity. }
  replace (g1 ++ x1 :: g2 ++ x2 :: g3 ++ rest)
    with ((g1 ++ x1 :: g2 ++ x2 :: g3) ++ rest) in E
    by (rewrite <- !app_assoc; cbn [app]; rewrite <- !app_assoc; reflexivity).
  destruct (prefix_within _ u x v rest Hw Hx E) as [u' ->].
  revert Hu.
  replace ((g1 ++ x1 :: g2 ++ x2 :: g3) ++ u')
    with (g1 ++ x1 :: g2 ++ x2 :: g3 ++ u')
    by (rewrite <- !app_assoc; cbn [app]; rewrite <- !app_assoc; reflexivity).
  apply date_re1_complete; assumption.
Qed.

Lemma search_date_extend pre x v : forall i,
  digit_or_sep x = false ->
  search_from date_re1 i pre = None ->
  search_from date_re1 i (pre ++ x :: v)
  = search_from date_re1 (List.length pre + i) (x :: v).
Proof.
  induction pre as [|a pre IH]; intros i Hx H; [reflexivity|].
  cbn [search_from] in H.
  destruct (m date_re1 accept i (a :: pre) []) as [[e c]|] eqn:E; [discriminate|].
  change ((a :: pre) ++ x :: v) with (a :: (pre ++ x :: v)). cbn [search_from].
  change (a :: (pre ++ x :: v)) with ((a :: pre) ++ x :: v).
  rewrite (date_re1_extend i (a :: pre) x v Hx E).
  rewrite IH by assumption. cbn [List.length].
  replace (List.length pre + S i) with (S (List.length pre) + i) by lia.
  reflexivity.
Qed.

Lemma date_scenario_search pre post :
  re_match date_re1 pre = None ->
  re_match date_re1 (pre ++ date_scenario ++ post)
  = Some (MatchResult (6 + (List.length pre + 0)) (lit "15/01/2024")
            [(3, lit "2024"); (2, lit "01"); (1, lit "15")]).
Proof.
  intros H. unfold re_match in *.
  change (date_scenario ++ post) with (68%N :: (lit "ate: " ++ (lit "15/01/2024" ++ post))).
  rewrite (search_date_extend pre 68%N _ 0 eq_refl H).
  change (68%N :: (lit "ate: " ++ (lit "15/01/2024" ++ post)))
    with (lit "Date: " ++ (lit "15/01/2024" ++ post)).
  rewrite (search_date_skip (lit "Date: ") _ _ eq_refl).
  change (List.length (lit "Date: ")) with 6.
  rewrite (search_from_hit date_re1 _ _ _ _ (date_scenario_match _ post)).
  f_equal. replace (10 + (6 + (List.length pre + 0)) - (6 + (List.length pre + 0)))
    with 10 by lia.
  reflexivity.
Qed.

(** *** The numeric branch of [parseDate] *)

Lemma digits_run_not_NaN lo hi g :
  digits_run lo hi g -> isNaN_text g = false.
Proof. intros [H _]. unfold isNaN_text. rewrite H. reflexivity. Qed.

(** A match of the first pattern that does not begin with "20" is read as
    month, day, year. *)
Lemma date_of_match_mdy h mt g1 g2 g3 :
  sane h ->
  m_caps mt = [(3, g3); (2, g2); (1, g1)] ->
  digits_run 1 2 g1 -> digits_run 1 2 g2 -> digits_run 2 4 g3 ->
  startsWith (lit "20") (m_text mt) = false ->
  exists a b y,
    parseInt g1 = Some a /\ parseInt g2 = Some b /\ parseInt g3 = Some y /\
    date_of_match h mt
    = Some (JsDate.isoDate
              (local_midnight h (if (y <? 100)%Z then y + 2000 else y)%Z (a - 1) b)).
Proof.
  intros Hs Hc R1 R2 R3 H20.
  destruct (parseInt_run 1 2 g1 (Nat.lt_0_1) R1) as (a & Ha & Ba).
  destruct (parseInt_run 1 2 g2 (Nat.lt_0_1) R2) as (b & Hb & Bb).
  destruct (parseInt_run 2 4 g3 (Nat.lt_0_2) R3) as (y & Hy & By).
  exists a, b, y. repeat (split; [assumption|]).
  unfold date_of_match, group. rewrite Hc. cbn [getcap Nat.eqb].
  rewrite (digits_run_not_NaN 1 2 g2 R2), andb_false_r, H20.
  replace (Nat.eqb (List.length g1) 4) with false
    by (symmetry; apply Nat.eqb_neq; destruct R1 as [_ R1]; lia).
  cbn [orb]. rewrite Ha, Hb, Hy. cbn [lt100 zadd option_map].
  change (10 ^ Z.of_nat 2)%Z with 100%Z in *. change (10 ^ Z.of_nat 4)%Z with 10000%Z in *.
  replace (y + (if (y <? 100)%Z then 2000 else 0))%Z
    with (if (y <? 100)%Z then y + 2000 else y)%Z
    by (destruct (y <? 100)%Z; lia).
  replace (a + -1)%Z with (a - 1)%Z by lia.
  rewrite make_valid; [reflexivity | exact Hs | | lia | lia].
  destruct (y <? 100)%Z eqn:E; [lia|]. apply Z.ltb_ge in E. lia.
Qed.

Lemma parseDate_mdy h text mt :
  sane h ->
  re_match date_re1 text = Some mt ->
  startsWith (lit "20") (m_text mt) = false ->
  exists a b y,
    parseInt (group 1 mt) = Some a /\ parseInt (group 2 mt) = Some b /\
    parseInt (group 3 mt) = Some y /\
    parseDate h text
    = Some (JsDate.isoDate
              (local_midnight h (if (y <? 100)%Z then y + 2000 else y)%Z (a - 1) b)).
Proof.
  intros Hs Hm H20. pose proof Hm as Hm'. unfold re_match in Hm'.
  apply search_from_inv in Hm'. destruct Hm' as (s1 & s2 & e & c & _ & Hm' & Emt).
  apply date_re1_shape in Hm'. destruct Hm' as (g1 & g2 & g3 & -> & R1 & R2 & R3).
  assert (Hc : m_caps mt = [(3, g3); (2, g2); (1, g1)]) by (rewrite Emt; reflexivity).
  destruct (date_of_match_mdy h mt g1 g2 g3 Hs Hc R1 R2 R3 H20)
    as (a & b & y & Ha & Hb & Hy & Hd).
  exists a, b, y. unfold group. rewrite Hc. cbn [getcap Nat.eqb].
  repeat (split; [assumption|]).
  unfold parseDate, date_patterns. cbn [parseDate_loop]. rewrite Hm, Hd. reflexivity.
Qed.

Lemma purchase_date_found h text d :
  parseDate h text = Some d -> purchase_date (parseReceiptData h text) = d.
Proof.
  intros H. unfold parseReceiptData. cbn [purchase_date]. rewrite H.
  apply parseDate_nonempty in H. destruct d; [congruence | reflexivity].
Qed.

(** C6, as stated, fails: in "03/04/2024" the year token has four digits and
    begins with "20", and the code still reads the first token as the month:
    it returns 4 March, not 3 April. *)
Lemma middle_token_is_day :
  purchase_date (parseReceiptData (utc_host 0) (lit "03/04/2024")) = lit "2024-03-04" /\
  option_map (claimed_date (utc_host 0)) (re_match date_re1 (lit "03/04/2024"))
  = Some (Some (lit "2024-04-03")) /\
  Some (Some (purchase_date (parseReceiptData (utc_host 0) (lit "03/04/2024"))))
  <> option_map (claimed_date (utc_host 0)) (re_match date_re1 (lit "03/04/2024")).
Proof.
  repeat split; try (vm_compute; reflexivity).
  vm_compute. discriminate.
Qed.

(** *** Dates of the calendar *)

Lemma zrange_In lo n z :
  (Z.of_nat lo <= z < Z.of_nat lo + Z.of_nat n)%Z -> In z (zrange lo n).
Proof.
  intros H. unfold zrange. apply in_map_iff. exists (Z.to_nat z).
  split; [lia|]. apply in_seq. lia.
Qed.

Lemma all3_spec f l1 l2 l3 :
  all3 f l1 l2 l3 = true ->
  forall a b c, In a l1 -> In b l2 -> In c l3 -> f a b c = true.
Proof.
  unfold all3. intros H a b c Ha Hb Hc.
  rewrite forallb_forall in H. specialize (H a Ha).
  rewrite forallb_forall in H. specialize (H b Hb).
  rewrite forallb_forall in H. exact (H c Hc).
Qed.

(** The dates of one cycle of 400 years, one by one. *)
Lemma cycle_checked : all3 date_check (zrange 0 400) (zrange 1 12) (zrange 1 31) = true.
Proof. vm_compute. reflexivity. Qed.

Lemma calendar_date_bounds y mo d :
  calendar_date y mo d = true -> (1 <= mo <= 12 /\ 1 <= d <= 31)%Z.
Proof.
  unfold calendar_date, days_in_month. intros Hc.
  repeat (apply andb_true_iff in Hc; destruct Hc as [Hc ?]).
  repeat match goal with H : (_ <=? _)%Z = true |- _ => apply Z.leb_le in H end.
  destruct (mo =? 2)%Z; [destruct (leap_year y)|
    destruct ((mo =? 4) || (mo =? 6) || (mo =? 9) || (mo =? 11))%Z]; lia.
Qed.

Lemma round_trip_cycle y mo d :
  (0 <= y < 400)%Z -> calendar_date y mo d = true ->
  JsDate.civil_from_days (JsDate.days_from_civil y mo d) = (y, mo, d).
Proof.
  intros Hy Hc. destruct (calendar_date_bounds y mo d Hc) as [Hm Hd].
  assert (C := all3_spec _ _ _ _ cycle_checked y mo d
               (zrange_In 0 400 y ltac:(lia)) (zrange_In 1 12 mo ltac:(lia))
               (zrange_In 1 31 d ltac:(lia))).
  unfold date_check in C. rewrite Hc in C. cbn [implb] in C.
  destruct (JsDate.civil_from_days _) as [[y1 m1] d1]. unfold date_eqb in C.
  repeat (apply andb_true_iff in C; destruct C as [C ?]).
  repeat match goal with H : (_ =? _)%Z = true |- _ => apply Z.eqb_eq in H end.
  subst. reflexivity.
Qed.

(** 400 years are 146097 days. *)
Lemma days_from_civil_shift y mo d k :
  JsDate.days_from_civil (y + 400 * k) mo d
  = (JsDate.days_from_civil y mo d + 146097 * k)%Z.
Proof.
  unfold JsDate.days_from_civil. cbv zeta.
  set (c := (if (mo <=? 2)%Z then 1 else 0)%Z).
  replace (if (mo <=? 2)%Z then (y + 400 * k - 1)%Z else (y + 400 * k)%Z)
    with (y - c + k * 400)%Z by (unfold c; destruct (mo <=? 2)%Z; ring).
  replace (if (mo <=? 2)%Z then (y - 1)%Z else y)
    with (y - c)%Z by (unfold c; destruct (mo <=? 2)%Z; ring).
  rewrite Z.div_add by discriminate.
  replace (y - c + k * 400 - ((y - c) / 400 + k) * 400)%Z
    with (y - c - (y - c) / 400 * 400)%Z by ring.
  ring.
Qed.

Lemma civil_from_days_shift z k :
  JsDate.civil_from_days (z + 146097 * k)
  = let '(y, mo, d) := JsDate.civil_from_days z in ((y + 400 * k)%Z, mo, d).
Proof.
  unfold JsDate.civil_from_days. cbv zeta.
  replace (z + 146097 * k + 719468)%Z with (z + 719468 + k * 146097)%Z by ring.
  rewrite Z.div_add by discriminate.
  replace (z + 719468 + k * 146097 - ((z + 719468) / 146097 + k) * 146097)%Z
    with (z + 719468 - (z + 719468) / 146097 * 146097)%Z by ring.
  set (doe := (z + 719468 - (z + 719468) / 146097 * 146097)%Z).
  set (yoe := ((doe - doe / 1460 + doe / 36524 - doe / 146096) / 365)%Z).
  destruct (_ <=? 2)%Z; f_equal; f_equal; ring.
Qed.

Lemma calendar_date_cycle y mo d : calendar_date y mo d = calendar_date (y mod 400) mo d.
Proof.
  unfold calendar_date, days_in_month, leap_year.
  replace ((y mod 400) mod 4)%Z with (y mod 4)%Z by (Z.div_mod_to_equations; lia).
  replace ((y mod 400) mod 100)%Z with (y mod 100)%Z by (Z.div_mod_to_equations; lia).
  rewrite Z.mod_mod by lia. reflexivity.
Qed.

(** The date of the day number of a date of the calendar is that date. *)
Lemma civil_round_trip y mo d :
  calendar_date y mo d = true ->
  JsDate.civil_from_days (JsDate.days_from_civil y mo d) = (y, mo, d).
Proof.
  intros H. rewrite calendar_date_cycle in H.
  assert (Hy : (0 <= y mod 400 < 400)%Z) by (apply Z.mod_pos_bound; lia).
  pose proof (round_trip_cycle _ mo d Hy H) as R.
  assert (E : y = (y mod 400 + 400 * (y / 400))%Z) by (Z.div_mod_to_equations; lia).
  rewrite E at 1. rewrite days_from_civil_shift, civil_from_days_shift, R.
  f_equal. f_equal. lia.
Qed.

(** [MakeDay] of a date of the calendar carries nothing over. *)
Lemma MakeDay_calendar y mo d :
  (1 <= mo <= 12)%Z -> JsDate.MakeDay y (mo - 1) d = JsDate.days_from_civil y mo d.
Proof.
  intros Hm. unfold JsDate.MakeDay. cbv zeta.
  rewrite Z.div_small, Z.mod_small by lia.
  replace (y + 0)%Z with y by ring. replace (mo - 1 + 1)%Z with mo by ring.
  unfold JsDate.days_from_civil. cbv zeta. ring.
Qed.

Lemma not_ahead_sane h : not_ahead h -> sane h.
Proof. intros H t. specialize (H t). unfold JsDate.msPerDay in *. lia. Qed.

(** Local midnight of a date of the calendar, in a zone that is not ahead of
    UTC, falls on that date in UTC. *)
Lemma isoDate_calendar h y mo d :
  not_ahead h -> (0 <= y <= 9999)%Z -> calendar_date y mo d = true ->
  JsDate.isoDate (local_midnight h y (mo - 1) d) = iso_text y mo d.
Proof.
  intros Hz Hy Hc. destruct (calendar_date_bounds y mo d Hc) as [Hm _].
  unfold local_midnight. cbv zeta. rewrite (MakeDay_calendar y mo d Hm).
  set (D := JsDate.days_from_civil y mo d) in *.
  pose proof (Hz (D * JsDate.msPerDay)%Z) as T.
  unfold JsDate.isoDate.
  replace ((D * JsDate.msPerDay - LocalTZA h (D * JsDate.msPerDay)) / JsDate.msPerDay)%Z
    with D
    by (generalize dependent (LocalTZA h (D * JsDate.msPerDay)); intros off T;
        unfold JsDate.msPerDay in *; Z.div_mod_to_equations; lia).
  unfold D. rewrite (civil_round_trip y mo d Hc).
  replace ((0 <=? y) && (y <=? 9999))%Z with true
    by (symmetry; apply andb_true_iff; split; apply Z.leb_le; lia).
  reflexivity.
Qed.

(** The year token of a match of the first pattern is a number below
    10000. *)
Lemma date_re1_year text mt year :
  re_match date_re1 text = Some mt ->
  parseInt (group 3 mt) = Some year -> (0 <= year < 10000)%Z.
Proof.
  intros Hm Hy. unfold re_match in Hm.
  apply search_from_inv in Hm. destruct Hm as (s1 & s2 & e & c & _ & Hm & Emt).
  apply date_re1_shape in Hm. destruct Hm as (g1 & g2 & g3 & -> & R1 & R2 & R3).
  rewrite Emt in Hy. unfold group in Hy. cbn [m_caps getcap Nat.eqb] in Hy.
  destruct (parseInt_run 2 4 g3 (Nat.lt_0_2) R3) as (v & Hv & Bv).
  rewrite Hv in Hy. injection Hy as <-.
  change (10 ^ Z.of_nat 4)%Z with 10000%Z in Bv. exact Bv.
Qed.

(** C6, amended: when the first match of the first pattern does not begin
    with "20", it is read as month/day/year whatever the year token is: the
    three tokens are numbers, the year is raised by 2000 when below 100, and
    when they make a date of the calendar (a month from 1 to 12, a day of
    that month) [purchase_date] is that date, YYYY-MM-DD, on a host whose
    zone is not ahead of UTC.  Tokens that make no date of the calendar, and
    zones ahead of UTC, are left out. *)
Theorem date_month_day_year (h : Host) (ocrText : str) (mt : match_result) :
  not_ahead h ->
  re_match date_re1 ocrText = Some mt ->
  startsWith (lit "20") (m_text mt) = false ->
  exists month day year,
    parseInt (group 1 mt) = Some month /\ parseInt (group 2 mt) = Some day /\
    parseInt (group 3 mt) = Some year /\
    (calendar_date (full_year year) month day = true ->
     purchase_date (parseReceiptData h ocrText)
     = iso_text (full_year year) month day).
Proof.
  intros Hz Hm H20.
  destruct (parseDate_mdy h ocrText mt (not_ahead_sane h Hz) Hm H20)
    as (a & b & y & Ha & Hb & Hy & Hd).
  exists a, b, y. repeat (split; [assumption|]).
  intros Hc. rewrite (purchase_date_found _ _ _ Hd).
  pose proof (date_re1_year ocrText mt y Hm Hy) as By.
  apply (isoDate_calendar h (full_year y) a b Hz); [|exact Hc].
  unfold full_year. destruct (y <? 100)%Z eqn:E; [lia|]. apply Z.ltb_ge in E. lia.
Qed.

Lemma sane_utc t : sane (utc_host t).
Proof. intros x. simpl. unfold JsDate.msPerDay. lia. Qed.

Lemma not_ahead_utc t : not_ahead (utc_host t).
Proof. intros x. simpl. unfold JsDate.msPerDay. lia. Qed.

(** "03/04/2024" in the UTC zone: 4 March 2024. *)
Lemma date_month_day_year_witness :
  purchase_date (parseReceiptData (utc_host 0) (lit "03/04/2024")) = lit "2024-03-04".
Proof.
  destruct (date_month_day_year (utc_host 0) (lit "03/04/2024")
              (MatchResult 0 (lit "03/04/2024")
                 [(3, lit "2024"); (2, lit "04"); (1, lit "03")])
              (not_ahead_utc 0) eq_refl eq_refl)
    as (month & day & year & Hm & Hd & Hy & H).
  vm_compute in Hm, Hd, Hy.
  injection Hm as <-. injection Hd as <-. injection Hy as <-.
  apply H. reflexivity.
Defined.

Lemma isoDate_march_1 off :
  (- JsDate.msPerDay < off < JsDate.msPerDay)%Z ->
  JsDate.isoDate (march_1_2025 - off)
  = if (0 <? off)%Z then lit "2025-02-28" else lit "2025-03-01".
Proof.
  unfold JsDate.msPerDay, march_1_2025. intros H. unfold JsDate.isoDate.
  destruct (0 <? off)%Z eqn:E.
  - apply Z.ltb_lt in E.
    replace ((1740787200000 - off) / JsDate.msPerDay)%Z with 20147%Z
      by (unfold JsDate.msPerDay; Z.div_mod_to_equations; lia).
    vm_compute. reflexivity.
  - apply Z.ltb_ge in E.
    replace ((1740787200000 - off) / JsDate.msPerDay)%Z with 20148%Z
      by (unfold JsDate.msPerDay; Z.div_mod_to_equations; lia).
    vm_compute. reflexivity.
Qed.

(** C3: on every input that holds "Date: 15/01/2024" with no match of the
    first date pattern before it, the code does not return "2024-01-15".  It
    takes 15 for the month; month 15 of 2024 makes no date, and the guard
    [!isNaN(date.getTime())] that is there to refuse it never fires, since
    the [Date] constructor carries the month over to March 2025:
    [purchase_date] is "2025-03-01" ("2025-02-28" when the zone of the host
    is ahead of UTC). *)
Theorem date_scenario_rollover (h : Host) (pre post : str) :
  sane h ->
  re_match date_re1 pre = None ->
  purchase_date (parseReceiptData h (pre ++ date_scenario ++ post))
  = (if (0 <? LocalTZA h march_1_2025)%Z then lit "2025-02-28" else lit "2025-03-01") /\
  purchase_date (parseReceiptData h (pre ++ date_scenario ++ post)) <> lit "2024-01-15".
Proof.
  intros Hs Hpre.
  destruct (parseDate_mdy h _ _ Hs (date_scenario_search pre post Hpre) eq_refl)
    as (a & b & y & Ha & Hb & Hy & Hd).
  vm_compute in Ha, Hb, Hy. injection Ha as <-. injection Hb as <-. injection Hy as <-.
  rewrite (purchase_date_found _ _ _ Hd).
  change (local_midnight h (if (2024 <? 100)%Z then 2024 + 2000 else 2024)%Z (15 - 1) 1)
    with (march_1_2025 - LocalTZA h march_1_2025)%Z.
  rewrite (isoDate_march_1 _ (Hs march_1_2025)).
  split; [reflexivity|].
  destruct (0 <? LocalTZA h march_1_2025)%Z; discriminate.
Qed.

(** The date scenario alone, in the UTC zone. *)
Lemma date_scenario_rollover_witness :
  purchase_date (parseReceiptData (utc_host 0) date_scenario) = lit "2025-03-01" /\
  purchase_date (parseReceiptData (utc_host 0) date_scenario) <> lit "2024-01-15".
Proof.
  apply (date_scenario_rollover (utc_host 0) [] [] (sane_utc 0)).
  reflexivity.
Defined.


(** * Further properties of [lib/ocr.js] *)

(** ** Normalization *)

Lemma dropWhile_suffix f s : exists p, s = p ++ dropWhile f s.
Proof.
  induction s as [|x s [p IH]]; simpl.
  - exists []. reflexivity.
  - destruct (f x); [exists (x :: p); simpl; f_equal; exact IH | exists []; reflexivity].
Qed.

Lemma dropWhile_head_false f s x r : dropWhile f s = x :: r -> f x = false.
Proof.
  induction s as [|y s IH]; simpl; [discriminate|].
  destruct (f y) eqn:E; [exact IH|]. intros H. injection H as <- _. exact E.
Qed.

Lemma trim_In x s : In x (trim s) -> In x s.
Proof.
  unfold trim. intros H. apply in_rev in H.
  destruct (dropWhile_suffix isSpace (rev (dropWhile isSpace s))) as [p Hp].
  assert (H1 : In x (rev (dropWhile isSpace s))) by (rewrite Hp; apply in_or_app; auto).
  apply in_rev in H1.
  destruct (dropWhile_suffix isSpace s) as [q Hq]. rewrite Hq. apply in_or_app. auto.
Qed.

Lemma trim_ends s : trim s <> [] -> head_visible (trim s) /\ head_visible (rev (trim s)).
Proof.
  unfold trim. intros Hne.
  set (d1 := dropWhile isSpace s) in *.
  destruct (dropWhile isSpace (rev d1)) as [|y r] eqn:E2; [elim Hne; reflexivity|].
  split.
  - destruct (dropWhile_suffix isSpace (rev d1)) as [p Hp]. rewrite E2 in Hp.
    apply (f_equal (@rev N)) in Hp. rewrite rev_involutive, rev_app_distr in Hp.
    destruct (rev (y :: r)) as [|z t] eqn:Er.
    + apply (f_equal (@List.length N)) in Er. rewrite length_rev in Er. discriminate.
    + simpl in Hp. unfold d1 in Hp. simpl.
      apply (dropWhile_head_false isSpace s z (t ++ rev p)). exact Hp.
  - rewrite rev_involutive. simpl. apply (dropWhile_head_false _ _ _ _ E2).
Qed.

Lemma split_char_no_sep sep s : forall cur piece,
  ~ In sep cur -> In piece (split_char sep s cur) -> ~ In sep piece.
Proof.
  induction s as [|x s IH]; simpl; intros cur piece Hc H.
  - destruct H as [<-|[]]. intros Hin. apply in_rev in Hin. auto.
  - destruct (x =? sep)%N eqn:E.
    + destruct H as [<-|H]; [intros Hin; apply in_rev in Hin; auto|].
      apply (IH [] piece); simpl; auto.
    + apply (IH (x :: cur) piece); [|exact H].
      apply N.eqb_neq in E. simpl. intros [->|Hin]; auto.
Qed.

Lemma normalize_trimmed ocrText line : In line (normalize ocrText) -> trimmed line.
Proof.
  unfold normalize. intros H. apply filter_In in H. destruct H as [H Hlen].
  apply in_map_iff in H. destruct H as (piece & <- & Hp).
  assert (Hne : trim piece <> []) by (destruct (trim piece); [discriminate | discriminate]).
  destruct (trim_ends piece Hne) as [H1 H2].
  split; [exact H1|]. split; [exact H2|].
  intros Hin. apply trim_In in Hin.
  apply (split_char_no_sep 10%N ocrText [] piece); simpl; auto.
Qed.

Lemma normalize_all_trimmed ocrText : Forall trimmed (normalize ocrText).
Proof. apply Forall_forall. intros line. apply normalize_trimmed. Qed.

(** X1: every line [parseReceiptData] works on is not empty, begins and
    ends with a code unit that is not a blank, and holds no line feed. *)
Theorem normalize_lines_trimmed (ocrText : str) :
  Forall (fun line => line <> [] /\ trimmed line) (normalize ocrText).
Proof.
  apply Forall_forall. intros line H. apply normalize_trimmed in H.
  split; [|exact H]. destruct H as [H _]. destruct line; [destruct H | discriminate].
Qed.

Lemma dropWhile_visible s : head_visible s -> dropWhile isSpace s = s.
Proof. destruct s as [|x s]; simpl; [tauto|]. intros ->. reflexivity. Qed.

Lemma trim_trimmed s : trimmed s -> trim s = s.
Proof.
  intros (H1 & H2 & _). unfold trim.
  rewrite (dropWhile_visible s H1), (dropWhile_visible (rev s) H2).
  apply rev_involutive.
Qed.

Lemma split_char_app sep x : forall rest cur,
  ~ In sep x ->
  split_char sep (x ++ rest) cur = split_char sep rest (rev x ++ cur).
Proof.
  induction x as [|a x IH]; intros rest cur H; [reflexivity|].
  simpl. destruct (a =? sep)%N eqn:E.
  - apply N.eqb_eq in E. elim H. left. exact E.
  - rewrite IH by (intros Hin; apply H; right; exact Hin).
    rewrite <- app_assoc. reflexivity.
Qed.

Lemma split_char_join sep x l :
  Forall (fun line => ~ In sep line) (x :: l) ->
  split_char sep (join [sep] (x :: l)) [] = x :: l.
Proof.
  revert x. induction l as [|y l IH]; intros x F.
  - simpl. rewrite <- (app_nil_r x) at 1. rewrite split_char_app by (inversion F; auto).
    simpl. rewrite app_nil_r, rev_involutive. reflexivity.
  - change (join [sep] (x :: y :: l)) with (x ++ [sep] ++ join [sep] (y :: l)).
    rewrite split_char_app by (inversion F; auto).
    cbn [app split_char]. rewrite N.eqb_refl, app_nil_r, rev_involutive.
    f_equal. apply IH. inversion F; auto.
Qed.

Lemma normalize_join l : Forall trimmed l -> normalize (join [10%N] l) = l.
Proof.
  intros F. destruct l as [|x l]; [reflexivity|].
  unfold normalize. rewrite split_char_join
    by (eapply Forall_impl; [|exact F]; intros a (_ & _ & H); exact H).
  induction F as [|a l0 Ha F IH]; [reflexivity|].
  cbn [map filter]. rewrite (trim_trimmed a Ha).
  destruct a as [|c a]; [destruct Ha as [[] _]|].
  cbn [List.length Nat.ltb Nat.leb]. f_equal. exact IH.
Qed.

(** X2: normalization is idempotent: the normalized lines, joined by line
    feeds, normalize to themselves. *)
Theorem normalize_idempotent (ocrText : str) :
  normalize (join [10%N] (normalize ocrText)) = normalize ocrText.
Proof. apply normalize_join, normalize_all_trimmed. Qed.

(** ** The store's name and address *)

Lemma store_step_skip st line : store_keeps line = false ->
  fst (store_step st line) = fst st.
Proof.
  destruct st as [[sn ap] w]. unfold store_keeps, store_step.
  destruct line as [|x line]; [reflexivity|]. cbn [List.length Nat.eqb negb andb].
  intros H. apply negb_false_iff in H. rewrite H. reflexivity.
Qed.

Lemma store_step_keep sn ap w line : store_keeps line = true ->
  fst (store_step (sn, ap, w) line) =
  match sn with
  | None => if looks_like_name line then (Some line, ap) else (None, ap)
  | Some n => if List.length ap <? 3 then (sn, ap ++ [line]) else (sn, ap)
  end.
Proof.
  unfold store_keeps, store_step, looks_like_name.
  destruct line as [|x line]; [discriminate|]. cbn [List.length Nat.eqb negb andb].
  intros H. apply negb_true_iff in H. rewrite H.
  destruct sn as [n|].
  - rewrite andb_false_r. cbn [andb]. destruct (List.length ap <? 3); reflexivity.
  - rewrite andb_true_r.
    destruct (negb (Qle_bool (upperRatio (x :: line)) (1 # 2)) || hasKeyword (x :: line));
      reflexivity.
Qed.

Lemma fold_store_named l : forall n ap w,
  fst (fold_left store_step l (Some n, ap, w))
  = (Some n, ap ++ firstn (3 - List.length ap) (filter store_keeps l)).
Proof.
  induction l as [|line l IH]; intros n ap w.
  - simpl. rewrite firstn_nil, app_nil_r. reflexivity.
  - cbn [fold_left filter]. destruct (store_keeps line) eqn:K.
    + pose proof (store_step_keep (Some n) ap w line K) as H.
      destruct (store_step (Some n, ap, w) line) as [[sn' ap'] w']. cbn [fst] in H.
      destruct (List.length ap <? 3) eqn:E; injection H as -> ->.
      * rewrite IH, length_app. cbn [List.length]. apply Nat.ltb_lt in E.
        destruct (3 - List.length ap) as [|k] eqn:Ek; [lia|].
        replace (3 - (List.length ap + 1)) with k by lia.
        cbn [firstn]. rewrite <- app_assoc. reflexivity.
      * rewrite IH. apply Nat.ltb_ge in E.
        replace (3 - List.length ap) with 0 by lia. reflexivity.
    + pose proof (store_step_skip (Some n, ap, w) line K) as H.
      destruct (store_step (Some n, ap, w) line) as [[sn' ap'] w']. cbn [fst] in H.
      injection H as -> ->. apply IH.
Qed.

Lemma fold_store_unnamed l : forall w,
  fst (fold_left store_step l (None, [], w))
  = (find looks_like_name (filter store_keeps l),
     firstn 3 (after_name (filter store_keeps l))).
Proof.
  induction l as [|line l IH]; intros w; [reflexivity|].
  cbn [fold_left filter]. destruct (store_keeps line) eqn:K.
  - pose proof (store_step_keep None [] w line K) as H.
    destruct (store_step (None, [], w) line) as [[sn' ap'] w']. cbn [fst] in H.
    cbn [find after_name]. destruct (looks_like_name line); injection H as -> ->.
    + rewrite fold_store_named. reflexivity.
    + apply IH.
  - pose proof (store_step_skip (None, [], w) line K) as H.
    destruct (store_step (None, [], w) line) as [[sn' ap'] w']. cbn [fst] in H.
    injection H as -> ->. apply IH.
Qed.

Lemma extractStoreInfo_spec lines :
  si_store_name (extractStoreInfo lines) = find looks_like_name (store_lines lines) /\
  si_address (extractStoreInfo lines)
  = match firstn 3 (after_name (store_lines lines)) with
    | [] => None
    | (_ :: _) as parts => Some (join (lit ", ") parts)
    end.
Proof.
  unfold extractStoreInfo, store_lines.
  generalize (firstn 10 lines). intros ls.
  pose proof (fold_store_unnamed ls None) as H.
  destruct (fold_left store_step ls (None, [], None)) as [[sn ap] w].
  cbn [fst] in H.
  remember (firstn 3 (after_name (filter store_keeps ls))) as parts eqn:Ep.
  remember (find looks_like_name (filter store_keeps ls)) as name eqn:En.
  clear Ep En. injection H as -> ->. cbn [si_store_name si_address].
  split; [reflexivity|]. destruct parts; reflexivity.
Qed.

Lemma find_nonempty (f : str -> bool) l n :
  find f (filter store_keeps l) = Some n -> n <> [].
Proof.
  intros H. apply find_some in H. destruct H as [H _].
  apply filter_In in H. destruct H as [_ H]. unfold store_keeps in H.
  destruct n; [discriminate | discriminate].
Qed.

(** X3: [store_name] is the first line, among the first ten normalized lines
    that do not match the URL pattern, whose upper-case ratio is above one
    half or that holds a store keyword; a later line that qualifies never
    replaces it, and without such a line the name is "Unknown Store". *)
Theorem store_name_first (h : Host) (ocrText : str) :
  store_name (parseReceiptData h ocrText)
  = match find looks_like_name (store_lines (normalize ocrText)) with
    | Some name => name
    | None => lit "Unknown Store"
    end.
Proof.
  unfold parseReceiptData. cbn [store_name].
  destruct (extractStoreInfo_spec (normalize ocrText)) as [-> _].
  destruct (find looks_like_name (store_lines (normalize ocrText))) as [n|] eqn:E;
    [|reflexivity].
  apply find_nonempty in E. destruct n; [congruence | reflexivity].
Qed.

(** X4: [store_address] is made of the lines that follow the store name
    among the first ten normalized lines, URL lines left out: the first
    three of them joined by ", ", fewer when fewer follow, and [null] when
    none follows or no name was found. *)
Theorem store_address_follows_name (h : Host) (ocrText : str) :
  store_address (parseReceiptData h ocrText)
  = match firstn 3 (after_name (store_lines (normalize ocrText))) with
    | [] => None
    | (_ :: _) as parts => Some (join (lit ", ") parts)
    end /\
  (find looks_like_name (store_lines (normalize ocrText)) = None ->
   store_address (parseReceiptData h ocrText) = None).
Proof.
  unfold parseReceiptData. cbn [store_address].
  destruct (extractStoreInfo_spec (normalize ocrText)) as [_ ->].
  split; [reflexivity|].
  intros H. induction (store_lines (normalize ocrText)) as [|line l IH]; [reflexivity|].
  cbn [find after_name] in *. destruct (looks_like_name line); [discriminate | auto].
Qed.

(** No line of "12 main st" looks like a name. *)
Lemma store_address_follows_name_witness :
  store_address (parseReceiptData (utc_host 0) (lit "12 main st")) = None.
Proof.
  apply (proj2 (store_address_follows_name (utc_host 0) (lit "12 main st"))).
  reflexivity.
Defined.

(** ** Receipt numbers *)

Lemma icase_id_char x : icase alnum_dash x = true -> id_char x = true.
Proof.
  intros H. unfold id_char.
  destruct (isUpper x) eqn:U; [reflexivity|].
  destruct (isLower x) eqn:L; [reflexivity|].
  destruct (isDigit x) eqn:D; [reflexivity|].
  unfold icase, upper1, lowerA in H. rewrite U, L in H.
  unfold alnum_dash in H. rewrite U, D in H.
  unfold oneOf in H. simpl in H.
  destruct (x =? 45)%N; [reflexivity | discriminate].
Qed.

Lemma icase_alnum_dash x : icase alnum x = true -> icase alnum_dash x = true.
Proof.
  unfold icase, alnum_dash, alnum. intros H.
  repeat (apply orb_true_iff in H; destruct H as [H|H]);
    rewrite H; rewrite ?orb_true_r; reflexivity.
Qed.

Lemma receipt_id_text j s e c :
  m receipt_id accept j s [] = Some (e, c) ->
  exists g rest, s = g ++ rest /\ getcap 1 c = Some g /\
                 2 <= List.length g /\ forallb id_char g = true.
Proof.
  cbn [receipt_id m]. destruct s as [|x s]; [discriminate|].
  destruct (icase alnum x) eqn:Ex; [|discriminate].
  intros H. apply rep_inv in H. destruct H as (n & Hn & _ & Hlen & Hall & H).
  cbv beta in H. replace (S j + n - j) with (S n) in H by lia.
  unfold accept in H. injection H as <- <-.
  exists (x :: firstn n s), (skipn n s). cbn [app]. rewrite firstn_skipn.
  split; [reflexivity|]. split; [reflexivity|].
  split; [cbn [List.length]; rewrite length_firstn; lia|].
  cbn [forallb]. rewrite (icase_id_char x (icase_alnum_dash x Ex)). cbn [andb].
  rewrite forallb_forall in *. intros y Hy. apply icase_id_char, Hall, Hy.
Qed.

Lemma extractReceiptNumber_text text n :
  extractReceiptNumber text = Some n ->
  2 <= List.length n /\ forallb id_char n = true /\
  exists pre post, text = pre ++ n ++ post.
Proof.
  unfold extractReceiptNumber, re_match.
  destruct (search_from receipt_re 0 text) as [mt|] eqn:E; [|discriminate].
  intros H. injection H as <-.
  apply search_from_inv in E. destruct E as (s1 & s2 & e & c & -> & Hm & ->).
  unfold receipt_re in Hm. cbn [Cats] in Hm.
  apply m_Cat_sound in Hm; [|cbn; tauto]. destruct Hm as (w1 & r1 & -> & Hm).
  apply m_Cat_sound in Hm; [|cbn; tauto]. destruct Hm as (w2 & r2 & -> & Hm).
  apply m_Cat_sound in Hm; [|cbn; tauto]. destruct Hm as (w3 & r3 & -> & Hm).
  apply m_Cat_sound in Hm; [|cbn; tauto]. destruct Hm as (w4 & r4 & -> & Hm).
  apply m_Cat_sound in Hm; [|cbn; tauto]. destruct Hm as (w5 & r5 & -> & Hm).
  apply m_Cat_sound in Hm; [|cbn; tauto]. destruct Hm as (w6 & r6 & -> & Hm).
  apply receipt_id_text in Hm. destruct Hm as (g & rest & -> & Hc & Hlen & Hall).
  unfold group. cbn [m_caps]. rewrite Hc.
  split; [exact Hlen|]. split; [exact Hall|].
  exists (s1 ++ w1 ++ w2 ++ w3 ++ w4 ++ w5 ++ w6), rest.
  rewrite <- !app_assoc. reflexivity.
Qed.

(** X5: [receipt_number] is either the placeholder "REC-" followed by the
    clock, when the text holds no number, or a piece of the text itself: at
    least two code units, each an ASCII letter, a digit or a hyphen. *)
Theorem receipt_number_shape (h : Host) (ocrText : str) :
  let n := receipt_number (parseReceiptData h ocrText) in
  (extractReceiptNumber ocrText = None /\ n = lit "REC-" ++ str_of_Z (clock_now h)) \/
  (extractReceiptNumber ocrText = Some n /\
   2 <= List.length n /\ forallb id_char n = true /\
   exists pre post, ocrText = pre ++ n ++ post).
Proof.
  cbn zeta. unfold parseReceiptData. cbn [receipt_number].
  destruct (extractReceiptNumber ocrText) as [n|] eqn:E; [right | left; auto].
  destruct (extractReceiptNumber_text ocrText n E) as (Hlen & Hall & Hsub).
  destruct n as [|x n]; [simpl in Hlen; lia|]. cbn [orText]. auto.
Qed.

(** ** Payment methods *)

Lemma rep_text p lo hi k i s c res :
  rep p lo hi k i s c = Some res ->
  exists g rest, s = g ++ rest /\ lo <= List.length g /\
                 (forall h, hi = Some h -> List.length g <= h) /\
                 forallb p g = true /\ k (i + List.length g) rest c = Some res.
Proof.
  intros H. apply rep_inv in H. destruct H as (n & Hlo & Hhi & Hlen & Hall & Hk).
  assert (Hn : List.length (firstn n s) = n) by (rewrite length_firstn; lia).
  exists (firstn n s), (skipn n s). rewrite firstn_skipn, Hn. auto.
Qed.

Lemma firstn_app_length {A : Type} (g rest : list A) n :
  n = List.length g -> firstn n (g ++ rest) = g.
Proof.
  intros ->. rewrite firstn_app, Nat.sub_diag, firstn_all, app_nil_r. reflexivity.
Qed.

Lemma card_re_text j s e c :
  m card_re accept j s [] = Some (e, c) ->
  masked_card (firstn (e - j) s) /\ exists rest, s = firstn (e - j) s ++ rest.
Proof.
  unfold card_re. cbn [m]. intros H.
  apply rep_text in H. destruct H as (stars & r1 & -> & Hlo & _ & Hstars & H).
  apply rep_text in H. destruct H as (ds & r2 & -> & Hlo2 & Hhi2 & Hds & H).
  specialize (Hhi2 4 eq_refl). unfold accept in H. injection H as <- <-.
  rewrite app_assoc.
  rewrite (firstn_app_length (stars ++ ds) r2) by (rewrite length_app; lia).
  split; [|exists r2; reflexivity].
  exists stars, ds. repeat split; auto; try lia.
  rewrite forallb_forall in *. intros x Hx. specialize (Hstars x Hx).
  unfold oneOf in Hstars. simpl in Hstars. rewrite orb_false_r in Hstars.
  rewrite N.eqb_sym. exact Hstars.
Qed.

Lemma payment_loop_find text lower ms :
  payment_loop text lower ms
  = match find (fun method => includes method lower) ms with
    | None => None
    | Some method =>
        Some match re_match card_re text with
             | Some cardMatch => toUpperCase method ++ lit " " ++ m_text cardMatch
             | None => toUpperCase method
             end
    end.
Proof.
  induction ms as [|method ms IH]; [reflexivity|].
  cbn [payment_loop find]. destruct (includes method lower); [|exact IH].
  destruct (re_match card_re text); reflexivity.
Qed.

(** X6: [payment_method] is [null] exactly when the lowered text holds none
    of the nine keywords; otherwise it is the first keyword of the list that
    occurs, in upper case, alone when the text has no masked card number, and
    else followed by a blank and a masked card number taken from the text
    (four asterisks or more, then four digits). *)
Theorem payment_method_spec (h : Host) (ocrText : str) :
  let p := payment_method (parseReceiptData h ocrText) in
  match first_method ocrText with
  | None => p = None
  | Some method =>
      (re_match card_re ocrText = None /\ p = Some (toUpperCase method)) \/
      (exists token pre post,
         masked_card token /\ ocrText = pre ++ token ++ post /\
         p = Some (toUpperCase method ++ lit " " ++ token))
  end.
Proof.
  cbn zeta. unfold parseReceiptData. cbn [payment_method].
  unfold extractPaymentMethod, first_method. rewrite payment_loop_find.
  destruct (find _ methods) as [method|]; [|reflexivity].
  destruct (re_match card_re ocrText) as [cm|] eqn:E; [right | left; auto].
  unfold re_match in E. apply search_from_inv in E.
  destruct E as (s1 & s2 & e & c & -> & Hm & ->). cbn [m_text].
  apply card_re_text in Hm. destruct Hm as [Hcard [rest Hrest]].
  exists (firstn (e - (0 + List.length s1)) s2), s1, rest.
  split; [exact Hcard|]. split; [rewrite <- Hrest; reflexivity | reflexivity].
Qed.

(** ** Currency *)

Lemma currency_loop_some text l code :
  currency_loop text l = Some code ->
  exists symbol, In (symbol, code) l /\ includes symbol text = true.
Proof.
  induction l as [|[symbol c] l IH]; [discriminate|].
  cbn [currency_loop]. destruct (includes symbol text) eqn:E.
  - intros H. injection H as <-. exists symbol. split; [left; reflexivity | exact E].
  - intros H. destruct (IH H) as (s & Hin & Hs). exists s. split; [right|]; assumption.
Qed.

(** X7: [currency] is always one of the six codes of the table; it is "USD"
    whenever the text holds a dollar sign, whatever other symbols it holds,
    and a code other than "USD" is reported only when its symbol occurs in
    the text. *)
Theorem currency_code (h : Host) (ocrText : str) :
  let c := currency (parseReceiptData h ocrText) in
  In c (map snd symbols) /\
  (includes [36%N] ocrText = true -> c = lit "USD") /\
  (c <> lit "USD" -> exists symbol, In (symbol, c) symbols /\ includes symbol ocrText = true).
Proof.
  cbn zeta. unfold parseReceiptData. cbn [currency]. unfold inferCurrency.
  destruct (currency_loop ocrText symbols) as [code|] eqn:E.
  - destruct (currency_loop_some _ _ _ E) as (symbol & Hin & Hs).
    assert (Hne : code <> []).
    { simpl in Hin. intuition; match goal with H : _ = (_, code) |- _ =>
        injection H as _ <- end; discriminate. }
    assert (Ho : orText (Some code) (lit "USD") = code) by (destruct code; [congruence | reflexivity]).
    rewrite Ho. split; [apply in_map_iff; exists (symbol, code); auto|].
    split; [|intros _; exists symbol; auto].
    intros H. unfold symbols in E. cbn [currency_loop] in E. rewrite H in E.
    injection E as <-. reflexivity.
  - cbn [orText]. split; [left; reflexivity|]. split; [reflexivity | congruence].
Qed.

(** A dollar sign before a pound sign, and a pound sign alone. *)
Lemma currency_code_witness :
  currency (parseReceiptData (utc_host 0) [36%N; 53%N; 32%N; 163%N; 53%N]) = lit "USD" /\
  exists symbol,
    In (symbol, currency (parseReceiptData (utc_host 0) [163%N; 53%N])) symbols /\
    includes symbol [163%N; 53%N] = true.
Proof.
  split.
  - apply (proj1 (proj2 (currency_code (utc_host 0) [36%N; 53%N; 32%N; 163%N; 53%N]))).
    reflexivity.
  - apply (proj2 (proj2 (currency_code (utc_host 0) [163%N; 53%N]))).
    vm_compute. discriminate.
Defined.

(** ** The items region *)

Lemma itemsEnd_cut pre line post :
  isTotalsLine line = true ->
  firstn (itemsEnd (pre ++ line :: post)) (pre ++ line :: post)
  = firstn (itemsEnd pre) pre.
Proof.
  intros H. induction pre as [|x pre IH].
  - simpl. rewrite H. reflexivity.
  - cbn [app itemsEnd]. destruct (isTotalsLine x); [reflexivity|].
    cbn [firstn]. rewrite IH. reflexivity.
Qed.

(** X8: the lines from the first one with a totals keyword on never give
    items: whatever follows a line with "subtotal", "total", "grand", "tax",
    "vat" or "gst", the items are those of the lines before it. *)
Theorem items_stop_at_totals (pre post : list str) (line : str) :
  isTotalsLine line = true ->
  parseItems (pre ++ line :: post) = parseItems pre.
Proof.
  intros H. unfold parseItems. rewrite (itemsEnd_cut pre line post H). reflexivity.
Qed.

(** A priced line after the total is no item. *)
Lemma items_stop_at_totals_witness :
  parseItems ([lit "TEA 2.00"] ++ lit "Total 2.00" :: [lit "MUG 3.00"])
  = parseItems [lit "TEA 2.00"].
Proof.
  apply (items_stop_at_totals [lit "TEA 2.00"] [lit "MUG 3.00"] (lit "Total 2.00")).
  reflexivity.
Defined.

(** ** Items and their lines *)

Lemma split_from_head r s : forall i cur,
  exists p q pieces, split_from r i s 0 cur = (rev cur ++ p) :: pieces /\ s = p ++ q.
Proof.
  induction s as [|x s IH]; intros i cur.
  - exists [], [], []. simpl. rewrite app_nil_r. auto.
  - cbn [split_from]. destruct (m r accept i (x :: s) []) as [[e c]|].
    + destruct (Nat.eqb e i).
      * destruct cur as [|y cur].
        -- destruct (IH (S i) [x]) as (p & q & pieces & -> & ->).
           exists (x :: p), q, pieces. auto.
        -- exists [], (x :: s), (split_from r (S i) s 0 [x]).
           rewrite app_nil_r. auto.
      * exists [], (x :: s), (split_from r (S i) s (e - i - 1) []).
        rewrite app_nil_r. auto.
    + destruct (IH (S i) (x :: cur)) as (p & q & pieces & -> & ->).
      exists (x :: p), q, pieces. cbn [rev]. rewrite <- app_assoc. auto.
Qed.

Lemma re_split_head lo x s :
  0 < lo -> isSpace x = false ->
  exists p q pieces,
    re_split (Rep isSpace lo None) (x :: s) = (x :: p) :: pieces /\ s = p ++ q.
Proof.
  intros Hlo Hx. unfold re_split. cbn [split_from m rep]. rewrite Hx. cbn [andb].
  destruct (Nat.eqb lo 0) eqn:E; [apply Nat.eqb_eq in E; lia|].
  destruct (split_from_head (Rep isSpace lo None) s 1 [x]) as (p & q & pieces & H & ->).
  exists p, q, pieces. rewrite H. auto.
Qed.

Lemma parts_of_head x s :
  isSpace x = false ->
  exists p q pieces, parts_of (x :: s) = (x :: p) :: pieces /\ s = p ++ q.
Proof.
  intros Hx. unfold parts_of, gap_re, blank_re.
  destruct (List.length (re_split (Rep isSpace 2 None) (x :: s)) <? 2).
  - apply re_split_head; [lia | exact Hx].
  - apply re_split_head; [lia | exact Hx].
Qed.

Lemma money_text k i s c res :
  m money k i s c = Some res ->
  exists token rest,
    s = token ++ rest /\ money_token token /\
    k (i + List.length token) rest c = Some res.
Proof.
  unfold money. cbn [Cats m]. intros H.
  apply rep_text in H. destruct H as (w & r1 & -> & Hlo & _ & Hw & H).
  destruct r1 as [|x r1]; [discriminate|].
  destruct (oneOf "." x) eqn:Ex; [|discriminate]. apply oneOf_dot in Ex. subst x.
  apply rep_text in H. destruct H as (ds & r2 & -> & Hlo2 & Hhi2 & Hds & H).
  specialize (Hhi2 2 eq_refl).
  destruct ds as [|d1 [|d2 [|d3 ds]]]; simpl in Hlo2, Hhi2; try lia.
  cbn [forallb] in Hds. rewrite andb_true_r in Hds.
  apply andb_true_iff in Hds. destruct Hds as [H1 H2].
  exists (w ++ [46%N; d1; d2]), r2.
  split; [rewrite <- app_assoc; reflexivity|].
  split.
  - exists w, d1, d2. repeat split; auto. destruct w; [simpl in Hlo; lia | discriminate].
  - rewrite length_app. cbn [List.length] in *.
    replace (i + (List.length w + 3)) with (S (i + List.length w) + 2) by lia. exact H.
Qed.

Lemma last_is_space front sp :
  sp <> [] -> forallb isSpace sp = true -> ~ head_visible (rev (front ++ sp)).
Proof.
  intros Hne Hsp. rewrite rev_app_distr.
  destruct (rev sp) as [|y r] eqn:E.
  - apply (f_equal (@rev N)) in E. rewrite rev_involutive in E. simpl in E. contradiction.
  - simpl. assert (In y sp) by (apply in_rev; rewrite E; left; reflexivity).
    rewrite forallb_forall in Hsp. rewrite (Hsp y H). discriminate.
Qed.

(** The match of the price pattern on a line that does not end with a
    blank: its group is the money token that ends the line. *)
Lemma price_match_text line pm :
  head_visible (rev line) ->
  re_match price_re line = Some pm ->
  exists front, line = front ++ group 1 pm /\ money_token (group 1 pm).
Proof.
  intros Hv H. unfold re_match in H. apply search_from_inv in H.
  destruct H as (s1 & s2 & e & c & -> & Hm & ->).
  unfold price_re in Hm. cbn [Cats] in Hm. cbn [m] in Hm.
  apply money_text in Hm. destruct Hm as (token & rest & -> & Htok & Hm).
  apply rep_text in Hm. destruct Hm as (sp & r2 & -> & _ & _ & Hsp & Hm).
  destruct r2 as [|y r2]; [|discriminate].
  unfold accept in Hm. injection Hm as <- <-.
  unfold group. cbn [m_caps getcap Nat.eqb].
  rewrite (firstn_app_length token (sp ++ [])) by lia.
  destruct sp as [|z sp].
  - exists s1. rewrite app_nil_r. auto.
  - exfalso. rewrite app_nil_r in Hv. rewrite app_assoc in Hv.
    apply (last_is_space (s1 ++ token) (z :: sp)); [discriminate | exact Hsp | exact Hv].
Qed.

Lemma parseAmount_token token : money_token token -> amount_val (parseAmount token).
Proof.
  intros (w & d1 & d2 & -> & _ & Hw & H1 & H2).
  unfold parseAmount. rewrite filter_app. cbn [filter].
  rewrite (no_comma_digit d1 H1), (no_comma_digit d2 H2).
  change (negb (oneOf "," 46%N)) with true. cbv iota.
  apply parseFloat_decimal; auto. apply filter_digits, Hw.
Qed.

(** No match begins before the one [search_from] returns. *)
Lemma search_from_first r s : forall i mt,
  search_from r i s = Some mt ->
  forall u v, s = u ++ v -> i + List.length u < m_index mt ->
  m r accept (i + List.length u) v [] = None.
Proof.
  induction s as [|x s IH]; intros i mt H u v E L; cbn [search_from] in H.
  - destruct u; [|discriminate]. simpl in E. subst v.
    destruct (m r accept i [] []) as [[e c]|] eqn:Em; [|discriminate].
    injection H as <-. simpl in L. lia.
  - destruct (m r accept i (x :: s) []) as [[e c]|] eqn:Em.
    + injection H as <-. simpl in L. lia.
    + destruct u as [|y u].
      * simpl in E. subst v. rewrite Nat.add_0_r. exact Em.
      * simpl in E. injection E as <- ->.
        replace (i + List.length (x :: u)) with (S i + List.length u) by (simpl; lia).
        apply (IH (S i) mt H u v eq_refl). simpl in L. lia.
Qed.

(** The price pattern matches at the head of every run of digits and commas
    that a point and two digits follow to the end of the text. *)
Lemma price_re_complete j w d1 d2 :
  w <> [] -> forallb digit_or_comma w = true ->
  isDigit d1 = true -> isDigit d2 = true ->
  m price_re accept j (w ++ [46%N; d1; d2]) [] <> None.
Proof.
  intros Hne Hw H1 H2. unfold price_re, money. cbn [Cats m].
  apply (rep_complete digit_or_comma _ _ (List.length w)).
  - destruct w; [contradiction | simpl; lia].
  - discriminate.
  - rewrite length_app. lia.
  - rewrite (firstn_app_length w _ _ eq_refl). exact Hw.
  - rewrite skipn_app, Nat.sub_diag, skipn_all. cbn [app skipn].
    change (oneOf "." 46%N) with true. cbv iota. cbn [rep].
    rewrite H1, H2. cbn. discriminate.
Qed.

(** The token of the match of the price pattern begins where the run of
    digits and commas before its point begins. *)
Lemma price_match_leftmost line pm :
  head_visible (rev line) ->
  re_match price_re line = Some pm ->
  exists front,
    line = front ++ group 1 pm /\ money_token (group 1 pm) /\ cut_before_token front.
Proof.
  intros Hv H. destruct (price_match_text line pm Hv H) as (front & Hf & Htok).
  exists front. split; [exact Hf|]. split; [exact Htok|].
  unfold cut_before_token. destruct (rev front) as [|x r] eqn:Er; [exact I|].
  destruct (digit_or_comma x) eqn:Ex; [exfalso | reflexivity].
  assert (Efront : front = rev r ++ [x]).
  { apply (f_equal (@rev N)) in Er. rewrite rev_involutive in Er. exact Er. }
  destruct Htok as (w & d1 & d2 & Etok & Hne & Hw & H1 & H2).
  assert (Hidx : m_index pm = List.length front).
  { unfold re_match in H. pose proof H as H'. apply search_from_inv in H'.
    destruct H' as (s1 & s2 & e & c & E1 & Hm & Epm).
    unfold price_re in Hm. cbn [Cats] in Hm. cbn [m] in Hm.
    apply money_text in Hm. destruct Hm as (token & rest & -> & _ & Hm).
    apply rep_text in Hm. destruct Hm as (sp & r2 & -> & _ & _ & Hsp & Hm).
    destruct r2 as [|y r2]; [|discriminate].
    unfold accept in Hm. injection Hm as <- <-.
    assert (Eg : group 1 pm = token).
    { rewrite Epm. unfold group. cbn [m_caps getcap Nat.eqb].
      apply firstn_app_length. lia. }
    destruct sp as [|z sp].
    - rewrite app_nil_r in E1. rewrite Eg, E1 in Hf.
      apply (f_equal (@List.length N)) in Hf. rewrite !length_app in Hf.
      rewrite Epm. simpl. lia.
    - exfalso. rewrite E1, app_nil_r, app_assoc in Hv.
      apply (last_is_space (s1 ++ token) (z :: sp)); [discriminate | exact Hsp | exact Hv]. }
  assert (Hnone := search_from_first price_re line 0 pm H (rev r) (x :: group 1 pm)).
  rewrite Hf, Efront, <- app_assoc in Hnone. specialize (Hnone eq_refl).
  rewrite Hidx, Efront, length_app in Hnone. simpl in Hnone.
  specialize (Hnone ltac:(lia)).
  rewrite Etok in Hnone.
  apply (price_re_complete (List.length (rev r)) (x :: w) d1 d2);
    [discriminate | simpl; rewrite Ex; exact Hw | exact H1 | exact H2 | exact Hnone].
Qed.

Lemma item_of_line_line n line it :
  trimmed line -> item_of_line n line = Some it ->
  item_of it line /\ serial_no it = n + 1.
Proof.
  intros (Hh & Hr & _) H. unfold item_of_line in H.
  destruct (re_match price_re line) as [pm|] eqn:E; [|discriminate].
  destruct (fold_left _ _ _) as [qty unitPrice].
  injection H as <-. cbn [description total_price serial_no]. split; [|reflexivity].
  destruct (price_match_leftmost _ pm Hr E) as (front & Hf & Htok & Hcut).
  assert (Hparts : (match parts_of line with p :: _ => p | [] => [] end)
                   = hd [] (parts_of line)) by (destruct (parts_of line); reflexivity).
  rewrite Hparts. split; [reflexivity|].
  destruct line as [|x s]; [destruct Hh|]. simpl in Hh.
  destruct (parts_of_head x s Hh) as (p & q & pieces & Ep & Es).
  rewrite Ep. cbn [hd].
  split; [discriminate|]. split; [exists q; rewrite Es; reflexivity|].
  exists front, (group 1 pm). auto.
Qed.

(** A run of code units of a class is fixed by what surrounds it. *)
Lemma run_unique (p : char -> bool) : forall u1 u2 v1 v2 : str,
  u1 ++ v1 = u2 ++ v2 ->
  forallb p u1 = true -> forallb p u2 = true ->
  match v1 with x :: _ => p x = false | [] => True end ->
  match v2 with x :: _ => p x = false | [] => True end ->
  u1 = u2.
Proof.
  induction u1 as [|x u1 IH]; intros u2 v1 v2 E R1 R2 C1 C2.
  - destruct u2 as [|y u2]; [reflexivity|]. simpl in E. subst v1.
    simpl in R2. apply andb_true_iff in R2. destruct R2 as [Hy _]. congruence.
  - destruct u2 as [|y u2].
    + simpl in E. subst v2.
      simpl in R1. apply andb_true_iff in R1. destruct R1 as [Hx _]. congruence.
    + simpl in E. injection E as <- E.
      simpl in R1, R2. apply andb_true_iff in R1, R2.
      destruct R1 as [_ R1]. destruct R2 as [_ R2].
      f_equal. apply (IH u2 v1 v2 E R1 R2 C1 C2).
Qed.

(** The money token that ends a line is fixed by the line. *)
Lemma money_suffix_unique front1 token1 front2 token2 :
  front1 ++ token1 = front2 ++ token2 ->
  money_token token1 -> money_token token2 ->
  cut_before_token front1 -> cut_before_token front2 ->
  token1 = token2.
Proof.
  intros E (w1 & a1 & b1 & -> & _ & Hw1 & _) (w2 & a2 & b2 & -> & _ & Hw2 & _) C1 C2.
  apply (f_equal (@rev N)) in E.
  rewrite !rev_app_distr in E. cbn [rev app] in E.
  injection E as Eb Ea E. subst a2 b2.
  rewrite <- (forallb_rev digit_or_comma) in Hw1, Hw2.
  pose proof (run_unique digit_or_comma _ _ _ _ E Hw1 Hw2 C1 C2) as Hw.
  apply (f_equal (@rev N)) in Hw. rewrite !rev_involutive in Hw. subst w2. reflexivity.
Qed.

(** A line fixes the description and the total price of its item. *)
Lemma item_of_determines it it' line :
  item_of it line -> item_of it' line ->
  description it = description it' /\ total_price it = total_price it'.
Proof.
  intros (D1 & _ & _ & f1 & t1 & E1 & M1 & C1 & P1)
         (D2 & _ & _ & f2 & t2 & E2 & M2 & C2 & P2).
  split; [congruence|].
  rewrite P1, P2. f_equal.
  apply (money_suffix_unique f1 t1 f2 t2); auto. congruence.
Qed.

Lemma item_of_line_priced n line : isSome (item_of_line n line) = priced line.
Proof.
  unfold item_of_line, priced. destruct (re_match price_re line); [|reflexivity].
  destruct (fold_left _ _ _). reflexivity.
Qed.

Lemma fold_items_lines l : forall acc,
  Forall trimmed l ->
  exists its, fold_left items_step l acc = acc ++ its /\
              Forall2 item_of its (filter priced l).
Proof.
  induction l as [|line l IH]; intros acc F.
  - exists []. simpl. rewrite app_nil_r. auto.
  - cbn [fold_left filter]. unfold items_step at 2.
    pose proof (item_of_line_priced (List.length acc) line) as Hp.
    pose proof (Forall_inv F) as Hl. apply Forall_inv_tail in F.
    destruct (item_of_line (List.length acc) line) as [it|] eqn:E.
    + simpl in Hp. rewrite <- Hp.
      destruct (IH (acc ++ [it]) F) as (its & -> & H2).
      exists (it :: its). rewrite <- app_assoc. split; [reflexivity|].
      constructor; [|exact H2]. apply (item_of_line_line _ _ _ Hl E).
    + simpl in Hp. rewrite <- Hp. apply IH, F.
Qed.

Lemma Forall_firstn {A : Type} (P : A -> Prop) n (l : list A) :
  Forall P l -> Forall P (firstn n l).
Proof.
  intros F. apply Forall_forall. intros x Hx.
  rewrite Forall_forall in F. apply F. rewrite <- (firstn_skipn n l).
  apply in_or_app. auto.
Qed.

(** X9: the items are, in order, one for each line of the items region (the
    normalized lines before the first totals keyword) that ends with a
    price, and none for the other lines; the description of an item is the
    first column of its line, a head of the line that is not empty, and its
    total price is the value of the money token that ends the line, the
    whole run of digits and commas before the point included.  The line
    fixes both: two items that stand in this relation to one line have the
    same description and the same total price. *)
Theorem items_of_priced_lines (h : Host) (ocrText : str) :
  Forall2 item_of (items (parseReceiptData h ocrText))
          (filter priced (items_region (normalize ocrText))) /\
  (forall it it' line,
     item_of it line -> item_of it' line ->
     description it = description it' /\ total_price it = total_price it').
Proof.
  split; [|exact item_of_determines].
  unfold parseReceiptData, parseItems, items_region. cbn [items].
  destruct (fold_items_lines (firstn (itemsEnd (normalize ocrText)) (normalize ocrText)) [])
    as (its & -> & H).
  - apply Forall_firstn, normalize_all_trimmed.
  - exact H.
Qed.

(** On "ITEM 1,234.56" the item of the code, whose total is 1234.56, and
    another item of the line. *)
Lemma items_of_priced_lines_witness :
  description {| description := lit "ITEM"; quantity := Num 1;
                 unit_price := Some (Num (30864 # 25));
                 total_price := Num (30864 # 25); serial_no := 1 |}
  = description {| description := lit "ITEM"; quantity := Num 2;
                   unit_price := None;
                   total_price := parseAmount (lit "1,234.56"); serial_no := 7 |} /\
  total_price {| description := lit "ITEM"; quantity := Num 1;
                 unit_price := Some (Num (30864 # 25));
                 total_price := Num (30864 # 25); serial_no := 1 |}
  = total_price {| description := lit "ITEM"; quantity := Num 2;
                   unit_price := None;
                   total_price := parseAmount (lit "1,234.56"); serial_no := 7 |}.
Proof.
  assert (F := proj1 (items_of_priced_lines (utc_host 0) (lit "ITEM 1,234.56"))).
  vm_compute in F. inversion_clear F as [|it line its lines Hit _].
  apply (proj2 (items_of_priced_lines (utc_host 0) (lit "ITEM 1,234.56"))
           {| description := lit "ITEM"; quantity := Num 1;
              unit_price := Some (Num (30864 # 25));
              total_price := Num (30864 # 25); serial_no := 1 |}
           {| description := lit "ITEM"; quantity := Num 2;
              unit_price := None;
              total_price := parseAmount (lit "1,234.56"); serial_no := 7 |}
           (lit "ITEM 1,234.56")).
  - exact Hit.
  - split; [reflexivity|]. split; [discriminate|].
    split; [exists (lit " 1,234.56"); reflexivity|].
    exists (lit "ITEM "), (lit "1,234.56").
    split; [reflexivity|]. split.
    + exists (lit "1,234"), 53%N, 54%N. repeat split; try reflexivity. discriminate.
    + split; reflexivity.
Defined.

(** X10: the [total_price] of every emitted item is a number, never [NaN],
    and is not negative. *)
Theorem total_price_nonneg (h : Host) (ocrText : str) (it : LineItem) :
  In it (items (parseReceiptData h ocrText)) -> nonneg (total_price it).
Proof.
  unfold parseReceiptData, parseItems. cbn [items].
  destruct (fold_items_lines (firstn (itemsEnd (normalize ocrText)) (normalize ocrText)) [])
    as (its & -> & H); [apply Forall_firstn, normalize_all_trimmed|].
  cbn [app]. intros Hin.
  induction H as [|it' line its' ls Hi H IH]; [destruct Hin|].
  destruct Hin as [<-|Hin]; [|auto].
  destruct Hi as (_ & _ & _ & front & token & _ & Htok & _ & ->).
  apply amount_val_nonneg, parseAmount_token, Htok.
Qed.

(** The item of "TEA 2.00". *)
Lemma total_price_nonneg_witness : nonneg (Num 2).
Proof.
  apply (total_price_nonneg (utc_host 0) (lit "TEA 2.00")
           {| description := lit "TEA"; quantity := Num 2;
              unit_price := Some (Num 1); total_price := Num 2;
              serial_no := 1 |}).
  vm_compute. left. reflexivity.
Defined.

(** ** Dates with the year first *)

Lemma date_re2_unfold j s :
  m date_re2 accept j s [] =
  rep isDigit 4 (Some 4)
    (fun i1 s1 c1 =>
       m (Cls sep_cls)
         (fun i2 s2 c2 =>
            rep isDigit 1 (Some 2)
              (fun i3 s3 c3 =>
                 m (Cls sep_cls)
                   (fun i4 s4 c4 =>
                      rep isDigit 1 (Some 2)
                        (fun i5 s5 c5 => accept i5 s5 ((3, firstn (i5 - i4) s4) :: c5))
                        i4 s4 c4)
                   i3 s3 ((2, firstn (i3 - i2) s2) :: c3))
              i2 s2 c2)
         i1 s1 ((1, firstn (i1 - j) s) :: c1))
    j s [].
Proof. reflexivity. Qed.

Lemma date_re2_shape j s e c :
  m date_re2 accept j s [] = Some (e, c) ->
  exists g1 g2 g3,
    c = [(3, g3); (2, g2); (1, g1)] /\
    digits_run 4 4 g1 /\ digits_run 1 2 g2 /\ digits_run 1 2 g3.
Proof.
  rewrite date_re2_unfold. intros H.
  apply rep_digits in H. destruct H as (n1 & R1 & H).
  apply m_Cls_inv in H. destruct H as (x1 & s2 & _ & _ & H).
  apply rep_digits in H. destruct H as (n2 & R2 & H).
  apply m_Cls_inv in H. destruct H as (x2 & s4 & _ & _ & H).
  apply rep_digits in H. destruct H as (n3 & R3 & H).
  unfold accept in H. injection H as <- <-.
  eexists _, _, _. split; [reflexivity|].
  split; [|split].
  - replace (j + n1 - j) with n1 by lia. exact R1.
  - match goal with |- context [firstn ?a _] => replace a with n2 by lia end. exact R2.
  - match goal with |- context [firstn ?a _] => replace a with n3 by lia end. exact R3.
Qed.

(** [new Date(y, m, d)] for the numbers the date patterns can capture. *)
Lemma make_captured h y mo d :
  sane h ->
  (0 <= y <= 10000 -> -1 <= mo <= 100 -> 0 <= d <= 100 ->
   JsDate.make (LocalTZA h) (Some y) (Some mo) (Some d)
   = Some (local_midnight h (date_year y) mo d))%Z.
Proof.
  intros Hs Hy Hm Hd. unfold date_year.
  destruct ((0 <=? y) && (y <=? 99))%Z eqn:E.
  - rewrite <- (make_valid h (1900 + y) mo d Hs) by lia.
    unfold JsDate.make. rewrite E.
    replace ((0 <=? 1900 + y) && (1900 + y <=? 99))%Z with false
      by (symmetry; apply andb_false_iff; right; apply Z.leb_gt; lia).
    reflexivity.
  - apply make_valid; try assumption.
    apply andb_false_iff in E. destruct E as [E|E];
      [apply Z.leb_gt in E | apply Z.leb_gt in E]; lia.
Qed.

Lemma date_of_match_ymd h mt g1 g2 g3 :
  sane h ->
  m_caps mt = [(3, g3); (2, g2); (1, g1)] ->
  digits_run 4 4 g1 -> digits_run 1 2 g2 -> digits_run 1 2 g3 ->
  exists y mo d,
    parseInt g1 = Some y /\ parseInt g2 = Some mo /\ parseInt g3 = Some d /\
    date_of_match h mt
    = Some (JsDate.isoDate (local_midnight h (date_year y) (mo - 1) d)).
Proof.
  intros Hs Hc R1 R2 R3.
  destruct (parseInt_run 4 4 g1 ltac:(lia) R1) as (y & Hy & By).
  destruct (parseInt_run 1 2 g2 (Nat.lt_0_1) R2) as (mo & Hmo & Bm).
  destruct (parseInt_run 1 2 g3 (Nat.lt_0_1) R3) as (d & Hd & Bd).
  exists y, mo, d. repeat (split; [assumption|]).
  unfold date_of_match, group. rewrite Hc. cbn [getcap Nat.eqb].
  rewrite (digits_run_not_NaN 1 2 g2 R2), andb_false_r.
  replace (Nat.eqb (List.length g1) 4) with true
    by (symmetry; apply Nat.eqb_eq; destruct R1 as [_ R1]; lia).
  rewrite orb_true_r. rewrite Hy, Hmo, Hd. cbn [zadd option_map].
  change (10 ^ Z.of_nat 2)%Z with 100%Z in *. change (10 ^ Z.of_nat 4)%Z with 10000%Z in *.
  replace (mo + -1)%Z with (mo - 1)%Z by lia.
  rewrite make_captured; [reflexivity | exact Hs | lia | lia | lia].
Qed.

(** X11: when the text has no match of the first date pattern, a match of
    the second, year/month/day, gives [purchase_date]: the ISO date (in
    UTC) of local midnight of that day, a year from 0 to 99 standing for
    1900 to 1999 as in the [Date] constructor, months past 12 and days past
    the end of the month carrying over. *)
Theorem date_year_first (h : Host) (ocrText : str) (mt : match_result) :
  sane h ->
  re_match date_re1 ocrText = None ->
  re_match date_re2 ocrText = Some mt ->
  exists year month day,
    parseInt (group 1 mt) = Some year /\ parseInt (group 2 mt) = Some month /\
    parseInt (group 3 mt) = Some day /\
    purchase_date (parseReceiptData h ocrText)
    = JsDate.isoDate (local_midnight h (date_year year) (month - 1) day).
Proof.
  intros Hs H1 H2. pose proof H2 as Hm. unfold re_match in Hm.
  apply search_from_inv in Hm. destruct Hm as (s1 & s2 & e & c & _ & Hm & Emt).
  apply date_re2_shape in Hm. destruct Hm as (g1 & g2 & g3 & -> & R1 & R2 & R3).
  assert (Hc : m_caps mt = [(3, g3); (2, g2); (1, g1)]) by (rewrite Emt; reflexivity).
  destruct (date_of_match_ymd h mt g1 g2 g3 Hs Hc R1 R2 R3)
    as (y & mo & d & Hy & Hmo & Hd & Hdate).
  exists y, mo, d. unfold group. rewrite Hc. cbn [getcap Nat.eqb].
  repeat (split; [assumption|]).
  apply purchase_date_found.
  unfold parseDate, date_patterns. cbn [parseDate_loop]. rewrite H1, H2, Hdate.
  reflexivity.
Qed.

(** "2024-1-5" in the UTC zone. *)
Lemma date_year_first_witness :
  exists year month day,
    parseInt (lit "2024") = Some year /\ parseInt (lit "1") = Some month /\
    parseInt (lit "5") = Some day /\
    purchase_date (parseReceiptData (utc_host 0) (lit "on 2024-1-5 at"))
    = JsDate.isoDate (local_midnight (utc_host 0) (date_year year) (month - 1) day).
Proof.
  apply (date_year_first (utc_host 0) (lit "on 2024-1-5 at")
           (MatchResult 3 (lit "2024-1-5")
              [(3, lit "5"); (2, lit "1"); (1, lit "2024")])
           (sane_utc 0)); reflexivity.
Defined.

(** ** Dates with a month name *)

Lemma date_re3_unfold j s :
  m date_re3 accept j s [] =
  rep isDigit 1 (Some 2)
    (fun i1 s1 c1 =>
       rep isSpace 1 None
         (fun i2 s2 c2 =>
            m month_re
              (fun i3 s3 c3 =>
                 rep (icase isLower) 0 None
                   (fun i4 s4 c4 =>
                      rep isSpace 1 None
                        (fun i5 s5 c5 =>
                           rep isDigit 2 (Some 4)
                             (fun i6 s6 c6 => accept i6 s6 ((3, firstn (i6 - i5) s5) :: c6))
                             i5 s5 c5)
                        i4 s4 c4)
                   i3 s3 ((2, firstn (i3 - i2) s2) :: c3))
              i2 s2 c2)
         i1 s1 ((1, firstn (i1 - j) s) :: c1))
    j s [].
Proof. reflexivity. Qed.

(** Under the [i] flag a letter matches the code units that lower to it. *)
Lemma ci_lower1 c x :
  isUpper c || isLower c = true -> ci c x = true -> lower1 x = lower1 c.
Proof.
  unfold ci. intros Hc H. apply N.eqb_eq in H. unfold upper1 in H. unfold lower1.
  destruct (isUpper c) eqn:Uc; destruct (isLower c) eqn:Lc; try discriminate;
    destruct (isLower x) eqn:Lx; destruct (isUpper x) eqn:Ux;
    try (exfalso; char_lia);
    try (f_equal; char_lia);
    repeat match goal with
           | |- context [(?a =? ?b)%N] => destruct (N.eqb_spec a b); try (exfalso; char_lia)
           end;
    try (f_equal; char_lia); try (exfalso; char_lia).
Qed.

Lemma ci_letter_not_digit c x :
  isUpper c || isLower c = true -> ci c x = true -> isDigit x = false.
Proof.
  unfold ci. intros Hc H. apply N.eqb_eq in H. unfold upper1 in H.
  destruct (isDigit x) eqn:D; [|reflexivity]. exfalso.
  destruct (isUpper c) eqn:Uc; destruct (isLower c) eqn:Lc; try discriminate;
    destruct (isLower x) eqn:Lx; char_lia.
Qed.

(** A match of three letters under the [i] flag. *)
Lemma m_letters3 a b c k i s cs res :
  m (Cat (Cls (ci a)) (Cat (Cls (ci b)) (Cls (ci c)))) k i s cs = Some res ->
  exists x y z rest,
    s = [x; y; z] ++ rest /\ ci a x = true /\ ci b y = true /\ ci c z = true /\
    k (i + 3) rest cs = Some res.
Proof.
  cbn [m]. intros H.
  destruct s as [|x [|y [|z rest]]]; try discriminate;
    destruct (ci a x) eqn:Ea; try discriminate;
    try (destruct (ci b y) eqn:Eb; try discriminate);
    try (destruct (ci c z) eqn:Ec; try discriminate).
  exists x, y, z, rest. replace (i + 3) with (S (S (S i))) by lia. auto.
Qed.

Lemma m_Alt_inv a b k i s c res :
  m (Alt a b) k i s c = Some res ->
  m a k i s c = Some res \/ m b k i s c = Some res.
Proof. cbn [m]. destruct (m a k i s c); auto. Qed.

(** A match of the month alternatives: three letters that lower to one of
    the month names, whose place in the table [findIndex] returns. *)
Lemma month_re_text k i s cs res :
  m month_re k i s cs = Some res ->
  exists g rest mo,
    s = g ++ rest /\ List.length g = 3 /\ isNaN_text g = true /\
    (0 <= mo < 12)%Z /\
    findIndex (fun mn => str_eqb (toLowerCase (firstn 3 g)) (toLowerCase mn))
              monthNames 0%Z = mo /\
    (exists name, nth_error monthNames (Z.to_nat mo) = Some name /\
                  toLowerCase g = toLowerCase name) /\
    k (i + 3) rest cs = Some res.
Proof.
  unfold month_re. cbn [Alts]. intros Hm.
  repeat (apply m_Alt_inv in Hm; destruct Hm as [Hm|Hm]).
  all: apply m_letters3 in Hm;
    destruct Hm as (x & y & z & rest & -> & Hx & Hy & Hz & Hk);
    exists [x; y; z], rest.
  all: match type of Hx with ci ?a _ = true =>
         pose proof (ci_lower1 a x eq_refl Hx) as Lx;
         pose proof (ci_letter_not_digit a x eq_refl Hx) as Dx end;
    match type of Hy with ci ?b _ = true => pose proof (ci_lower1 b y eq_refl Hy) as Ly end;
    match type of Hz with ci ?c _ = true => pose proof (ci_lower1 c z eq_refl Hz) as Lz end.
  all: assert (Hl : toLowerCase [x; y; z] = lower1 x ++ lower1 y ++ lower1 z)
    by (unfold toLowerCase; cbn [flat_map]; rewrite app_nil_r; reflexivity).
  all: rewrite Lx, Ly, Lz in Hl.
  all: eexists; split; [reflexivity|]; split; [reflexivity|];
    split; [unfold isNaN_text; cbn [forallb]; rewrite Dx; reflexivity|].
  all: cbn [firstn]; rewrite Hl.
  all: split; [|split; [vm_compute; reflexivity|]].
  all: try (vm_compute; split; [discriminate | reflexivity]).
  all: split; [eexists; split; [vm_compute; reflexivity | vm_compute; reflexivity] | exact Hk].
Qed.

Lemma date_re3_shape j s e c :
  m date_re3 accept j s [] = Some (e, c) ->
  exists g1 g2 g3 mo,
    c = [(3, g3); (2, g2); (1, g1)] /\
    digits_run 1 2 g1 /\ digits_run 2 4 g3 /\
    List.length g2 = 3 /\ isNaN_text g2 = true /\ (0 <= mo < 12)%Z /\
    findIndex (fun mn => str_eqb (toLowerCase (firstn 3 g2)) (toLowerCase mn))
              monthNames 0%Z = mo /\
    exists name, nth_error monthNames (Z.to_nat mo) = Some name /\
                 toLowerCase g2 = toLowerCase name.
Proof.
  rewrite date_re3_unfold. intros H.
  apply rep_digits in H. destruct H as (n1 & R1 & H).
  apply rep_text in H. destruct H as (sp1 & r1 & _ & _ & _ & _ & H).
  apply month_re_text in H.
  destruct H as (g2 & r2 & mo & -> & Hl & Hn & Hmo & Hf & Hname & H).
  apply rep_text in H. destruct H as (tl1 & r3 & _ & _ & _ & _ & H).
  apply rep_text in H. destruct H as (sp2 & r4 & _ & _ & _ & _ & H).
  apply rep_digits in H. destruct H as (n3 & R3 & H).
  unfold accept in H. injection H as <- <-.
  eexists _, g2, _, mo. split.
  - f_equal. f_equal. f_equal. f_equal.
    match goal with |- context [firstn ?a _] => replace a with 3 by lia end.
    apply firstn_app_length. symmetry. exact Hl.
  - split; [replace (j + n1 - j) with n1 by lia; exact R1|].
    split; [match goal with |- context [firstn ?a _] => replace a with n3 by lia end;
            exact R3|].
    auto.
Qed.

Lemma date_of_match_named h mt g1 g2 g3 mo :
  sane h ->
  m_caps mt = [(3, g3); (2, g2); (1, g1)] ->
  digits_run 1 2 g1 -> digits_run 2 4 g3 ->
  List.length g2 = 3 -> isNaN_text g2 = true -> (0 <= mo < 12)%Z ->
  findIndex (fun mn => str_eqb (toLowerCase (firstn 3 g2)) (toLowerCase mn))
            monthNames 0%Z = mo ->
  exists d y,
    parseInt g1 = Some d /\ parseInt g3 = Some y /\
    date_of_match h mt
    = Some (JsDate.isoDate
              (local_midnight h (if (y <? 100)%Z then y + 2000 else y)%Z mo d)).
Proof.
  intros Hs Hc R1 R3 Hl Hn Hmo Hf.
  destruct (parseInt_run 1 2 g1 (Nat.lt_0_1) R1) as (d & Hd & Bd).
  destruct (parseInt_run 2 4 g3 (Nat.lt_0_2) R3) as (y & Hy & By).
  exists d, y. repeat (split; [assumption|]).
  unfold date_of_match, group. rewrite Hc. cbn [getcap Nat.eqb].
  rewrite Hn, Hl. cbn [Nat.eqb negb andb]. rewrite Hf, Hd, Hy. cbn [lt100].
  change (10 ^ Z.of_nat 2)%Z with 100%Z in *. change (10 ^ Z.of_nat 4)%Z with 10000%Z in *.
  destruct (y <? 100)%Z eqn:E; cbn [zadd option_map].
  - apply Z.ltb_lt in E. rewrite make_valid; [reflexivity | exact Hs | lia | lia | lia].
  - apply Z.ltb_ge in E. rewrite make_valid; [reflexivity | exact Hs | lia | lia | lia].
Qed.

(** X12: when the text has no match of the two numeric patterns, a match of
    the third, day, month name, year, gives [purchase_date]: the month is
    recognised by its first three letters whatever their case, its number is
    the place of the name in the table of the twelve names, a year below
    100 is raised by 2000, and the date is the ISO date (in UTC) of local
    midnight of that day. *)
Theorem date_month_name (h : Host) (ocrText : str) (mt : match_result) :
  sane h ->
  re_match date_re1 ocrText = None ->
  re_match date_re2 ocrText = None ->
  re_match date_re3 ocrText = Some mt ->
  exists day year month name,
    parseInt (group 1 mt) = Some day /\ parseInt (group 3 mt) = Some year /\
    nth_error monthNames (Z.to_nat month) = Some name /\ (0 <= month < 12)%Z /\
    toLowerCase (group 2 mt) = toLowerCase name /\
    purchase_date (parseReceiptData h ocrText)
    = JsDate.isoDate
        (local_midnight h (if (year <? 100)%Z then year + 2000 else year)%Z month day).
Proof.
  intros Hs H1 H2 H3. pose proof H3 as Hm. unfold re_match in Hm.
  apply search_from_inv in Hm. destruct Hm as (s1 & s2 & e & c & _ & Hm & Emt).
  apply date_re3_shape in Hm.
  destruct Hm as (g1 & g2 & g3 & mo & -> & R1 & R3 & Hl & Hn & Hmo & Hf & name & Hnth & Hlow).
  assert (Hc : m_caps mt = [(3, g3); (2, g2); (1, g1)]) by (rewrite Emt; reflexivity).
  destruct (date_of_match_named h mt g1 g2 g3 mo Hs Hc R1 R3 Hl Hn Hmo Hf)
    as (d & y & Hd & Hy & Hdate).
  exists d, y, mo, name. unfold group. rewrite Hc. cbn [getcap Nat.eqb].
  repeat (split; [assumption|]).
  apply purchase_date_found.
  unfold parseDate, date_patterns. cbn [parseDate_loop]. rewrite H1, H2, H3, Hdate.
  reflexivity.
Qed.

(** "5 SEPtember 99" in the UTC zone. *)
Lemma date_month_name_witness :
  exists day year month name,
    parseInt (lit "5") = Some day /\ parseInt (lit "99") = Some year /\
    nth_error monthNames (Z.to_nat month) = Some name /\ (0 <= month < 12)%Z /\
    toLowerCase (lit "SEP") = toLowerCase name /\
    purchase_date (parseReceiptData (utc_host 0) (lit "on 5 SEPtember 99 x"))
    = JsDate.isoDate
        (local_midnight (utc_host 0)
           (if (year <? 100)%Z then year + 2000 else year)%Z month day).
Proof.
  apply (date_month_name (utc_host 0) (lit "on 5 SEPtember 99 x")
           (MatchResult 3 (lit "5 SEPtember 99")
              [(3, lit "99"); (2, lit "SEP"); (1, lit "5")])
           (sane_utc 0)); reflexivity.
Defined.

(** ** Texts without digits *)

Lemma split_char_In sep s : forall cur piece x,
  In piece (split_char sep s cur) -> In x piece -> In x s \/ In x cur.
Proof.
  induction s as [|y s IH]; simpl; intros cur piece x H Hx.
  - destruct H as [<-|[]]. right. apply in_rev. exact Hx.
  - destruct (y =? sep)%N.
    + destruct H as [<-|H]; [right; apply in_rev; exact Hx|].
      destruct (IH [] piece x H Hx) as [H1|[]]. auto.
    + destruct (IH (y :: cur) piece x H Hx) as [H1|[<-|H1]]; auto.
Qed.

Lemma normalize_In ocrText line x :
  In line (normalize ocrText) -> In x line -> In x ocrText.
Proof.
  unfold normalize. intros H Hx. apply filter_In in H. destruct H as [H _].
  apply in_map_iff in H. destruct H as (piece & <- & Hp).
  apply trim_In in Hx.
  destruct (split_char_In 10%N ocrText [] piece x Hp Hx) as [H|[]]. exact H.
Qed.

Lemma without_digit s : existsb isDigit s = false -> without digit s.
Proof.
  intros H. apply Forall_forall. intros x Hx Hd.
  assert (existsb isDigit s = true) by (apply existsb_exists; eauto). congruence.
Qed.

Lemma normalize_without_digit ocrText :
  existsb isDigit ocrText = false -> Forall (without digit) (normalize ocrText).
Proof.
  intros H. apply Forall_forall. intros line Hl. apply Forall_forall. intros x Hx.
  pose proof (without_digit _ H) as W. unfold without in W.
  rewrite Forall_forall in W. apply W. eapply normalize_In; eauto.
Qed.

Lemma needs_money P : (forall x, isDigit x = true -> P x) -> needs P money.
Proof. intros H. cbn. right. right. split; [lia | exact H]. Qed.

Lemma match_all_fail P r s : needs P r -> without P s ->
  forall i skip, match_all_from r i s skip = [].
Proof.
  intros Hr Hs. induction Hs as [|x s Hx Hs IH]; intros i skip.
  - cbn [match_all_from]. rewrite (m_fail P r accept i [] []); auto. constructor.
  - cbn [match_all_from]. destruct skip; [|apply IH].
    rewrite (m_fail P r accept i (x :: s) []); auto. constructor; auto.
Qed.

Lemma last_money_without_digit line : without digit line -> last_money line = None.
Proof.
  intros H. unfold last_money, match_all.
  rewrite (match_all_fail digit money line (needs_money digit (fun x Hx => Hx)) H).
  reflexivity.
Qed.

Lemma candidates_without_digit sel lines :
  Forall (without digit) lines -> candidates sel lines = [].
Proof.
  intros F. unfold candidates. induction F as [|line l Hl F IH]; [reflexivity|].
  cbn [flat_map]. rewrite IH, (last_money_without_digit line Hl).
  destruct (sel line); reflexivity.
Qed.

Lemma item_of_line_without_digit n line :
  without digit line -> item_of_line n line = None.
Proof.
  intros H. unfold item_of_line, re_match.
  rewrite (search_fail digit price_re line); [reflexivity| |exact H].
  cbn. left. right. right. split; [lia | auto].
Qed.

Lemma fold_items_without_digit l : forall acc,
  Forall (without digit) l -> fold_left items_step l acc = acc.
Proof.
  induction l as [|line l IH]; intros acc F; [reflexivity|].
  cbn [fold_left]. unfold items_step at 2.
  rewrite (item_of_line_without_digit _ line (Forall_inv F)).
  apply IH. exact (Forall_inv_tail F).
Qed.

Lemma Forall_skipn {A : Type} (P : A -> Prop) n (l : list A) :
  Forall P l -> Forall P (skipn n l).
Proof.
  intros F. apply Forall_forall. intros x Hx.
  rewrite Forall_forall in F. apply F. rewrite <- (firstn_skipn n l).
  apply in_or_app. auto.
Qed.

(** X13: a text that holds no digit gives no items, 0 for both amounts, and
    the date of the clock as [purchase_date]. *)
Theorem no_digit_no_figures (h : Host) (ocrText : str) :
  existsb isDigit ocrText = false ->
  let r := parseReceiptData h ocrText in
  items r = [] /\ total_amount r = Num 0 /\ tax_amount r = Num 0 /\
  purchase_date r = JsDate.isoDate (clock_date h).
Proof.
  intros H. cbn zeta.
  pose proof (normalize_without_digit ocrText H) as F.
  split; [|split; [|split]].
  - unfold parseReceiptData, parseItems. cbn [items].
    apply fold_items_without_digit, Forall_firstn, F.
  - rewrite total_amount_spec. unfold totals_candidates.
    rewrite candidates_without_digit; [reflexivity|]. apply Forall_skipn, F.
  - rewrite tax_amount_spec. unfold tax_candidates.
    rewrite candidates_without_digit; [reflexivity|]. apply Forall_skipn, F.
  - unfold parseReceiptData. cbn [purchase_date].
    rewrite (parseDate_fail digit h ocrText (fun x Hx => Hx) (without_digit _ H)).
    reflexivity.
Qed.

(** A text of words only, at clock 0. *)
Lemma no_digit_no_figures_witness :
  items (parseReceiptData (utc_host 0) (lit "THANK YOU")) = [] /\
  total_amount (parseReceiptData (utc_host 0) (lit "THANK YOU")) = Num 0 /\
  tax_amount (parseReceiptData (utc_host 0) (lit "THANK YOU")) = Num 0 /\
  purchase_date (parseReceiptData (utc_host 0) (lit "THANK YOU")) = JsDate.isoDate 0.
Proof.
  apply (no_digit_no_figures (utc_host 0) (lit "THANK YOU")). reflexivity.
Defined.

(** ** The lines each extractor reads *)

(** X14: [extractStoreInfo] reads the first ten lines only, and
    [extractTotals] the last fifteen only: lines after a block of ten, and
    lines before a block of fifteen, change nothing. *)
Theorem extractors_read_bounded (block more : list str) :
  (10 <= List.length block -> extractStoreInfo (block ++ more) = extractStoreInfo block) /\
  (15 <= List.length block -> extractTotals (more ++ block) = extractTotals block).
Proof.
  split; intros H.
  - unfold extractStoreInfo. rewrite firstn_app.
    replace (10 - List.length block) with 0 by lia.
    rewrite firstn_O, app_nil_r. reflexivity.
  - unfold extractTotals, bottomLines. rewrite length_app, skipn_app.
    replace (List.length more + List.length block - 15 - List.length more)
      with (List.length block - 15) by lia.
    rewrite skipn_all2 by lia. reflexivity.
Qed.

(** An eleventh line with a URL, and a total sixteen lines from the end. *)
Lemma extractors_read_bounded_witness :
  extractStoreInfo (repeat (lit "ACME") 10 ++ [lit "www.acme.com"])
  = extractStoreInfo (repeat (lit "ACME") 10) /\
  extractTotals ([lit "Total 9.00"] ++ repeat (lit "TEA") 15)
  = extractTotals (repeat (lit "TEA") 15).
Proof.
  split.
  - apply (proj1 (extractors_read_bounded (repeat (lit "ACME") 10) [lit "www.acme.com"])).
    simpl. lia.
  - apply (proj2 (extractors_read_bounded (repeat (lit "TEA") 15) [lit "Total 9.00"])).
    simpl. lia.
Defined.

(** ** Keywords before a receipt number *)

Lemma m_StrI_text l : forall k i s c res,
  m (Str_of ci l) k i s c = Some res ->
  exists w rest, s = w ++ rest /\ ci_word l w /\
                 k (i + List.length l) rest c = Some res.
Proof.
  induction l as [|a l IH]; intros k i s c res H.
  - exists [], s. simpl in *. rewrite Nat.add_0_r. repeat split; auto. constructor.
  - destruct l as [|b l].
    + apply m_Cls_inv in H. destruct H as (x & rest & -> & Hx & H).
      exists [x], rest. simpl. rewrite Nat.add_1_r.
      repeat split; auto. constructor; [exact Hx | constructor].
    + change (Str_of ci (a :: b :: l)) with (Cat (Cls (ci a)) (Str_of ci (b :: l))) in H.
      cbn [m] in H. apply m_Cls_inv in H. destruct H as (x & rest & -> & Hx & H).
      apply IH in H. destruct H as (w & rest' & -> & Hw & H).
      exists (x :: w), rest'. split; [reflexivity|].
      split; [constructor; assumption|].
      change (List.length (a :: b :: l)) with (S (List.length (b :: l))).
      rewrite Nat.add_succ_r. exact H.
Qed.

Lemma ci_word_lower l w :
  forallb isLetter l = true -> ci_word l w -> toLowerCase w = toLowerCase l.
Proof.
  intros Hl H. induction H as [|a x l w Hax H IH]; [reflexivity|].
  simpl in Hl. apply andb_true_iff in Hl. destruct Hl as [Ha Hl].
  unfold toLowerCase in *. cbn [flat_map].
  rewrite (ci_lower1 a x Ha Hax), IH by assumption. reflexivity.
Qed.

Lemma startsWith_app p b : startsWith p (p ++ b) = true.
Proof.
  induction p as [|x p IH]; [reflexivity|]. simpl. rewrite N.eqb_refl. exact IH.
Qed.

Lemma includes_app a p b : includes p (a ++ p ++ b) = true.
Proof.
  induction a as [|x a IH].
  - simpl. destruct (p ++ b) eqn:E; cbn [includes]; rewrite <- E, startsWith_app;
      reflexivity.
  - cbn [app includes]. rewrite IH. apply orb_true_r.
Qed.

Lemma toLowerCase_app a b : toLowerCase (a ++ b) = toLowerCase a ++ toLowerCase b.
Proof. apply flat_map_app. Qed.

Lemma keyword_contained kw s1 w rest :
  forallb isLetter (lit kw) = true -> toLowerCase (lit kw) = lit kw ->
  ci_word (lit kw) w -> contains kw (s1 ++ w ++ rest) = true.
Proof.
  intros Hl Hk Hw. unfold contains.
  rewrite !toLowerCase_app, (ci_word_lower _ _ Hl Hw), Hk. apply includes_app.
Qed.

Lemma extractReceiptNumber_keyword text n :
  extractReceiptNumber text = Some n ->
  existsb (fun kw => contains kw text) receiptKeywords = true.
Proof.
  unfold extractReceiptNumber, re_match.
  destruct (search_from receipt_re 0 text) as [mt|] eqn:E; [|discriminate].
  intros _. apply search_from_inv in E. destruct E as (s1 & s2 & e & c & -> & Hm & _).
  unfold receipt_re in Hm. cbn [Cats] in Hm.
  change (m (Cat ?a ?b) ?k ?i ?s ?c) with (m a (fun i' s' c' => m b k i' s' c') i s c) in Hm.
  cbn [Alts] in Hm.
  repeat (apply m_Alt_inv in Hm; destruct Hm as [Hm|Hm]).
  all: apply m_StrI_text in Hm; destruct Hm as (w & rest & -> & Hw & _).
  all: unfold receiptKeywords; cbn [existsb].
  all: match type of Hw with
       | ci_word (lit ?kw) _ =>
           rewrite (keyword_contained kw s1 w rest eq_refl eq_refl Hw)
       end.
  all: rewrite ?orb_true_r; reflexivity.
Qed.

(** X15: a receipt number is read only after one of the words "receipt",
    "invoice", "bill", "txn", "trans", "order", in any case: for a text
    that holds none of them, [receipt_number] is the placeholder "REC-"
    followed by the clock. *)
Theorem receipt_number_needs_keyword (h : Host) (ocrText : str) :
  existsb (fun kw => contains kw ocrText) receiptKeywords = false ->
  receipt_number (parseReceiptData h ocrText) = lit "REC-" ++ str_of_Z (clock_now h).
Proof.
  intros H. unfold parseReceiptData. cbn [receipt_number].
  destruct (extractReceiptNumber ocrText) as [n|] eqn:E; [|reflexivity].
  apply extractReceiptNumber_keyword in E. congruence.
Qed.

(** "Ref A17" names none of the words. *)
Lemma receipt_number_needs_keyword_witness :
  receipt_number (parseReceiptData (utc_host 0) (lit "Ref A17 paid"))
  = lit "REC-" ++ str_of_Z 0.
Proof.
  apply (receipt_number_needs_keyword (utc_host 0) (lit "Ref A17 paid")). reflexivity.
Defined.

(** ** The column a quantity is read from *)

(** The last piece of a split holds the last code unit of the text when
    that is not a blank; [skip] code units of a separator are still to be
    passed over. *)
Lemma split_from_last r x :
  alphabet blank r -> isSpace x = false ->
  forall s i skip cur,
    (s = [] /\ In x cur) \/ (exists body, s = body ++ [x]) ->
    forallb isSpace (firstn skip s) = true ->
    exists pieces lastp, split_from r i s skip cur = pieces ++ [lastp] /\ In x lastp.
Proof.
  intros Hr Hx. induction s as [|y s IH]; intros i skip cur Hs Hskip.
  - destruct Hs as [[_ Hin]|[body Hb]]; [|destruct body; discriminate].
    exists [], (rev cur). split; [reflexivity|]. rewrite <- in_rev. exact Hin.
  - destruct Hs as [[Hs _]|[body Hb]]; [discriminate|].
    assert (Htail : forall cur', (isSpace y = false -> In y cur') ->
              (s = [] /\ In x cur') \/ (exists body', s = body' ++ [x])).
    { intros cur' Hy. destruct body as [|b body]; simpl in Hb; injection Hb as -> ->.
      - left. split; [reflexivity | apply Hy, Hx].
      - right. exists body. reflexivity. }
    cbn [split_from]. destruct skip as [|n].
    + destruct (m r accept i (y :: s) []) as [[e c]|] eqn:E.
      * apply (m_sound blank r Hr) in E.
        destruct E as (w & rest & c' & Hw & Fw & _ & E).
        unfold accept in E. injection E as <- _.
        destruct w as [|w0 w].
        -- rewrite Nat.add_0_r, Nat.eqb_refl.
           destruct cur as [|z cur].
           ++ apply IH; [apply Htail; intros _; left; reflexivity | reflexivity].
           ++ destruct (IH (S i) 0 [y]) as (pieces & lastp & -> & Hin);
                [apply Htail; intros _; left; reflexivity | reflexivity |].
              exists (rev (z :: cur) :: pieces), lastp. auto.
        -- simpl in Hw. injection Hw as <- ->.
           replace (Nat.eqb (i + List.length (y :: w)) i) with false
             by (symmetry; apply Nat.eqb_neq; simpl; lia).
           assert (Hy : isSpace y = true) by (apply (Forall_inv Fw)).
           destruct (IH (S i) (i + List.length (y :: w) - i - 1) []) as
             (pieces & lastp & -> & Hin).
           ++ apply Htail. intros Hn. congruence.
           ++ replace (i + List.length (y :: w) - i - 1) with (List.length w)
                by (simpl; lia).
              rewrite firstn_app_length by reflexivity.
              apply Forall_inv_tail in Fw. apply forallb_forall.
              rewrite Forall_forall in Fw. exact Fw.
           ++ exists (rev cur :: pieces), lastp. auto.
      * apply IH; [apply Htail; intros _; left; reflexivity | reflexivity].
    + simpl in Hskip. apply andb_true_iff in Hskip. destruct Hskip as [Hy Hskip].
      apply IH; [|exact Hskip]. apply Htail. intros Hn. congruence.
Qed.

Lemma re_split_last lo x body :
  isSpace x = false ->
  exists pieces lastp,
    re_split (Rep isSpace lo None) (body ++ [x]) = pieces ++ [lastp] /\ In x lastp.
Proof.
  intros Hx. unfold re_split.
  destruct (body ++ [x]) as [|y s] eqn:E; [destruct body; discriminate|].
  rewrite <- E. apply split_from_last; auto.
  - cbn. intros z Hz. exact Hz.
  - right. exists body. reflexivity.
Qed.

Lemma parts_of_last x body :
  isSpace x = false ->
  exists pieces lastp, parts_of (body ++ [x]) = pieces ++ [lastp] /\ In x lastp.
Proof.
  intros Hx. unfold parts_of, gap_re, blank_re.
  destruct (List.length (re_split (Rep isSpace 2 None) (body ++ [x])) <? 2);
    apply re_split_last; exact Hx.
Qed.

Lemma part_step_last totalPrice st part :
  existsb isDigit part = true ->
  exists qtyMatch,
    re_match qty_re part = Some qtyMatch /\
    fst (part_step totalPrice st part) = parseFloat (group 1 qtyMatch).
Proof.
  intros H. destruct st as [qty unitPrice]. unfold part_step.
  destruct (re_match qty_re part) as [mt|] eqn:E.
  - exists mt. auto.
  - elim (qty_search part 0 H E).
Qed.

Lemma tl_last {A : Type} (pieces : list A) (lastp : A) :
  tl (pieces ++ [lastp]) = [] \/
  exists front, tl (pieces ++ [lastp]) = front ++ [lastp].
Proof.
  destruct pieces as [|p pieces]; [left; reflexivity|].
  right. exists pieces. reflexivity.
Qed.

(** The quantity of the item of a priced line that does not end with a
    blank. *)
Lemma item_of_line_quantity n line it :
  head_visible (rev line) ->
  item_of_line n line = Some it -> quantity_of_line line (quantity it).
Proof.
  intros Hv H. unfold item_of_line in H.
  destruct (re_match price_re line) as [pm|] eqn:E; [|discriminate].
  destruct (price_match_text line pm Hv E) as (front & Hline & w & d1 & d2 & Htok & _ & _ & _ & D2).
  assert (Hl : line = (front ++ w ++ [46%N; d1]) ++ [d2]).
  { rewrite Hline, Htok. rewrite <- !app_assoc. reflexivity. }
  destruct (parts_of_last d2 (front ++ w ++ [46%N; d1]) (isDigit_not_space d2 D2))
    as (pieces & lastp & Hp & Hin).
  rewrite <- Hl in Hp. unfold quantity_of_line. rewrite Hp in *.
  assert (Hd : existsb isDigit lastp = true) by (apply existsb_exists; eauto).
  destruct (tl_last pieces lastp) as [Ht|[frontp Ht]]; rewrite Ht in *.
  - cbn [fold_left] in H. injection H as <-. reflexivity.
  - rewrite fold_left_app in H. cbn [fold_left] in H.
    destruct (part_step_last (parseAmount (group 1 pm))
                (fold_left (part_step (parseAmount (group 1 pm))) frontp (Num 1, None))
                lastp Hd) as (mt & Hm & Hq).
    destruct (part_step _ _ lastp) as [qty unitPrice]. cbn [fst] in Hq.
    injection H as <-. cbn [quantity].
    destruct (frontp ++ [lastp]) as [|c0 cs] eqn:Ec; [destruct frontp; discriminate|].
    rewrite <- Ec. rewrite last_last. exists mt. auto.
Qed.

Lemma fold_items_In_line lines : forall items it,
  In it (fold_left items_step lines items) ->
  In it items \/ exists n line, In line lines /\ item_of_line n line = Some it.
Proof.
  induction lines as [|line lines IH]; intros items it H; simpl in H; [auto|].
  apply IH in H. destruct H as [H|(n & l & Hl & H)].
  - unfold items_step in H.
    destruct (item_of_line (List.length items) line) as [it'|] eqn:E; [|auto].
    apply in_app_or in H. destruct H as [H|[<-|[]]]; [auto|].
    right. exists (List.length items), line. split; [left; reflexivity | exact E].
  - right. exists n, l. split; [right; exact Hl | exact H].
Qed.

(** X16: every item comes from a line of the items region; its quantity is
    1 when that line has a single column, and otherwise the number that the
    quantity pattern finds in the last column of the line, the one that
    ends with the price, whatever the columns before it hold. *)
Theorem quantity_from_last_column (h : Host) (ocrText : str) (it : LineItem) :
  In it (items (parseReceiptData h ocrText)) ->
  exists line,
    In line (items_region (normalize ocrText)) /\ item_of it line /\
    quantity_of_line line (quantity it).
Proof.
  unfold parseReceiptData, parseItems, items_region. cbn [items]. intros H.
  apply fold_items_In_line in H. destruct H as [[]|(n & line & Hl & H)].
  exists line. split; [exact Hl|].
  assert (Hin : In line (normalize ocrText)).
  { rewrite <- (firstn_skipn (itemsEnd (normalize ocrText)) (normalize ocrText)).
    apply in_or_app. auto. }
  apply normalize_trimmed in Hin. split.
  - apply (item_of_line_line n line it Hin H).
  - destruct Hin as (_ & Hr & _). apply (item_of_line_quantity n line it Hr H).
Qed.

(** The item of "WIDGET  3 x  4.50": its quantity is read from "4.50". *)
Lemma quantity_from_last_column_witness :
  exists line,
    In line (items_region (normalize (lit "WIDGET  3 x  4.50"))) /\
    item_of {| description := lit "WIDGET"; quantity := Num (9 # 2);
               unit_price := Some (Num 1); total_price := Num (9 # 2);
               serial_no := 1 |} line /\
    quantity_of_line line (Num (9 # 2)).
Proof.
  apply (quantity_from_last_column (utc_host 0) (lit "WIDGET  3 x  4.50")
           {| description := lit "WIDGET"; quantity := Num (9 # 2);
              unit_price := Some (Num 1); total_price := Num (9 # 2);
              serial_no := 1 |}).
  vm_compute. left. reflexivity.
Defined.
